(** * backend-kostentram: authentication and credential lifecycle

    A shallow embedding of the Express/Prisma back end:
    - [src/routes/auth.ts]      register, login, forgot-password, reset-password
    - [src/middleware/auth.ts]  the bearer-token gate
    - [src/utils/jwt.ts]        signJwt / verifyJwt and the start-up check of the secret
    - [src/utils/zod.ts]        zodToFieldErrors
    - [src/server.ts]           module loading before [app.listen]
    - [prisma/migrations]       the tables, their serial keys and unique indexes

    Handlers are programs over an effect signature (one effect per awaited
    or library call); they are run either one request at a time or
    interleaved at their [await] points, as on the Node event loop.

    JavaScript strings are modelled as [string], one character standing for
    one UTF-16 code unit; JavaScript numbers that carry identifiers, status
    codes and timestamps as [Z]. *)

From Stdlib Require Import ZArith String List Bool Lia Ascii.
From stdpp Require Import base strings list gmap countable.

Set Warnings "-register-all".
Local Open Scope string_scope.
Local Open Scope Z_scope.
Local Open Scope list_scope.

(** ** JSON values (request bodies parsed by [express.json()], response
    bodies, the header and the payload of a token) *)

Inductive json : Type :=
| JUndefined
| JNull
| JBool (b : bool)
| JNum (n : Z)
| JStr (s : string)
| JArr (xs : list json)
| JObj (fields : list (string * json)).

Fixpoint assoc {A : Type} (k : string) (l : list (string * A)) : option A :=
  match l with
  | [] => None
  | (k', v) :: rest => if String.eqb k k' then Some v else assoc k rest
  end.

(** [o.k] on a parsed body: a missing property reads as [undefined]. *)
Definition field (k : string) (o : json) : json :=
  match o with
  | JObj fs => match assoc k fs with Some v => v | None => JUndefined end
  | _ => JUndefined
  end.

(** ** Data model ([migration.sql]) *)

Record User : Type := mkUser {
  u_id : Z;
  u_email : string;
  u_password : string;
  u_name : option string;
  u_createdAt : Z;
  u_updatedAt : Z
}.

Record PasswordReset : Type := mkPasswordReset {
  pr_id : Z;
  pr_token : string;
  pr_userId : Z;
  pr_expiresAt : option Z;
  pr_used : bool;
  pr_createdAt : Z
}.

(** [JwtPayload] of [src/types/index.d.ts]. *)
Record JwtPayload : Type := mkJwtPayload {
  userId : Z;
  email : string
}.

(** The object a token really carries: the payload plus the registered
    claims [iat] and [exp] that [jwt.sign] adds and [jwt.verify] returns. *)
Record JwtClaims : Type := mkJwtClaims {
  c_userId : Z;
  c_email : string;
  c_iat : Z;
  c_exp : option Z
}.

Definition claims_payload (c : JwtClaims) : JwtPayload :=
  {| userId := c_userId c; email := c_email c |}.

(** The same object as a JSON value, its keys in the order in which
    [jwt.sign] sets them. *)
Definition claims_json (c : JwtClaims) : json :=
  JObj ([ ("userId", JNum (c_userId c)); ("email", JStr (c_email c));
          ("iat", JNum (c_iat c)) ]
        ++ match c_exp c with
           | Some e => [("exp", JNum e)]
           | None => []
           end).

(** ** The platform: npm dependencies and the runtime

    Code that is not part of the repository is taken as a parameter: zod's
    e-mail grammar and message texts, bcrypt, the random source behind
    [crypto.randomBytes] and bcrypt's salts, and what jsonwebtoken builds its
    tokens from (the three HMACs, base64 and JSON). *)

Class Platform : Type := {
  (* zod *)
  is_email : string -> bool;
  zod_invalid_type : string -> json -> string;
  zod_too_small : nat -> string;
  zod_invalid_email : string;
  (* bcrypt *)
  bcrypt_salt : nat -> string;
  bcrypt_hash : nat -> string -> string -> string;
  bcrypt_compare : string -> string -> bool;
  (* crypto.randomBytes(n).toString('hex'), by draw number *)
  random_hex : nat -> nat -> string;
  (* under jsonwebtoken: the HMACs of a key and a message in base64url,
     base64url(JSON.stringify(v)), Buffer.from(s, 'base64').toString(enc)
     for the encodings 'binary' and 'utf8', and JSON.parse, which throws
     where this is [None] *)
  hmac_sha256_b64 : string -> string -> string;
  hmac_sha384_b64 : string -> string -> string;
  hmac_sha512_b64 : string -> string -> string;
  b64json_encode : json -> string;
  b64_latin1 : string -> string;
  b64_utf8 : string -> string;
  json_parse : string -> option json
}.

(** ** zod schemas and [zodToFieldErrors] ([src/utils/zod.ts]) *)

Module Zod.

(** An issue of a [ZodError]; [path] holds each element as [String] renders
    it. *)
Record Issue : Type := mkIssue {
  path : list string;
  message : string
}.

Section Checks.
Context `{Platform}.

(** [z.email()] *)
Definition z_email (v : json) : string + string :=
  match v with
  | JStr s => if is_email s then inr s else inl zod_invalid_email
  | _ => inl (zod_invalid_type "string" v)
  end.

(** [z.string().min(n)] *)
Definition z_string_min (n : nat) (v : json) : string + string :=
  match v with
  | JStr s => if (n <=? String.length s)%nat then inr s else inl (zod_too_small n)
  | _ => inl (zod_invalid_type "string" v)
  end.

(** [z.string().optional()] *)
Definition z_string_optional (v : json) : string + option string :=
  match v with
  | JUndefined => inr None
  | JStr s => inr (Some s)
  | _ => inl (zod_invalid_type "string" v)
  end.

Definition issue_at {A : Type} (k : string) (r : string + A) : list Issue :=
  match r with
  | inl m => [ {| path := [k]; message := m |} ]
  | inr _ => []
  end.

Definition not_an_object (v : json) : list Issue :=
  [ {| path := []; message := zod_invalid_type "object" v |} ].

End Checks.

(** The names [Object.prototype] defines. An object literal inherits them,
    so that [fieldErrors[k]] is a function (for ['__proto__'] the prototype
    itself) and not [undefined] for each of them. *)
Definition object_prototype_keys : list string :=
  [ "constructor"; "__defineGetter__"; "__defineSetter__"; "hasOwnProperty";
    "__lookupGetter__"; "__lookupSetter__"; "isPrototypeOf";
    "propertyIsEnumerable"; "toString"; "valueOf"; "__proto__"; "toLocaleString" ].

Definition inherited (k : string) : bool :=
  existsb (String.eqb k) object_prototype_keys.

Definition digit (c : ascii) : option N :=
  let n := N_of_ascii c in
  if ((48 <=? n) && (n <=? 57))%N then Some (n - 48)%N else None.

Fixpoint decimal (s : string) (acc : N) : option N :=
  match s with
  | EmptyString => Some acc
  | String c rest =>
      match digit c with
      | Some d => decimal rest (10 * acc + d)%N
      | None => None
      end
  end.

(** An array index: the decimal form, without leading zeros, of an integer
    from 0 to 2^32 - 2. *)
Definition array_index (k : string) : option N :=
  match k with
  | EmptyString => None
  | String c rest =>
      if Ascii.eqb c "0"%char && negb (String.eqb rest EmptyString) then None
      else match decimal k 0 with
           | Some n => if (n <? 4294967295)%N then Some n else None
           | None => None
           end
  end.

(** [o[k] = v] for a key [o] does not have. The object is kept in the order
    in which JavaScript lists its keys ([JSON.stringify], [Object.keys]):
    array indices in ascending order first, then the other keys in the order
    of their creation. *)
Fixpoint define {A : Type} (k : string) (v : A) (o : list (string * A))
  : list (string * A) :=
  match o with
  | [] => [(k, v)]
  | (k', v') :: rest =>
      match array_index k, array_index k' with
      | Some n, Some n' =>
          if (n <? n')%N then (k, v) :: o else (k', v') :: define k v rest
      | Some _, None => (k, v) :: o
      | None, _ => (k', v') :: define k v rest
      end
  end.

(** [o[k].push(m)] for a key [o] has. *)
Fixpoint push_own (k m : string) (fe : list (string * list string))
  : list (string * list string) :=
  match fe with
  | [] => []
  | (k', ms) :: rest =>
      if String.eqb k k' then (k', ms ++ [m]) :: rest
      else (k', ms) :: push_own k m rest
  end.

(** [(fieldErrors[key] ??= []).push(msg)]. For a key that [fieldErrors] does
    not have but inherits, nothing is assigned and the call of [push], which
    the inherited value does not have, throws a [TypeError]: [None]. *)
Definition push_field (k m : string) (fe : list (string * list string))
  : option (list (string * list string)) :=
  match assoc k fe with
  | Some _ => Some (push_own k m fe)
  | None => if inherited k then None else Some (define k [m] fe)
  end.

(** The loop of [zodToFieldErrors]: [key] is [path[0]] when the path is not
    empty, and an empty key is falsy, so its message is a form error. *)
Fixpoint collect (issues : list Issue) (form : list string)
  (fe : list (string * list string))
  : option (list string * list (string * list string)) :=
  match issues with
  | [] => Some (form, fe)
  | i :: rest =>
      match path i with
      | k :: _ =>
          if String.eqb k EmptyString then collect rest (form ++ [message i]) fe
          else match push_field k (message i) fe with
               | Some fe' => collect rest form fe'
               | None => None
               end
      | [] => collect rest (form ++ [message i]) fe
      end
  end.

(** [zodToFieldErrors(err)], on [err.issues]; [None] when it throws. *)
Definition zodToFieldErrors (issues : list Issue) : option json :=
  match collect issues [] [] with
  | Some (form, fe) =>
      Some (JObj [ ("message", JStr "Validation failed");
                   ("formErrors", JArr (map JStr form));
                   ("fieldErrors",
                    JObj (map (fun kv => (fst kv, JArr (map JStr (snd kv)))) fe)) ])
  | None => None
  end.

End Zod.

(** ** jsonwebtoken and [src/utils/jwt.ts] *)

Module Jwt.

(** What [jwt.verify] throws: its own three errors, and the [SyntaxError] of
    [JSON.parse] and the [TypeError] of reading a property of [null], which
    it lets through. *)
Inductive Error : Type :=
| JsonWebTokenError (msg : string)
| TokenExpiredError
| NotBeforeError
| SyntaxError
| TypeError.

(** [token.split('.')] *)
Fixpoint split_dot (s : string) : list string :=
  match s with
  | EmptyString => [EmptyString]
  | String c rest =>
      if Ascii.eqb c "."%char then EmptyString :: split_dot rest
      else match split_dot rest with
           | x :: xs => String c x :: xs
           | [] => [String c EmptyString]
           end
  end.

(** base64url of the JOSE header [{"alg":"HS256","typ":"JWT"}]. *)
Definition header_b64 : string := "eyJhbGciOiJIUzI1NiIsInR5cCI6IkpXVCJ9".

(** [[a-zA-Z0-9\-_]] *)
Definition b64url_char (c : ascii) : bool :=
  let n := nat_of_ascii c in
  (((65 <=? n) && (n <=? 90)) || ((97 <=? n) && (n <=? 122))
   || ((48 <=? n) && (n <=? 57)) || (n =? 45) || (n =? 95))%nat.

Fixpoint b64url (s : string) : bool :=
  match s with
  | EmptyString => true
  | String c rest => b64url_char c && b64url rest
  end.

(** [[a-zA-Z0-9\-_]+] *)
Definition segment (s : string) : bool :=
  match s with
  | EmptyString => false
  | _ => b64url s
  end.

(** The test of jws on the form of a token, for a token of three segments. *)
Definition valid_jws (h p s : string) : bool := segment h && segment p && b64url s.

(** [!!v] *)
Definition truthy (v : json) : bool :=
  match v with
  | JUndefined | JNull => false
  | JBool b => b
  | JNum n => negb (n =? 0)
  | JStr s => negb (String.eqb s EmptyString)
  | JArr _ | JObj _ => true
  end.

(** [v !== null && typeof v === 'object'] *)
Definition is_object (v : json) : bool :=
  match v with
  | JArr _ | JObj _ => true
  | _ => false
  end.

(** [v === s] for a string [s] *)
Definition is_string (s : string) (v : json) : bool :=
  match v with
  | JStr t => String.eqb t s
  | _ => false
  end.

Section Lib.
Context `{Platform}.

(** jsonwebtoken is an npm dependency, not code of the repository. Its
    [sign] and [verify] are written out here as the repository calls them:
    [sign] with an object payload, a string secret and at most the option
    [expiresIn], [verify] with a string secret and no options, so that the
    tokens it takes are those of HS256, HS384 and HS512. The secret is not
    empty (the module does not load otherwise) and is one that jsonwebtoken
    takes as an HMAC secret, not as a PEM-encoded key or certificate. [iat],
    [nbf] and [exp] are in whole seconds. *)
Definition sign (p : JwtPayload) (secret : string) (expiresIn : option Z)
  (now_ms : Z) : string :=
  let iat := now_ms / 1000 in
  let claims := {| c_userId := userId p; c_email := email p; c_iat := iat;
                   c_exp := option_map (fun d => iat + d) expiresIn |} in
  let input := header_b64 +:+ "." +:+ b64json_encode (claims_json claims) in
  input +:+ "." +:+ hmac_sha256_b64 secret input.

(** A payload that is a string is parsed once more, and replaced by what it
    holds when that is an object. *)
Definition reparse (v : json) : json :=
  match v with
  | JStr t =>
      match json_parse t with
      | Some o => if is_object o then o else v
      | None => v
      end
  | _ => v
  end.

(** [decode(token, { complete: true })]: the header and the payload, [None]
    where it returns [null]. The payload is parsed as JSON when the header
    has [typ: 'JWT'], and is the decoded text otherwise. *)
Definition decode (h p s : string) : Error + option (json * json) :=
  if negb (valid_jws h p s) then inr None
  else
    match json_parse (b64_latin1 h) with
    | None => inr None
    | Some header =>
        if negb (truthy header) then inr None
        else if is_string "JWT" (field "typ" header) then
          match json_parse (b64_utf8 p) with
          | Some v => inr (Some (header, reparse v))
          | None => inl SyntaxError
          end
        else inr (Some (header, reparse (JStr (b64_utf8 p))))
    end.

(** The HMAC of an algorithm that [verify] allows for a secret. *)
Definition hmac_b64 (alg : json) : option (string -> string -> string) :=
  if is_string "HS256" alg then Some hmac_sha256_b64
  else if is_string "HS384" alg then Some hmac_sha384_b64
  else if is_string "HS512" alg then Some hmac_sha512_b64
  else None.

(** The tests on [payload.nbf] and [payload.exp]. *)
Definition check_exp (payload : json) (clockTimestamp : Z) : Error + json :=
  match field "exp" payload with
  | JUndefined => inr payload
  | JNum e => if e <=? clockTimestamp then inl TokenExpiredError else inr payload
  | _ => inl (JsonWebTokenError "invalid exp value")
  end.

Definition check_times (payload : json) (clockTimestamp : Z) : Error + json :=
  match payload with
  | JNull => inl TypeError
  | _ =>
      match field "nbf" payload with
      | JUndefined => check_exp payload clockTimestamp
      | JNum n =>
          if clockTimestamp <? n then inl NotBeforeError
          else check_exp payload clockTimestamp
      | _ => inl (JsonWebTokenError "invalid nbf value")
      end
  end.

Definition verify (token secret : string) (now_ms : Z) : Error + json :=
  let clockTimestamp := now_ms / 1000 in
  if String.eqb token EmptyString then
    inl (JsonWebTokenError "jwt must be provided")
  else
  match split_dot token with
  | [h; p; s] =>
      match decode h p s with
      | inl err => inl err
      | inr None => inl (JsonWebTokenError "invalid token")
      | inr (Some (header, payload)) =>
          if String.eqb s EmptyString then
            inl (JsonWebTokenError "jwt signature is required")
          else
          match hmac_b64 (field "alg" header) with
          | None => inl (JsonWebTokenError "invalid algorithm")
          | Some hmac =>
              if String.eqb s (hmac secret (h +:+ "." +:+ p)) then
                check_times payload clockTimestamp
              else inl (JsonWebTokenError "invalid signature")
          end
      end
  | _ => inl (JsonWebTokenError "jwt malformed")
  end.

(** [jwt.SignOptions], of which only [expiresIn] (in seconds) matters here;
    [None] is an absent property. *)
Record SignOptions : Type := mkSignOptions {
  expiresIn : option Z
}.

(** ['7d'], which jsonwebtoken turns into seconds. *)
Definition seven_days : Z := 7 * 24 * 60 * 60.

(** [{ expiresIn: '7d', ...opts }] *)
Definition merge_opts (opts : option SignOptions) : option Z :=
  match opts with
  | Some o => match expiresIn o with
              | Some d => Some d
              | None => Some seven_days
              end
  | None => Some seven_days
  end.

(** [signJwt] and [verifyJwt]; [SECRET] is the module constant and the
    clock is what [Date.now()] reads inside the library. *)
Definition signJwt (SECRET : string) (payload : JwtPayload)
  (opts : option SignOptions) (now_ms : Z) : string :=
  sign payload SECRET (merge_opts opts) now_ms.

Definition verifyJwt (SECRET : string) (token : string) (now_ms : Z)
  : Error + json :=
  verify token SECRET now_ms.

End Lib.

(** The top of the module: [const SECRET = process.env.JWT_SECRET!;
    if (!SECRET) throw new Error('JWT_SECRET missing')]. An absent variable
    and the empty string are both falsy. *)
Definition load (env : gmap string string) : string + string :=
  match env !! "JWT_SECRET" with
  | Some s => if String.eqb s EmptyString then inl "JWT_SECRET missing" else inr s
  | None => inl "JWT_SECRET missing"
  end.

End Jwt.

(** ** The relational store behind Prisma *)

Module Db.

Inductive PrismaError : Type :=
| P2002   (* unique constraint failed *)
| P2003   (* foreign key constraint failed *)
| P2025.  (* record to update not found *)

(** The two tables of the credential life cycle and their [SERIAL]
    sequences ([*_seq] is the next value handed out). *)
Record Store : Type := mkStore {
  users : list User;
  passwordResets : list PasswordReset;
  user_seq : Z;
  reset_seq : Z
}.

Definition find_user_by_email (e : string) (s : Store) : option User :=
  find (fun u => String.eqb (u_email u) e) (users s).

Definition find_user_by_id (i : Z) (s : Store) : option User :=
  find (fun u => u_id u =? i) (users s).

Definition find_reset_by_token (t : string) (s : Store) : option PasswordReset :=
  find (fun r => String.eqb (pr_token r) t) (passwordResets s).

Definition find_reset_by_id (i : Z) (s : Store) : option PasswordReset :=
  find (fun r => pr_id r =? i) (passwordResets s).

(** [prisma.user.create]: the unique index [User_email_key] rejects a
    second row with the same email; the sequence value is spent either way. *)
Definition user_create (e pw : string) (n : option string) (now : Z) (s : Store)
  : (PrismaError + User) * Store :=
  let u := mkUser (user_seq s) e pw n now now in
  match find_user_by_email e s with
  | Some _ =>
      (inl P2002, mkStore (users s) (passwordResets s) (user_seq s + 1) (reset_seq s))
  | None =>
      (inr u, mkStore (users s ++ [u]) (passwordResets s) (user_seq s + 1) (reset_seq s))
  end.

Definition set_password (pw : string) (now : Z) (u : User) : User :=
  mkUser (u_id u) (u_email u) pw (u_name u) (u_createdAt u) now.

(** [prisma.user.update({ where: { id }, data: { password } })] *)
Definition user_update (i : Z) (pw : string) (now : Z) (s : Store)
  : (PrismaError + User) * Store :=
  match find_user_by_id i s with
  | Some u =>
      (inr (set_password pw now u),
       mkStore (map (fun u' => if u_id u' =? i then set_password pw now u' else u')
                    (users s))
               (passwordResets s) (user_seq s) (reset_seq s))
  | None => (inl P2025, s)
  end.

(** [prisma.passwordReset.create({ data: { token, userId } })]: [expiresAt]
    stays NULL and [used] takes its default [false]; the unique index
    [PasswordReset_token_key] and the foreign key to [User] are checked. *)
Definition passwordReset_create (t : string) (uid : Z) (now : Z) (s : Store)
  : (PrismaError + PasswordReset) * Store :=
  let r := mkPasswordReset (reset_seq s) t uid None false now in
  let spent := mkStore (users s) (passwordResets s) (user_seq s) (reset_seq s + 1) in
  match find_reset_by_token t s with
  | Some _ => (inl P2002, spent)
  | None =>
      match find_user_by_id uid s with
      | None => (inl P2003, spent)
      | Some _ =>
          (inr r, mkStore (users s) (passwordResets s ++ [r]) (user_seq s)
                          (reset_seq s + 1))
      end
  end.

Definition set_used (b : bool) (r : PasswordReset) : PasswordReset :=
  mkPasswordReset (pr_id r) (pr_token r) (pr_userId r) (pr_expiresAt r) b
                  (pr_createdAt r).

(** [prisma.passwordReset.update({ where: { id }, data: { used } })] *)
Definition passwordReset_update (i : Z) (b : bool) (s : Store)
  : (PrismaError + PasswordReset) * Store :=
  match find_reset_by_id i s with
  | Some r =>
      (inr (set_used b r),
       mkStore (users s)
               (map (fun r' => if pr_id r' =? i then set_used b r' else r')
                    (passwordResets s))
               (user_seq s) (reset_seq s))
  | None => (inl P2025, s)
  end.

End Db.

(** ** Effects: what a handler asks of Prisma, bcrypt, crypto and the clock *)

Record World : Type := mkWorld {
  db : Db.Store;
  clock : Z;        (* Date.now(), in milliseconds *)
  draws : nat       (* random draws made so far *)
}.

Inductive Eff : Type -> Type :=
| UserFindUnique (e : string) : Eff (option User)
| UserCreate (e pw : string) (n : option string) : Eff (Db.PrismaError + User)
| UserUpdate (i : Z) (pw : string) : Eff (Db.PrismaError + User)
| PasswordResetFindUnique (t : string) : Eff (option PasswordReset)
| PasswordResetCreate (t : string) (uid : Z) : Eff (Db.PrismaError + PasswordReset)
| PasswordResetUpdate (i : Z) (used : bool) : Eff (Db.PrismaError + PasswordReset)
| BcryptHash (pw : string) (rounds : nat) : Eff string
| BcryptCompare (pw h : string) : Eff bool
| RandomBytesHex (n : nat) : Eff string
| DateNow : Eff Z.

(** The calls the source awaits; [crypto.randomBytes] and the clock read
    inside [jwt.sign] / [jwt.verify] are synchronous. *)
Definition awaited {X : Type} (e : Eff X) : bool :=
  match e with
  | RandomBytesHex _ | DateNow => false
  | _ => true
  end.

(** What the promise of an [async] handler is rejected with: an error of
    Prisma that nothing caught, or the [TypeError] of [zodToFieldErrors]. *)
Inductive Rejection : Type :=
| Prisma (e : Db.PrismaError)
| TypeError.

Coercion Prisma : Db.PrismaError >-> Rejection.

(** A handler: it responds, its promise is rejected, or it performs an
    effect and goes on with its result. *)
Inductive Prog (A : Type) : Type :=
| Ret (a : A)
| Throw (e : Rejection)
| Vis {X : Type} (e : Eff X) (k : X -> Prog A).

Arguments Ret {A} a.
Arguments Throw {A} e.
Arguments Vis {A X} e k.

(** [const x = f(...)] for a synchronous call, [const x = await f(...)] for
    an awaited one whose outcome the handler takes as it comes. *)
Notation "'call' x <- e ;; k" := (Vis e (fun x => k))
  (at level 100, x name, e at level 99, k at level 200, right associativity).

Notation "'await' x <- e ;; k" := (Vis e (fun x => k))
  (at level 100, x name, e at level 99, k at level 200, right associativity).

(** [const x = await f(...)] outside any [try]: a rejection ends the handler. *)
Notation "'await!' x <- e ;; k" :=
  (Vis e (fun r => match r with inl err => Throw err | inr x => k end))
  (at level 100, x name, e at level 99, k at level 200, right associativity).

Section Semantics.
Context `{Platform}.

Definition set_db (s : Db.Store) (w : World) : World :=
  mkWorld s (clock w) (draws w).

Definition draw (w : World) : World :=
  mkWorld (db w) (clock w) (S (draws w)).

Definition on_db {R : Type} (r : R * Db.Store) (w : World) : R * World :=
  (fst r, set_db (snd r) w).

Definition perform {X : Type} (e : Eff X) (w : World) : X * World :=
  match e in Eff X return X * World with
  | UserFindUnique e => (Db.find_user_by_email e (db w), w)
  | UserCreate e pw n => on_db (Db.user_create e pw n (clock w) (db w)) w
  | UserUpdate i pw => on_db (Db.user_update i pw (clock w) (db w)) w
  | PasswordResetFindUnique t => (Db.find_reset_by_token t (db w), w)
  | PasswordResetCreate t uid =>
      on_db (Db.passwordReset_create t uid (clock w) (db w)) w
  | PasswordResetUpdate i b => on_db (Db.passwordReset_update i b (db w)) w
  | BcryptHash pw rounds =>
      (bcrypt_hash rounds (bcrypt_salt (draws w)) pw, draw w)
  | BcryptCompare pw h => (bcrypt_compare pw h, w)
  | RandomBytesHex n => (random_hex (draws w) n, draw w)
  | DateNow => (clock w, w)
  end.

(** One request handled from start to end with nothing in between. *)
Fixpoint run {A : Type} (p : Prog A) (w : World) : (Rejection + A) * World :=
  match p with
  | Ret a => (inr a, w)
  | Throw e => (inl e, w)
  | Vis e k => run (k (fst (perform e w))) (snd (perform e w))
  end.

(** The synchronous stretch up to the next [await]. *)
Fixpoint settle {A : Type} (p : Prog A) (w : World) : Prog A * World :=
  match p with
  | Vis e k =>
      if awaited e then (p, w)
      else settle (k (fst (perform e w))) (snd (perform e w))
  | _ => (p, w)
  end.

(** The awaited call completes and the handler runs on to its next [await]. *)
Definition resume {A : Type} (p : Prog A) (w : World) : Prog A * World :=
  match p with
  | Vis e k => settle (k (fst (perform e w))) (snd (perform e w))
  | _ => (p, w)
  end.

End Semantics.

(** ** [src/routes/auth.ts] *)

Record Response : Type := mkResponse {
  status : Z;
  body : json
}.

(** [res.json(x)] answers with status 200. *)
Definition res_json (b : json) : Response := mkResponse 200 b.

Definition error_body (msg : string) : json := JObj [("error", JStr msg)].

(** Module constants read from the environment when the routes are loaded. *)
Record Config : Type := mkConfig {
  FE : option string;
  SECRET : string
}.

(** [.replace(/\/$/, '')] *)
Fixpoint strip_trailing_slash (s : string) : string :=
  match s with
  | EmptyString => EmptyString
  | String c rest =>
      if Ascii.eqb c "/"%char && String.eqb rest EmptyString then EmptyString
      else String c (strip_trailing_slash rest)
  end.

(** [FE ? `${FE}/reset-password?token=${token}` : null]; the empty string is
    falsy. *)
Definition buildResetLink (cfg : Config) (token : string) : option string :=
  match FE cfg with
  | Some fe =>
      if String.eqb fe EmptyString then None
      else Some (fe +:+ "/reset-password?token=" +:+ token)
  | None => None
  end.

Section Routes.
Context `{Platform}.

Definition RegisterSchema (b : json)
  : list Zod.Issue + (string * string * option string) :=
  match b with
  | JObj _ =>
      match Zod.z_email (field "email" b),
            Zod.z_string_min 6 (field "password" b),
            Zod.z_string_optional (field "name" b) with
      | inr e, inr p, inr n => inr (e, p, n)
      | e, p, n =>
          inl (Zod.issue_at "email" e ++ Zod.issue_at "password" p
               ++ Zod.issue_at "name" n)
      end
  | _ => inl (Zod.not_an_object b)
  end.

Definition LoginSchema (b : json) : list Zod.Issue + (string * string) :=
  match b with
  | JObj _ =>
      match Zod.z_email (field "email" b),
            Zod.z_string_min 6 (field "password" b) with
      | inr e, inr p => inr (e, p)
      | e, p => inl (Zod.issue_at "email" e ++ Zod.issue_at "password" p)
      end
  | _ => inl (Zod.not_an_object b)
  end.

Definition ForgotSchema (b : json) : list Zod.Issue + string :=
  match b with
  | JObj _ =>
      match Zod.z_email (field "email" b) with
      | inr e => inr e
      | e => inl (Zod.issue_at "email" e)
      end
  | _ => inl (Zod.not_an_object b)
  end.

Definition ResetSchema (b : json) : list Zod.Issue + (string * string) :=
  match b with
  | JObj _ =>
      match Zod.z_string_min 10 (field "token" b),
            Zod.z_string_min 6 (field "newPassword" b) with
      | inr t, inr p => inr (t, p)
      | t, p => inl (Zod.issue_at "token" t ++ Zod.issue_at "newPassword" p)
      end
  | _ => inl (Zod.not_an_object b)
  end.

(** The answer that [res.status(400).json(zodToFieldErrors(parsed.error))]
    sends. *)
Definition validation_failed (issues : list Zod.Issue) : Response :=
  mkResponse 400 (match Zod.zodToFieldErrors issues with
                  | Some b => b
                  | None => JUndefined
                  end).

(** [return res.status(400).json(zodToFieldErrors(parsed.error))]: when
    [zodToFieldErrors] throws, nothing is sent and the promise of the handler
    is rejected. *)
Definition invalid (issues : list Zod.Issue) : Prog Response :=
  match Zod.zodToFieldErrors issues with
  | Some _ => Ret (validation_failed issues)
  | None => Throw TypeError
  end.

Definition invalid_credentials : Response :=
  mkResponse 401 (error_body "Invalid credentials").

Definition invalid_reset_token : Response :=
  mkResponse 400 (error_body "Invalid or already used token").

Definition password_updated : Response :=
  res_json (JObj [("message", JStr "Password updated successfully (testing mode)")]).

(** [r.post('/register', ...)] *)
Definition register (b : json) : Prog Response :=
  match RegisterSchema b with
  | inl issues => invalid issues
  | inr (e, password, name) =>
      await hashed <- BcryptHash password 10 ;;
      await r <- UserCreate e hashed name ;;
      match r with
      | inr u =>
          Ret (mkResponse 201 (JObj [("id", JNum (u_id u)); ("email", JStr (u_email u))]))
      | inl _ => Ret (mkResponse 409 (error_body "Email exists"))
      end
  end.

(** [r.post('/login', ...)] *)
Definition login (cfg : Config) (b : json) : Prog Response :=
  match LoginSchema b with
  | inl issues => invalid issues
  | inr (e, password) =>
      await u <- UserFindUnique e ;;
      match u with
      | None => Ret invalid_credentials
      | Some u =>
          await ok <- BcryptCompare password (u_password u) ;;
          if ok then
            call now <- DateNow ;;
            Ret (res_json (JObj [("token",
                   JStr (Jwt.signJwt (SECRET cfg)
                           {| userId := u_id u; email := u_email u |} None now))]))
          else Ret invalid_credentials
      end
  end.

(** [r.post('/forgot-password', ...)] *)
Definition forgotPassword (cfg : Config) (b : json) : Prog Response :=
  match ForgotSchema b with
  | inl issues => invalid issues
  | inr e =>
      await user <- UserFindUnique e ;;
      match user with
      | None =>
          Ret (res_json (JObj [("message",
                 JStr "If the email exists, a reset link will be sent")]))
      | Some user =>
          call token <- RandomBytesHex 32 ;;
          await! _ <- PasswordResetCreate token (u_id user) ;;
          match buildResetLink cfg token with
          | Some _ => Ret (res_json (JObj [("message", JStr "Reset link generated")]))
          | None =>
              Ret (res_json (JObj [
                ("message", JStr "Reset link generated (testing mode)");
                ("token", JStr token);
                ("hint", JStr "POST to /auth/reset-password with { token, newPassword }")]))
          end
      end
  end.

(** [r.post('/reset-password', ...)] *)
Definition resetPassword (b : json) : Prog Response :=
  match ResetSchema b with
  | inl issues => invalid issues
  | inr (token, newPassword) =>
      await record <- PasswordResetFindUnique token ;;
      match record with
      | None => Ret invalid_reset_token
      | Some record =>
          if pr_used record then Ret invalid_reset_token
          else
            await hashed <- BcryptHash newPassword 10 ;;
            await! _ <- UserUpdate (pr_userId record) hashed ;;
            await! _ <- PasswordResetUpdate (pr_id record) true ;;
            Ret password_updated
      end
  end.

(** The four routes mounted under [/auth]. *)
Inductive Request : Type :=
| PostRegister (b : json)
| PostLogin (b : json)
| PostForgotPassword (b : json)
| PostResetPassword (b : json).

Definition route (cfg : Config) (r : Request) : Prog Response :=
  match r with
  | PostRegister b => register b
  | PostLogin b => login cfg b
  | PostForgotPassword b => forgotPassword cfg b
  | PostResetPassword b => resetPassword b
  end.

(** A request served alone. *)
Definition handle (cfg : Config) (r : Request) (w : World)
  : (Rejection + Response) * World :=
  run (route cfg r) w.

End Routes.

(** ** [src/middleware/auth.ts] *)

Record Req : Type := mkReq {
  authorization : option string;   (* req.headers.authorization *)
  req_body : json;
  user : option json               (* req.user *)
}.

Definition no_token : Response := mkResponse 401 (error_body "No token").

Definition invalid_token : Response := mkResponse 401 (error_body "Invalid token").

(** [hdr.slice(n)] *)
Fixpoint slice (n : nat) (s : string) : string :=
  match n, s with
  | O, _ => s
  | S n', String _ rest => slice n' rest
  | S _, EmptyString => EmptyString
  end.

Definition set_user (c : json) (req : Req) : Req :=
  mkReq (authorization req) (req_body req) (Some c).

Section Gate.
Context `{Platform}.

(** [auth(req, res, next)]; [next] is the rest of the route, which for every
    protected route of [src/routes/iklan.ts] is an [async] function, so that
    the call [next()] itself never throws into the [catch]. *)
Definition auth (cfg : Config) (req : Req) (next : Req -> Prog Response)
  : Prog Response :=
  match authorization req with
  | Some hdr =>
      if String.prefix "Bearer " hdr then
        call now <- DateNow ;;
        match Jwt.verifyJwt (SECRET cfg) (slice 7 hdr) now with
        | inr claims => next (set_user claims req)
        | inl _ => Ret invalid_token
        end
      else Ret no_token
  | None => Ret no_token
  end.

End Gate.

(** ** Requests in flight on the event loop *)

Record Sys : Type := mkSys {
  world : World;
  tasks : list (Prog Response)
}.

Inductive Event : Type :=
| Arrive (r : Request)   (* a request comes in and runs to its first await *)
| Resume (i : nat)       (* the call awaited by task [i] completes *)
| Tick (dt : Z).         (* time passes *)

Section Loop.
Context `{Platform}.

Definition step (cfg : Config) (s : Sys) (ev : Event) : Sys :=
  match ev with
  | Arrive r =>
      let pw := settle (route cfg r) (world s) in
      mkSys (snd pw) (tasks s ++ [fst pw])
  | Resume i =>
      match tasks s !! i with
      | Some p =>
          let pw := resume p (world s) in
          mkSys (snd pw) (<[i := fst pw]> (tasks s))
      | None => s
      end
  | Tick dt =>
      mkSys (mkWorld (db (world s)) (clock (world s) + Z.max 0 dt)
                     (draws (world s)))
            (tasks s)
  end.

Definition exec (cfg : Config) (evs : list Event) (s : Sys) : Sys :=
  fold_left (step cfg) evs s.

End Loop.

(** ** [src/server.ts]: what happens before [app.listen] *)

Module Server.

(** [env] is [process.env] once [dotenv/config], the first import, has run.
    Loading [./routes/auth] first evaluates its import [../utils/jwt], then
    the module body, which reads [FRONTEND_URL]. The port, CORS and the
    Swagger mount play no part in what follows and are left out. *)
Definition load_auth_routes (env : gmap string string) : string + Config :=
  match Jwt.load env with
  | inl msg => inl msg
  | inr secret =>
      inr (mkConfig (option_map strip_trailing_slash (env !! "FRONTEND_URL")) secret)
  end.

Inductive Process : Type :=
| Crashed (msg : string)     (* an uncaught error while loading modules *)
| Listening (cfg : Config).  (* [app.listen] was reached *)

(** The imports of [server.ts] are evaluated before its body. *)
Definition main (env : gmap string string) : Process :=
  match load_auth_routes env with
  | inl msg => Crashed msg
  | inr cfg => Listening cfg
  end.

Section Serve.
Context `{Platform}.

(** Only a listening process answers. *)
Definition serve (p : Process) (r : Request) (w : World)
  : option ((Rejection + Response) * World) :=
  match p with
  | Crashed _ => None
  | Listening cfg => Some (handle cfg r w)
  end.

End Serve.

End Server.

(** ** Properties of strings used by the token format *)

Fixpoint no_dot (s : string) : bool :=
  match s with
  | EmptyString => true
  | String c rest => negb (Ascii.eqb c "."%char) && no_dot rest
  end.

(** What an issued token needs of the primitives: the header segment of
    [jwt.sign] decodes to the HS256 header, decoding and parsing undo the
    encoding of the claims, and base64url output is not empty and made of
    base64url characters. *)
Class JwtPrimitives `{Platform} : Prop := {
  header_b64_decoded :
    json_parse (b64_latin1 Jwt.header_b64)
    = Some (JObj [("alg", JStr "HS256"); ("typ", JStr "JWT")]);
  b64json_decode_encode :
    forall c, json_parse (b64_utf8 (b64json_encode (claims_json c)))
              = Some (claims_json c);
  b64json_segment : forall c, Jwt.segment (b64json_encode (claims_json c)) = true;
  hmac_segment : forall k m, Jwt.segment (hmac_sha256_b64 k m) = true
}.

(** ** A small platform on which the model runs *)

Module Sample.

Fixpoint has_at (s : string) : bool :=
  match s with
  | EmptyString => false
  | String c rest => Ascii.eqb c "@"%char || has_at rest
  end.

Fixpoint repeat_char (c : ascii) (n : nat) : string :=
  match n with
  | O => EmptyString
  | S n' => String c (repeat_char c n')
  end.

Definition hex_digit (n : nat) : ascii :=
  match (n mod 16)%nat with
  | 0%nat => "0" | 1%nat => "1" | 2%nat => "2" | 3%nat => "3"
  | 4%nat => "4" | 5%nat => "5" | 6%nat => "6" | 7%nat => "7"
  | 8%nat => "8" | 9%nat => "9" | 10%nat => "a" | 11%nat => "b"
  | 12%nat => "c" | 13%nat => "d" | 14%nat => "e" | _ => "f"
  end%char.

(** Two hexadecimal digits for each character. *)
Fixpoint hex (s : string) : string :=
  match s with
  | EmptyString => EmptyString
  | String c rest =>
      String (hex_digit (nat_of_ascii c / 16))
             (String (hex_digit (nat_of_ascii c)) (hex rest))
  end.

Fixpoint pos_bits (p : positive) : string :=
  match p with
  | xH => EmptyString
  | xO q => String "0"%char (pos_bits q)
  | xI q => String "1"%char (pos_bits q)
  end.

Fixpoint bits_pos (s : string) : option positive :=
  match s with
  | EmptyString => Some xH
  | String c rest =>
      match bits_pos rest with
      | Some q =>
          if Ascii.eqb c "0"%char then Some (xO q)
          else if Ascii.eqb c "1"%char then Some (xI q)
          else None
      | None => None
      end
  end.

Definition claims_tuple (c : JwtClaims) : Z * string * Z * option Z :=
  (c_userId c, c_email c, c_iat c, c_exp c).

Definition tuple_claims (t : Z * string * Z * option Z) : JwtClaims :=
  let '(u, e, i, x) := t in mkJwtClaims u e i x.

(** The claims an object of the shape of [claims_json] holds. *)
Definition as_claims (v : json) : option JwtClaims :=
  match v with
  | JObj [(k1, JNum u); (k2, JStr e); (k3, JNum i)] =>
      if String.eqb k1 "userId" && String.eqb k2 "email" && String.eqb k3 "iat"
      then Some (mkJwtClaims u e i None) else None
  | JObj [(k1, JNum u); (k2, JStr e); (k3, JNum i); (k4, JNum x)] =>
      if String.eqb k1 "userId" && String.eqb k2 "email" && String.eqb k3 "iat"
         && String.eqb k4 "exp"
      then Some (mkJwtClaims u e i (Some x)) else None
  | _ => None
  end.

(** The sample encoding writes claims as a string of binary digits after a
    [1]; it knows the headers of the three HMAC algorithms. *)
Definition sample_encode (v : json) : string :=
  match as_claims v with
  | Some c => String "1"%char (pos_bits (encode (claims_tuple c)))
  | None => "0"
  end.

Definition header_hs384 : string := "eyJhbGciOiJIUzM4NCIsInR5cCI6IkpXVCJ9".

Definition header_hs512 : string := "eyJhbGciOiJIUzUxMiIsInR5cCI6IkpXVCJ9".

Definition jose_header (alg : string) : json :=
  JObj [("alg", JStr alg); ("typ", JStr "JWT")].

Definition sample_parse (s : string) : option json :=
  if String.eqb s Jwt.header_b64 then Some (jose_header "HS256")
  else if String.eqb s header_hs384 then Some (jose_header "HS384")
  else if String.eqb s header_hs512 then Some (jose_header "HS512")
  else match s with
       | String c bits =>
           if Ascii.eqb c "1"%char then
             match bits_pos bits with
             | Some p => option_map (fun t => claims_json (tuple_claims t)) (decode p)
             | None => None
             end
           else None
       | EmptyString => None
       end.

#[export] Instance platform : Platform := {|
  is_email := has_at;
  zod_invalid_type := fun expected _ => "Invalid input: expected " +:+ expected;
  zod_too_small := fun _ => "Too small";
  zod_invalid_email := "Invalid email address";
  bcrypt_salt := fun n => repeat_char "s"%char (S n);
  bcrypt_hash := fun _ salt pw => pw +:+ "$" +:+ salt;
  bcrypt_compare := fun pw h => String.prefix (pw +:+ "$") h;
  random_hex := fun d n => repeat_char (hex_digit d) (2 * n);
  hmac_sha256_b64 := fun k m => String "a"%char (hex (k +:+ "~" +:+ m));
  hmac_sha384_b64 := fun k m => String "b"%char (hex (k +:+ "~" +:+ m));
  hmac_sha512_b64 := fun k m => String "c"%char (hex (k +:+ "~" +:+ m));
  b64json_encode := sample_encode;
  b64_latin1 := fun s => s;
  b64_utf8 := fun s => s;
  json_parse := sample_parse
|}.

Definition cfg_fe : Config := mkConfig (Some "https://kost.example") "s3cr3t".


Definition alice : User := mkUser 1 "a@x.com" "secret1$s" None 0 0.

(** One registered user and one reset token issued for her. *)
Definition store1 : Db.Store :=
  Db.mkStore [alice]
             [mkPasswordReset 1 "0123456789abcdef" 1 None false 0]
             2 2.

Definition world1 : World := mkWorld store1 1000 0.

(** The same user with two tokens whose [expiresAt] lies before the clock. *)
Definition store_expired : Db.Store :=
  Db.mkStore [alice]
             [mkPasswordReset 1 "short1" 1 (Some 5) false 0;
              mkPasswordReset 2 "0123456789abcdef" 1 (Some 5) false 0]
             2 3.

Definition world_expired : World := mkWorld store_expired 1000 0.

Definition reset_body (t p : string) : json :=
  JObj [("token", JStr t); ("newPassword", JStr p)].

Definition email_body (e : string) : json := JObj [("email", JStr e)].

Definition credentials (e p : string) : json :=
  JObj [("email", JStr e); ("password", JStr p)].

Definition bearer (token : string) : Req :=
  mkReq (Some ("Bearer " +:+ token)) JNull None.

(** A protected route that answers with the caller's id. *)
Definition whoami (req : Req) : Prog Response :=
  Ret (res_json (match user req with
                 | Some u => field "userId" u
                 | None => JNull
                 end)).

End Sample.

(** ** Shapes of programs *)

(** No effect that [P] selects is ever performed by the program, whatever the
    earlier effects return. *)
Fixpoint never {A : Type} (P : forall X, Eff X -> bool) (p : Prog A) : Prop :=
  match p with
  | Vis e k => P _ e = false /\ forall x, never P (k x)
  | _ => True
  end.

Definition is_user_lookup (X : Type) (e : Eff X) : bool :=
  match e with
  | UserFindUnique _ => true
  | _ => false
  end.

(** [data: { used: false }] on a reset token. *)
Definition is_unmark (X : Type) (e : Eff X) : bool :=
  match e with
  | PasswordResetUpdate _ used => negb used
  | _ => false
  end.

(** ** Notions used to state the properties *)

(** The row that [findUnique({ where: { token } })] returns is marked used. *)
Definition token_used (t : string) (s : Db.Store) : Prop :=
  exists r, Db.find_reset_by_token t s = Some r /\ pr_used r = true.

(** Every reset token refers to a user row ([PasswordReset_userId_fkey]). *)
Definition fk_ok (s : Db.Store) : bool :=
  forallb (fun r => match Db.find_user_by_id (pr_userId r) s with
                    | Some _ => true
                    | None => false
                    end)
          (Db.passwordResets s).

(** The same store with the [expiresAt] column rewritten row by row. *)
Definition expire_row (f : Z -> option Z) (r : PasswordReset) : PasswordReset :=
  mkPasswordReset (pr_id r) (pr_token r) (pr_userId r) (f (pr_id r)) (pr_used r)
                  (pr_createdAt r).

Definition with_expiry (f : Z -> option Z) (w : World) : World :=
  mkWorld (Db.mkStore (Db.users (db w))
                      (map (expire_row f) (Db.passwordResets (db w)))
                      (Db.user_seq (db w)) (Db.reset_seq (db w)))
          (clock w) (draws w).

(** The world a reset accepted for row [r] leaves behind: the owner's hash
    replaced, the row marked, one salt drawn. *)
Definition after_reset (r : PasswordReset) (hashed : string) (w : World) : World :=
  mkWorld
    (Db.mkStore
       (map (fun u' => if u_id u' =? pr_userId r
                       then Db.set_password hashed (clock w) u' else u')
            (Db.users (db w)))
       (map (fun r' => if pr_id r' =? pr_id r then Db.set_used true r' else r')
            (Db.passwordResets (db w)))
       (Db.user_seq (db w)) (Db.reset_seq (db w)))
    (clock w) (S (draws w)).

Section Sequences.
Context `{Platform}.

(** Requests served one after another. *)
Definition serve_all (cfg : Config) (rs : list Request) (w : World) : World :=
  fold_left (fun w r => snd (handle cfg r w)) rs w.

End Sequences.

Section Waiting.
Context `{Platform}.

(** A reset request in flight that has not got past its token lookup, or
    has been answered 400. *)
Definition waiting_or_refused (b : json) (p : Prog Response) : Prop :=
  p = resetPassword b \/ exists resp, p = Ret resp /\ status resp = 400.

End Waiting.

(** ** The constraints of [migration.sql] as one predicate

    Unique emails ([User_email_key]) and tokens ([PasswordReset_token_key]),
    primary keys handed out by the two sequences, and the foreign key from
    reset tokens to users. *)
Definition store_wf (s : Db.Store) : Prop :=
  List.NoDup (map u_email (Db.users s)) /\
  List.NoDup (map u_id (Db.users s)) /\
  Forall (fun u => u_id u < Db.user_seq s) (Db.users s) /\
  List.NoDup (map pr_token (Db.passwordResets s)) /\
  List.NoDup (map pr_id (Db.passwordResets s)) /\
  Forall (fun r => pr_id r < Db.reset_seq s) (Db.passwordResets s) /\
  fk_ok s = true.

(** The columns no call of the code ever writes after the insert. *)
Definition user_identity (u : User) : Z * string * option string * Z :=
  (u_id u, u_email u, u_name u, u_createdAt u).

Definition reset_identity (r : PasswordReset) : Z * string * Z * option Z * Z :=
  (pr_id r, pr_token r, pr_userId r, pr_expiresAt r, pr_createdAt r).

(** [prisma.user.update] *)
Definition is_user_update (X : Type) (e : Eff X) : bool :=
  match e with
  | UserUpdate _ _ => true
  | _ => false
  end.

(** Any call that can write to the store or draw from the random source. *)
Definition is_write (X : Type) (e : Eff X) : bool :=
  match e with
  | UserCreate _ _ _ | UserUpdate _ _ | PasswordResetCreate _ _
  | PasswordResetUpdate _ _ | BcryptHash _ _ | RandomBytesHex _ => true
  | _ => false
  end.

(** The handler is through after at most [n] awaited calls, whatever they
    return. *)
Fixpoint finishes_within {A : Type} (p : Prog A) (n : nat) : Prop :=
  match p with
  | Vis e k =>
      if awaited e then
        match n with
        | O => False
        | S n' => forall x, finishes_within (k x) n'
        end
      else forall x, finishes_within (k x) n
  | _ => True
  end.

(** What is left in the task list of a handler that is through. *)
Definition done_task {A : Type} (o : Rejection + A) : Prog A :=
  match o with
  | inr a => Ret a
  | inl e => Throw e
  end.

(** What [zodToFieldErrors] files an issue under: [None] is [formErrors]. *)
Definition issue_key (i : Zod.Issue) : option string :=
  match Zod.path i with
  | k :: _ => if String.eqb k EmptyString then None else Some k
  | [] => None
  end.

(** The keys under which [zodToFieldErrors] files the issues, one for each
    issue that has one. *)
Definition issue_keys (issues : list Zod.Issue) : list string :=
  flat_map (fun i => match issue_key i with
                     | Some k => [k]
                     | None => []
                     end) issues.

(** Whether JavaScript may list the key [k] of an object before its key
    [k']: array indices come first, in ascending order. *)
Definition lists_before (k k' : string) : bool :=
  match Zod.array_index k, Zod.array_index k' with
  | Some n, Some n' => (n <=? n')%N
  | Some _, None => true
  | None, Some _ => false
  | None, None => true
  end.

Fixpoint indices_first (ks : list string) : bool :=
  match ks with
  | [] => true
  | k :: rest => forallb (lists_before k) rest && indices_first rest
  end.

(** The key is not an array index. *)
Definition is_name (k : string) : bool :=
  match Zod.array_index k with
  | Some _ => false
  | None => true
  end.

(** The keys of [ks] not in [seen], each once, in the order of their first
    appearance. *)
Fixpoint distinct (seen ks : list string) : list string :=
  match ks with
  | [] => []
  | k :: rest =>
      if existsb (String.eqb k) seen then distinct seen rest
      else k :: distinct (k :: seen) rest
  end.

(** The issue is not filed under a name that [fieldErrors] inherits. *)
Definition files (i : Zod.Issue) : bool :=
  match issue_key i with
  | Some k => negb (Zod.inherited k)
  | None => true
  end.

Definition filed_under (k : option string) (i : Zod.Issue) : bool :=
  match issue_key i, k with
  | Some a, Some b => String.eqb a b
  | None, None => true
  | _, _ => false
  end.

(** ** [src/routes/iklan.ts] *)

Module Iklan.

(** The white space [String.prototype.trim] strips, among the code units
    below 256: tab, line feed, vertical tab, form feed, carriage return,
    space and no-break space. *)
Definition is_space (c : ascii) : bool :=
  match nat_of_ascii c with
  | 9%nat | 10%nat | 11%nat | 12%nat | 13%nat | 32%nat | 160%nat => true
  | _ => false
  end.

Fixpoint trim_start (s : string) : string :=
  match s with
  | EmptyString => EmptyString
  | String c rest => if is_space c then trim_start rest else s
  end.

Fixpoint trim_end (s : string) : string :=
  match s with
  | EmptyString => EmptyString
  | String c rest =>
      match trim_end rest with
      | EmptyString => if is_space c then EmptyString else String c EmptyString
      | rest' => String c rest'
      end
  end.

(** [s.trim()] *)
Definition trim (s : string) : string := trim_end (trim_start s).

(** [s.split(',')] *)
Fixpoint split_comma (s : string) : list string :=
  match s with
  | EmptyString => [EmptyString]
  | String c rest =>
      if Ascii.eqb c ","%char then EmptyString :: split_comma rest
      else match split_comma rest with
           | x :: xs => String c x :: xs
           | [] => [String c EmptyString]
           end
  end.

(** [Boolean(s)] on a string: only the empty string is falsy. *)
Definition truthy (s : string) : bool := negb (String.eqb s EmptyString).

(** [a.join(',')] *)
Definition join_comma (l : list string) : string := String.concat "," l.

(** [toCsv]: [a?.length ? a.map(trim).filter(Boolean).join(',') : null] *)
Definition toCsv (a : option (list string)) : option string :=
  match a with
  | Some ((_ :: _) as l) => Some (join_comma (List.filter truthy (map trim l)))
  | _ => None
  end.

(** [fromCsv]: [!s ? [] : s.split(',').map(trim).filter(Boolean)] *)
Definition fromCsv (s : option string) : list string :=
  match s with
  | Some ((String _ _) as s') => List.filter truthy (map trim (split_comma s'))
  | _ => []
  end.

(** A row of the [Iklan] table. *)
Record Row : Type := mkRow {
  id : Z;
  title : string;
  body : string;
  price : Z;
  published : bool;
  addressLine : option string;
  city : option string;
  province : option string;
  postalCode : option string;
  areaSqm : option Z;
  rooms : option Z;
  bathrooms : option Z;
  facilitiesCsv : option string;
  ownerId : Z;
  createdAt : Z;
  updatedAt : Z
}.

Definition nullable_str (o : option string) : json :=
  match o with
  | Some s => JStr s
  | None => JNull
  end.

Definition nullable_num (o : option Z) : json :=
  match o with
  | Some n => JNum n
  | None => JNull
  end.

Definition not_found : Response := mkResponse 404 (error_body "Not found").

(** [prisma.iklan.findUnique({ where: { id } })] *)
Definition findUnique (i : Z) (tbl : list Row) : option Row :=
  find (fun a => id a =? i) tbl.

(** [prisma.iklan.delete({ where: { id } })] *)
Definition delete (i : Z) (tbl : list Row) : list Row :=
  List.filter (fun a => negb (id a =? i)) tbl.

(** How a handler of this file ends: with an answer, or with the
    [TypeError] of [req.user!.userId] on a request whose [req.user] is
    [undefined] or [null]. *)
Inductive Outcome : Type :=
| Answered (r : Response)
| TypeError.

Section Handlers.

(** [JSON.stringify] of a [Date]: its [toISOString()]. *)
Variable toISOString : Z -> string.

(** [r.get('/:id', ...)], with [i] the integer [Number(req.params.id)]. *)
Definition get_by_id (i : Z) (tbl : list Row) : Response :=
  match findUnique i tbl with
  | Some ad =>
      if published ad then
        res_json (JObj [
          ("id", JNum (id ad));
          ("title", JStr (title ad));
          ("body", JStr (body ad));
          ("price", JNum (price ad));
          ("published", JBool (published ad));
          ("location", JObj [
             ("addressLine", nullable_str (addressLine ad));
             ("city", nullable_str (city ad));
             ("province", nullable_str (province ad));
             ("postalCode", nullable_str (postalCode ad)) ]);
          ("property", JObj [
             ("areaSqm", nullable_num (areaSqm ad));
             ("rooms", nullable_num (rooms ad));
             ("bathrooms", nullable_num (bathrooms ad));
             ("facilities", JArr (map JStr (fromCsv (facilitiesCsv ad)))) ]);
          ("createdAt", JStr (toISOString (createdAt ad))) ])
      else not_found
  | None => not_found
  end.

End Handlers.

(** [n === v] for a number [n] *)
Definition is_number (n : Z) (v : json) : bool :=
  match v with
  | JNum m => n =? m
  | _ => false
  end.

(** [r.delete('/:id', auth, ...)], the handler behind the gate, with [i] the
    integer [Number(req.params.id)]. *)
Definition delete_by_id (req : Req) (i : Z) (tbl : list Row)
  : Outcome * list Row :=
  match findUnique i tbl with
  | None => (Answered not_found, tbl)
  | Some own =>
      match user req with
      | None | Some JUndefined | Some JNull => (TypeError, tbl)
      | Some u =>
          if negb (is_number (ownerId own) (field "userId" u))
          then (Answered not_found, tbl)
          else (Answered (mkResponse 204 JUndefined), delete i tbl)
      end
  end.

End Iklan.

(** ** More sample data *)

Module Cases.

Definition bob : User := mkUser 2 "b@x.com" "hunter22$t" (Some "Bob") 5 5.

(** Two users, a used and an unused token. *)
Definition store2 : Db.Store :=
  Db.mkStore [Sample.alice; bob]
             [mkPasswordReset 1 "0123456789abcdef" 1 None true 0;
              mkPasswordReset 2 "fedcba9876543210" 2 None false 7]
             3 3.

Definition world2 : World := mkWorld store2 2000 3.

Definition register_body (e p : string) (n : string) : json :=
  JObj [("email", JStr e); ("password", JStr p); ("name", JStr n)].

Definition as_user (uid : Z) : Req :=
  mkReq None JNull (Some (claims_json (mkJwtClaims uid "a@x.com" 1 (Some 604801)))).

Definition kost (i owner : Z) (pub : bool) (csv : option string) : Iklan.Row :=
  Iklan.mkRow i "Kost" "Dekat kampus" 750000 pub None (Some "Bandung") None None
              (Some 12) None None csv owner 10 10.

Definition ads : list Iklan.Row :=
  [ kost 1 1 true (Some "wifi, ac,,kasur "); kost 2 2 false None; kost 3 2 true None ].

(** A protected route that answers with the caller's id. *)
Definition whoami_id (req : Req) : Prog Response :=
  Ret (res_json (match user req with
                 | Some u => field "userId" u
                 | None => JNull
                 end)).

(** The next random token of the sample platform is already stored. *)
Definition world_collision : World :=
  mkWorld (Db.mkStore [Sample.alice; bob]
             [mkPasswordReset 1 (@random_hex Sample.platform 0 32) 1 None true 0;
              mkPasswordReset 2 "fedcba9876543210" 2 None false 7]
             3 3)
          2000 0.

End Cases.

(** ** Notions for the facilities column *)

Fixpoint no_comma (s : string) : bool :=
  match s with
  | EmptyString => true
  | String c rest => negb (Ascii.eqb c ","%char) && no_comma rest
  end.

(** The string does not begin with white space. *)
Definition clean_start (s : string) : Prop :=
  match s with
  | EmptyString => True
  | String c _ => Iklan.is_space c = false
  end.

(** The list a caller passed, or none. *)
Definition given (a : option (list string)) : list string :=
  match a with
  | Some l => l
  | None => []
  end.

(** ** Input validation *)

Section Validation.
Context `{Platform}.

Lemma z_string_min_short n s :
  (String.length s < n)%nat ->
  Zod.z_string_min n (JStr s) = inl (zod_too_small n).
Proof.
  intros Hlt. unfold Zod.z_string_min.
  destruct (Nat.leb_spec n (String.length s)) as [Hle|_]; [lia | reflexivity].
Qed.

Lemma z_string_min_inr n v s :
  Zod.z_string_min n v = inr s -> v = JStr s /\ (n <= String.length s)%nat.
Proof.
  unfold Zod.z_string_min. destruct v; try discriminate.
  destruct (Nat.leb_spec n (String.length s0)); [|discriminate].
  intros [= ->]. split; [reflexivity | assumption].
Qed.

Lemma z_email_inr v s : Zod.z_email v = inr s -> v = JStr s /\ is_email s = true.
Proof.
  unfold Zod.z_email. destruct v; try discriminate.
  destruct (is_email s0) eqn:E; [|discriminate].
  intros [= ->]. split; [reflexivity | assumption].
Qed.

Lemma field_JStr_obj k b s : field k b = JStr s -> exists fs, b = JObj fs.
Proof. destruct b; try discriminate. eauto. Qed.

(** What a request accepted by [LoginSchema] looks like. *)
Lemma LoginSchema_inr b e p :
  LoginSchema b = inr (e, p) ->
  field "email" b = JStr e /\ field "password" b = JStr p /\
  is_email e = true /\ (6 <= String.length p)%nat.
Proof.
  unfold LoginSchema. destruct b; try discriminate.
  destruct (Zod.z_email _) as [m|e'] eqn:He;
    destruct (Zod.z_string_min _ _) as [m'|p'] eqn:Hp; try discriminate.
  intros [= -> ->].
  apply z_email_inr in He as [He1 He2].
  apply z_string_min_inr in Hp as [Hp1 Hp2]. auto.
Qed.

Lemma ResetSchema_inr b t p :
  ResetSchema b = inr (t, p) ->
  field "token" b = JStr t /\ field "newPassword" b = JStr p /\
  (10 <= String.length t)%nat /\ (6 <= String.length p)%nat.
Proof.
  unfold ResetSchema. destruct b; try discriminate.
  destruct (Zod.z_string_min 10 _) as [m|t'] eqn:Ht;
    destruct (Zod.z_string_min 6 _) as [m'|p'] eqn:Hp; try discriminate.
  intros [= -> ->].
  apply z_string_min_inr in Ht as [Ht1 Ht2].
  apply z_string_min_inr in Hp as [Hp1 Hp2]. auto.
Qed.

Lemma RegisterSchema_inr b e p n :
  RegisterSchema b = inr (e, p, n) ->
  field "email" b = JStr e /\ field "password" b = JStr p /\
  is_email e = true /\ (6 <= String.length p)%nat.
Proof.
  unfold RegisterSchema. destruct b; try discriminate.
  destruct (Zod.z_email _) as [m|e'] eqn:He;
    destruct (Zod.z_string_min _ _) as [m'|p'] eqn:Hp;
    destruct (Zod.z_string_optional _) as [m''|n'] eqn:Hn; try discriminate.
  intros [= -> -> ->].
  apply z_email_inr in He as [He1 He2].
  apply z_string_min_inr in Hp as [Hp1 Hp2]. auto.
Qed.

(** A password shorter than six code units always yields an issue on the
    [password] field. *)
Lemma LoginSchema_short_password b p :
  field "password" b = JStr p -> (String.length p < 6)%nat ->
  exists issues r,
    LoginSchema b = inl issues /\
    In (Zod.mkIssue ["password"] (zod_too_small 6)) issues /\
    Zod.collect issues [] [] = Some r /\
    assoc "password" (snd r) = Some [zod_too_small 6].
Proof.
  intros Hf Hlen. destruct (field_JStr_obj _ _ _ Hf) as [fs ->].
  unfold LoginSchema. rewrite Hf, (z_string_min_short 6 p Hlen).
  destruct (Zod.z_email _) as [m|e];
    eexists; eexists; (split; [reflexivity|]); split; simpl; auto.
Qed.

(** [zodToFieldErrors] throws only on a key that [fieldErrors] inherits. *)
Lemma collect_files (issues : list Zod.Issue) (form : list string)
  (fe : list (string * list string)) :
  forallb files issues = true -> exists r, Zod.collect issues form fe = Some r.
Proof.
  revert form fe. induction issues as [|i issues IH]; intros form fe; simpl; [eauto|].
  intros Hall. apply andb_prop in Hall as [Hi Hall].
  unfold files, issue_key in Hi.
  destruct (Zod.path i) as [|k ?]; [apply IH, Hall|].
  destruct (String.eqb k EmptyString); [apply IH, Hall|].
  unfold Zod.push_field. destruct (assoc k fe); [apply IH, Hall|].
  apply negb_true_iff in Hi. rewrite Hi. apply IH, Hall.
Qed.

Lemma invalid_files (issues : list Zod.Issue) :
  forallb files issues = true -> invalid issues = Ret (validation_failed issues).
Proof.
  intros Hall. unfold invalid, Zod.zodToFieldErrors.
  destruct (collect_files issues [] [] Hall) as [[form fe] ->]. reflexivity.
Qed.

(** None of the keys of the four schemas is inherited, so that a body they
    refuse is always answered. *)
Lemma RegisterSchema_files b issues :
  RegisterSchema b = inl issues -> forallb files issues = true.
Proof.
  unfold RegisterSchema. destruct b; try (intros [= <-]; reflexivity).
  destruct (Zod.z_email _) as [?|?]; destruct (Zod.z_string_min _ _) as [?|?];
    destruct (Zod.z_string_optional _) as [?|?]; intros [= <-]; reflexivity.
Qed.

Lemma LoginSchema_files b issues :
  LoginSchema b = inl issues -> forallb files issues = true.
Proof.
  unfold LoginSchema. destruct b; try (intros [= <-]; reflexivity).
  destruct (Zod.z_email _) as [?|?]; destruct (Zod.z_string_min _ _) as [?|?];
    intros [= <-]; reflexivity.
Qed.

Lemma ForgotSchema_files b issues :
  ForgotSchema b = inl issues -> forallb files issues = true.
Proof.
  unfold ForgotSchema. destruct b; try (intros [= <-]; reflexivity).
  destruct (Zod.z_email _) as [?|?]; intros [= <-]; reflexivity.
Qed.

Lemma ResetSchema_files b issues :
  ResetSchema b = inl issues -> forallb files issues = true.
Proof.
  unfold ResetSchema. destruct b; try (intros [= <-]; reflexivity).
  destruct (Zod.z_string_min 10 _) as [?|?]; destruct (Zod.z_string_min 6 _) as [?|?];
    intros [= <-]; reflexivity.
Qed.

Lemma register_invalid b issues :
  RegisterSchema b = inl issues -> register b = Ret (validation_failed issues).
Proof.
  intros Hv. unfold register. rewrite Hv. apply invalid_files, (RegisterSchema_files b), Hv.
Qed.

Lemma login_invalid cfg b issues :
  LoginSchema b = inl issues -> login cfg b = Ret (validation_failed issues).
Proof.
  intros Hv. unfold login. rewrite Hv. apply invalid_files, (LoginSchema_files b), Hv.
Qed.

Lemma forgotPassword_invalid cfg b issues :
  ForgotSchema b = inl issues -> forgotPassword cfg b = Ret (validation_failed issues).
Proof.
  intros Hv. unfold forgotPassword. rewrite Hv.
  apply invalid_files, (ForgotSchema_files b), Hv.
Qed.

Lemma resetPassword_invalid b issues :
  ResetSchema b = inl issues -> resetPassword b = Ret (validation_failed issues).
Proof.
  intros Hv. unfold resetPassword. rewrite Hv.
  apply invalid_files, (ResetSchema_files b), Hv.
Qed.

(** Whatever the issues, [invalid] is over at once. *)
Lemma invalid_cases (issues : list Zod.Issue) :
  invalid issues = Ret (validation_failed issues) \/ invalid issues = Throw TypeError.
Proof. unfold invalid. destruct (Zod.zodToFieldErrors issues); auto. Qed.

End Validation.

(** Splits the goal on the two ways a refused body ends. *)
Ltac invalid_branch :=
  match goal with
  | |- context [invalid ?l] => destruct (invalid_cases l) as [-> | ->]
  end.

(** ** Login *)

Section Login.
Context `{Platform}.

(** C10: [login] checks the password length (at least 6) before any
    credential lookup or hash comparison. For every login request whose
    password is a string shorter than 6, the handler performs no effect at
    all and answers 400 with the structured validation body (its
    [fieldErrors.password] lists the too-small message), never the generic
    401 invalid-credentials response, whatever the store holds. *)
Theorem login_short_password_rejected_by_validation (cfg : Config) (b : json) (p : string) :
  field "password" b = JStr p ->
  (String.length p < 6)%nat ->
  exists issues,
    login cfg b = Ret (validation_failed issues) /\
    (forall w, handle cfg (PostLogin b) w = (inr (validation_failed issues), w)) /\
    status (validation_failed issues) = 400 /\
    field "message" (body (validation_failed issues)) = JStr "Validation failed" /\
    field "password" (field "fieldErrors" (body (validation_failed issues)))
      = JArr [JStr (zod_too_small 6)] /\
    validation_failed issues <> invalid_credentials.
Proof.
  intros Hf Hlen. destruct (field_JStr_obj _ _ _ Hf) as [fs ->].
  pose proof (login_invalid cfg (JObj fs)) as Hlogin.
  unfold LoginSchema in Hlogin.
  rewrite Hf, (z_string_min_short 6 p Hlen) in Hlogin.
  destruct (Zod.z_email (field "email" (JObj fs))) as [m|e];
    eexists; (split; [apply Hlogin; reflexivity|]);
    (split; [intros w; unfold handle; simpl route; rewrite (Hlogin _ eq_refl);
             reflexivity|]);
    repeat split; try reflexivity; discriminate.
Qed.

(** C4: for every login request that passes input validation, the answer
    when no user has the given email and the answer when a user has it but
    the stored hash does not verify the password are the same response:
    status 401 with body [{ error: 'Invalid credentials' }]. *)
Theorem login_failures_indistinguishable (cfg : Config) (b : json) (e p : string)
  (w_absent w_wrong : World) (u : User) :
  LoginSchema b = inr (e, p) ->
  Db.find_user_by_email e (db w_absent) = None ->
  Db.find_user_by_email e (db w_wrong) = Some u ->
  bcrypt_compare p (u_password u) = false ->
  fst (handle cfg (PostLogin b) w_absent) = fst (handle cfg (PostLogin b) w_wrong) /\
  fst (handle cfg (PostLogin b) w_absent)
    = inr (mkResponse 401 (JObj [("error", JStr "Invalid credentials")])).
Proof.
  intros Hv Habsent Hfound Hcmp.
  unfold handle. simpl route. unfold login. rewrite Hv. simpl.
  rewrite Habsent, Hfound. simpl. rewrite Hcmp. simpl. split; reflexivity.
Qed.

End Login.

(** ** Session tokens *)

Lemma split_dot_no_dot (s : string) : no_dot s = true -> Jwt.split_dot s = [s].
Proof.
  induction s as [|c s IH]; simpl; [reflexivity|].
  intros Hnd. apply andb_prop in Hnd as [Hc Hs].
  apply negb_true_iff in Hc. rewrite Hc, (IH Hs). reflexivity.
Qed.

Lemma append_cons (x : ascii) (a b : string) :
  String x a +:+ b = String x (a +:+ b).
Proof. reflexivity. Qed.

Lemma split_dot_segment (a b : string) :
  no_dot a = true -> Jwt.split_dot (a +:+ "." +:+ b) = a :: Jwt.split_dot b.
Proof.
  induction a as [|c a IH]; [reflexivity|].
  intros Hnd. simpl in Hnd. apply andb_prop in Hnd as [Hc Ha].
  apply negb_true_iff in Hc. rewrite append_cons. simpl.
  rewrite Hc, (IH Ha). reflexivity.
Qed.

Lemma append_assoc (a b c : string) : (a +:+ b) +:+ c = a +:+ (b +:+ c).
Proof.
  induction a as [|x a IH]; [reflexivity|].
  rewrite !append_cons. f_equal. exact IH.
Qed.

Lemma b64url_no_dot (s : string) : Jwt.b64url s = true -> no_dot s = true.
Proof.
  induction s as [|c s IH]; simpl; [reflexivity|].
  intros Hb. apply andb_prop in Hb as [Hc Hs]. rewrite (IH Hs), andb_true_r.
  destruct (Ascii.eqb_spec c "."%char) as [->|_]; [discriminate Hc | reflexivity].
Qed.

Lemma segment_b64url (s : string) : Jwt.segment s = true -> Jwt.b64url s = true.
Proof. destruct s; [discriminate | trivial]. Qed.

Lemma segment_no_dot (s : string) : Jwt.segment s = true -> no_dot s = true.
Proof. intros Hs. apply b64url_no_dot, segment_b64url, Hs. Qed.

Lemma segment_not_empty (s : string) :
  Jwt.segment s = true -> String.eqb s EmptyString = false.
Proof. destruct s; [discriminate | reflexivity]. Qed.

Lemma split_dot_three (h p s : string) :
  no_dot h = true -> no_dot p = true -> no_dot s = true ->
  Jwt.split_dot (h +:+ "." +:+ p +:+ "." +:+ s) = [h; p; s].
Proof.
  intros Hh Hp Hs.
  rewrite (split_dot_segment _ _ Hh), (split_dot_segment _ _ Hp), (split_dot_no_dot _ Hs).
  reflexivity.
Qed.

Section Tokens.
Context `{Platform}.

(** What [verify] does with a token of three well-formed segments whose
    header is an object with [typ: 'JWT'], whose payload is JSON and whose
    signature is the HMAC that the header names: only the times are left to
    check. This holds for HS384 and HS512 as for HS256. *)
Lemma verify_signed (secret h p s : string) (header v : json)
  (hmac : string -> string -> string) (now : Z) :
  Jwt.segment h = true -> Jwt.segment p = true -> Jwt.segment s = true ->
  json_parse (b64_latin1 h) = Some header -> Jwt.truthy header = true ->
  Jwt.is_string "JWT" (field "typ" header) = true ->
  json_parse (b64_utf8 p) = Some v ->
  Jwt.hmac_b64 (field "alg" header) = Some hmac ->
  s = hmac secret (h +:+ "." +:+ p) ->
  Jwt.verify (h +:+ "." +:+ p +:+ "." +:+ s) secret now
  = Jwt.check_times (Jwt.reparse v) (now / 1000).
Proof.
  intros Hh Hp Hs Hhdr Htr Htyp Hv Halg Hsig. unfold Jwt.verify.
  pose proof (split_dot_three h p s (segment_no_dot _ Hh) (segment_no_dot _ Hp)
                (segment_no_dot _ Hs)) as Hsplit.
  destruct (String.eqb_spec (h +:+ "." +:+ p +:+ "." +:+ s) EmptyString) as [He|_].
  { rewrite He in Hsplit. discriminate. }
  rewrite Hsplit. unfold Jwt.decode, Jwt.valid_jws.
  rewrite Hh, Hp, (segment_b64url _ Hs), Hhdr, Htr, Htyp, Hv. cbn [negb andb].
  rewrite (segment_not_empty _ Hs), Halg, <- Hsig, String.eqb_refl. reflexivity.
Qed.

Context `{!JwtPrimitives}.

Lemma check_times_claims (c : JwtClaims) (ts : Z) :
  Jwt.check_times (claims_json c) ts
  = match c_exp c with
    | Some e => if e <=? ts then inl Jwt.TokenExpiredError else inr (claims_json c)
    | None => inr (claims_json c)
    end.
Proof. destruct c as [u e i [x|]]; reflexivity. Qed.

(** The token [jwt.sign] makes is taken by [jwt.verify] under the same
    secret until it expires. *)
Lemma verify_sign (secret : string) (p : JwtPayload) (ttl : option Z) (t0 t1 : Z) :
  Jwt.verify (Jwt.sign p secret ttl t0) secret t1
  = match ttl with
    | Some d =>
        if t0 / 1000 + d <=? t1 / 1000 then inl Jwt.TokenExpiredError
        else inr (claims_json
                    (mkJwtClaims (userId p) (email p) (t0 / 1000) (Some (t0 / 1000 + d))))
    | None => inr (claims_json (mkJwtClaims (userId p) (email p) (t0 / 1000) None))
    end.
Proof.
  unfold Jwt.sign. cbv zeta. rewrite !append_assoc.
  set (c := mkJwtClaims (userId p) (email p) (t0 / 1000)
                        (option_map (fun d => t0 / 1000 + d) ttl)).
  rewrite (verify_signed secret Jwt.header_b64 (b64json_encode (claims_json c)) _
             (JObj [("alg", JStr "HS256"); ("typ", JStr "JWT")]) (claims_json c)
             hmac_sha256_b64 t1).
  - change (Jwt.reparse (claims_json c)) with (claims_json c).
    rewrite check_times_claims. subst c. destruct ttl; reflexivity.
  - reflexivity.
  - apply b64json_segment.
  - apply hmac_segment.
  - apply header_b64_decoded.
  - reflexivity.
  - reflexivity.
  - apply b64json_decode_encode.
  - reflexivity.
  - reflexivity.
Qed.

Lemma hmac_b64_cases (alg : json) (hmac : string -> string -> string) :
  Jwt.hmac_b64 alg = Some hmac ->
  (alg = JStr "HS256" /\ hmac = hmac_sha256_b64) \/
  (alg = JStr "HS384" /\ hmac = hmac_sha384_b64) \/
  (alg = JStr "HS512" /\ hmac = hmac_sha512_b64).
Proof.
  unfold Jwt.hmac_b64, Jwt.is_string. destruct alg as [| |b|n|a|xs|fs]; try discriminate.
  destruct (String.eqb_spec a "HS256") as [->|_]; [intros [= <-]; auto|].
  destruct (String.eqb_spec a "HS384") as [->|_]; [intros [= <-]; auto|].
  destruct (String.eqb_spec a "HS512") as [->|_]; [intros [= <-]; auto|].
  discriminate.
Qed.

Lemma check_exp_inr (payload v : json) (ts : Z) :
  Jwt.check_exp payload ts = inr v ->
  v = payload /\
  (field "exp" v = JUndefined \/ exists e, field "exp" v = JNum e /\ ts < e).
Proof.
  unfold Jwt.check_exp. destruct (field "exp" payload) as [| |b|e|a|xs|fs] eqn:He;
    try discriminate.
  - intros [= <-]. auto.
  - destruct (Z.leb_spec e ts); [discriminate|]. intros [= <-]. split; [reflexivity|].
    right. exists e. auto.
Qed.

Lemma check_times_inr (payload v : json) (ts : Z) :
  Jwt.check_times payload ts = inr v ->
  v = payload /\
  (field "exp" v = JUndefined \/ exists e, field "exp" v = JNum e /\ ts < e).
Proof.
  unfold Jwt.check_times. intros Hc.
  assert (Hin : match field "nbf" payload with
                | JUndefined => Jwt.check_exp payload ts
                | JNum n => if ts <? n then inl Jwt.NotBeforeError
                            else Jwt.check_exp payload ts
                | _ => inl (Jwt.JsonWebTokenError "invalid nbf value")
                end = inr v).
  { destruct payload; try exact Hc. discriminate. }
  clear Hc. destruct (field "nbf" payload) as [| |b|n|a|xs|fs]; try discriminate.
  - apply check_exp_inr, Hin.
  - destruct (ts <? n); [discriminate|]. apply check_exp_inr, Hin.
Qed.

(** C6: for every payload [{userId, email}] and issue time, [verifyJwt] of
    the token [signJwt] issued, at any time before the seven days
    (604800 s) have elapsed, returns the claims whose [userId] and [email]
    are the issued ones; from the expiry on it fails. [verifyJwt] fails for
    every token that does not have exactly three segments. And whenever it
    returns a payload, the header of the token names one of the HMAC
    algorithms HS256, HS384 and HS512, the signature segment is that HMAC of
    the first two segments under the secret, and the payload has no [exp] or
    one that is after the current time: a token with another signature or an
    elapsed expiry fails. *)
Theorem verifyJwt_signJwt_roundtrip_and_rejection
  (secret : string) (p : JwtPayload) (t0 : Z) :
  Jwt.seven_days = 604800 /\
  (forall t1, t1 / 1000 < t0 / 1000 + Jwt.seven_days ->
     exists c, Jwt.verifyJwt secret (Jwt.signJwt secret p None t0) t1
               = inr (claims_json c) /\
               claims_payload c = p /\ c_iat c = t0 / 1000 /\
               c_exp c = Some (t0 / 1000 + Jwt.seven_days)) /\
  (forall t1, t0 / 1000 + Jwt.seven_days <= t1 / 1000 ->
     Jwt.verifyJwt secret (Jwt.signJwt secret p None t0) t1
       = inl Jwt.TokenExpiredError) /\
  (forall tok now, (forall h pl s, Jwt.split_dot tok <> [h; pl; s]) ->
     exists msg, Jwt.verifyJwt secret tok now = inl (Jwt.JsonWebTokenError msg)) /\
  (forall tok now v, Jwt.verifyJwt secret tok now = inr v ->
     exists h pl s header alg hmac,
       Jwt.split_dot tok = [h; pl; s] /\
       json_parse (b64_latin1 h) = Some header /\
       field "alg" header = JStr alg /\
       ((alg = "HS256" /\ hmac = hmac_sha256_b64) \/
        (alg = "HS384" /\ hmac = hmac_sha384_b64) \/
        (alg = "HS512" /\ hmac = hmac_sha512_b64)) /\
       s = hmac secret (h +:+ "." +:+ pl) /\
       (field "exp" v = JUndefined \/
        exists e, field "exp" v = JNum e /\ now / 1000 < e)).
Proof.
  split; [reflexivity|].
  assert (Hv : forall t1,
    Jwt.verifyJwt secret (Jwt.signJwt secret p None t0) t1 =
    if t0 / 1000 + Jwt.seven_days <=? t1 / 1000 then inl Jwt.TokenExpiredError
    else inr (claims_json (mkJwtClaims (userId p) (email p) (t0 / 1000)
                                       (Some (t0 / 1000 + Jwt.seven_days))))).
  { intros t1. unfold Jwt.verifyJwt, Jwt.signJwt. rewrite verify_sign. reflexivity. }
  split; [|split; [|split]].
  - intros t1 Hlt. rewrite Hv.
    destruct (Z.leb_spec (t0 / 1000 + Jwt.seven_days) (t1 / 1000)); [lia|].
    eexists. split; [reflexivity|]. destruct p; repeat split.
  - intros t1 Hge. rewrite Hv.
    destruct (Z.leb_spec (t0 / 1000 + Jwt.seven_days) (t1 / 1000)); [reflexivity|lia].
  - intros tok now Hbad. unfold Jwt.verifyJwt, Jwt.verify.
    destruct (String.eqb tok EmptyString); [eauto|].
    destruct (Jwt.split_dot tok) as [|h [|pl [|s [|x l]]]]; eauto.
    exfalso. eapply Hbad. reflexivity.
  - intros tok now v. unfold Jwt.verifyJwt, Jwt.verify.
    destruct (String.eqb tok EmptyString); [discriminate|].
    destruct (Jwt.split_dot tok) as [|h [|pl [|s [|x l]]]]; try discriminate.
    unfold Jwt.decode. destruct (negb (Jwt.valid_jws h pl s)); [discriminate|].
    destruct (json_parse (b64_latin1 h)) as [header|] eqn:Hhdr; [|discriminate].
    destruct (negb (Jwt.truthy header)); [discriminate|].
    assert (Hrest : forall payload,
      (if String.eqb s EmptyString
       then inl (Jwt.JsonWebTokenError "jwt signature is required")
       else match Jwt.hmac_b64 (field "alg" header) with
            | Some hmac =>
                if String.eqb s (hmac secret (h +:+ "." +:+ pl))
                then Jwt.check_times payload (now / 1000)
                else inl (Jwt.JsonWebTokenError "invalid signature")
            | None => inl (Jwt.JsonWebTokenError "invalid algorithm")
            end) = inr v ->
      exists h0 pl0 s0 header0 alg hmac,
        [h; pl; s] = [h0; pl0; s0] /\
        json_parse (b64_latin1 h0) = Some header0 /\
        field "alg" header0 = JStr alg /\
        ((alg = "HS256" /\ hmac = hmac_sha256_b64) \/
         (alg = "HS384" /\ hmac = hmac_sha384_b64) \/
         (alg = "HS512" /\ hmac = hmac_sha512_b64)) /\
        s0 = hmac secret (h0 +:+ "." +:+ pl0) /\
        (field "exp" v = JUndefined \/
         exists e, field "exp" v = JNum e /\ now / 1000 < e)).
    { intros payload. destruct (String.eqb s EmptyString); [discriminate|].
      destruct (Jwt.hmac_b64 (field "alg" header)) as [hmac|] eqn:Halg; [|discriminate].
      destruct (String.eqb_spec s (hmac secret (h +:+ "." +:+ pl))) as [Hs|_];
        [|discriminate].
      intros Hc. apply check_times_inr in Hc as [_ Hexp].
      destruct (hmac_b64_cases _ _ Halg) as [[Ha ->]|[[Ha ->]|[Ha ->]]];
        eexists h, pl, s, header, _, _;
        (split; [reflexivity|]); (split; [exact Hhdr|]); (split; [exact Ha|]);
        (split; [|split; [exact Hs | exact Hexp]]); auto. }
    destruct (Jwt.is_string "JWT" (field "typ" header)).
    + destruct (json_parse (b64_utf8 pl)) as [v0|]; [|discriminate]. apply Hrest.
    + apply Hrest.
Qed.

End Tokens.

(** ** The request gate *)

Section GateProperties.
Context `{Platform}.

(** C9: the gate answers 401 [{ error: 'No token' }] when the
    [Authorization] header is absent or does not start with ['Bearer '], and
    401 [{ error: 'Invalid token' }] when [verifyJwt] fails on the rest of the
    header; in both cases the answer is the same for every downstream handler,
    which is not run. Otherwise the downstream handler runs on the request
    with the verified claims attached as [req.user]. *)
Theorem auth_gate (cfg : Config) (req : Req) (next : Req -> Prog Response) (w : World) :
  (authorization req = None -> auth cfg req next = Ret no_token) /\
  (forall hdr, authorization req = Some hdr -> String.prefix "Bearer " hdr = false ->
     auth cfg req next = Ret no_token) /\
  (forall hdr err, authorization req = Some hdr -> String.prefix "Bearer " hdr = true ->
     Jwt.verifyJwt (SECRET cfg) (slice 7 hdr) (clock w) = inl err ->
     run (auth cfg req next) w = (inr invalid_token, w) /\
     settle (auth cfg req next) w = (Ret invalid_token, w)) /\
  (forall hdr c, authorization req = Some hdr -> String.prefix "Bearer " hdr = true ->
     Jwt.verifyJwt (SECRET cfg) (slice 7 hdr) (clock w) = inr c ->
     run (auth cfg req next) w = run (next (set_user c req)) w /\
     user (set_user c req) = Some c) /\
  status no_token = 401 /\ status invalid_token = 401 /\
  body no_token = JObj [("error", JStr "No token")] /\
  body invalid_token = JObj [("error", JStr "Invalid token")].
Proof.
  unfold auth.
  split; [intros ->; reflexivity|].
  split; [intros hdr -> ->; reflexivity|].
  split.
  { intros hdr err -> -> Hv. split.
    - cbn [run perform fst snd]. rewrite Hv. reflexivity.
    - cbn [settle awaited perform fst snd]. rewrite Hv. reflexivity. }
  split.
  { intros hdr c -> -> Hv. split; [|reflexivity].
    cbn [run perform fst snd]. rewrite Hv. reflexivity. }
  repeat split.
Qed.

End GateProperties.

(** ** Start-up *)

Section Startup.
Context `{Platform}.

(** C8: when [JWT_SECRET] is absent from the environment or is the empty
    string, loading [utils/jwt] throws ['JWT_SECRET missing'], the process
    ends while its modules are still being loaded, before [app.listen], and
    no request is ever answered. *)
Theorem missing_secret_is_fatal (env : gmap string string) :
  env !! "JWT_SECRET" = None \/ env !! "JWT_SECRET" = Some EmptyString ->
  Jwt.load env = inl "JWT_SECRET missing" /\
  Server.main env = Server.Crashed "JWT_SECRET missing" /\
  forall r w, Server.serve (Server.main env) r w = None.
Proof.
  intros Henv.
  assert (Hload : Jwt.load env = inl "JWT_SECRET missing").
  { unfold Jwt.load. destruct Henv as [-> | ->]; reflexivity. }
  assert (Hmain : Server.main env = Server.Crashed "JWT_SECRET missing").
  { unfold Server.main, Server.load_auth_routes. rewrite Hload. reflexivity. }
  split; [exact Hload|]. split; [exact Hmain|].
  intros r w. rewrite Hmain. reflexivity.
Qed.

End Startup.

(** ** The store *)

Lemma find_map_same {A : Type} (P : A -> bool) (g : A -> A) (l : list A) :
  (forall x, P (g x) = P x) ->
  find P (map g l) = option_map g (find P l).
Proof.
  intros Hg. induction l as [|x l IH]; simpl; [reflexivity|].
  rewrite Hg. destruct (P x); [reflexivity | exact IH].
Qed.

Lemma find_app_some {A : Type} (P : A -> bool) (l l' : list A) (x : A) :
  find P l = Some x -> find P (l ++ l') = Some x.
Proof.
  induction l as [|y l IH]; simpl; [discriminate|].
  destruct (P y); [trivial | exact IH].
Qed.

Lemma find_in_some {A : Type} (P : A -> bool) (l : list A) (x : A) :
  In x l -> P x = true -> exists y, find P l = Some y.
Proof.
  induction l as [|y l IH]; simpl; [contradiction|].
  intros [->|Hin] HP; [rewrite HP; eauto|].
  destruct (P y); eauto.
Qed.

Lemma find_reset_by_id_of_token (t : string) (s : Db.Store) (r : PasswordReset) :
  Db.find_reset_by_token t s = Some r ->
  exists r', Db.find_reset_by_id (pr_id r) s = Some r'.
Proof.
  intros Hf. apply find_some in Hf as [Hin _].
  eapply find_in_some; [exact Hin | apply Z.eqb_refl].
Qed.

Lemma find_user_by_id_of_email (e : string) (s : Db.Store) (u : User) :
  Db.find_user_by_email e s = Some u ->
  exists u', Db.find_user_by_id (u_id u) s = Some u'.
Proof.
  intros Hf. apply find_some in Hf as [Hin _].
  eapply find_in_some; [exact Hin | apply Z.eqb_refl].
Qed.

(** Marking rows by id keeps what a lookup by token finds, up to the mark. *)
Lemma find_token_after_mark (t : string) (i : Z) (b : bool) (l : list PasswordReset) :
  find (fun r => String.eqb (pr_token r) t)
       (map (fun r' => if pr_id r' =? i then Db.set_used b r' else r') l)
  = option_map (fun r' => if pr_id r' =? i then Db.set_used b r' else r')
               (find (fun r => String.eqb (pr_token r) t) l).
Proof.
  apply find_map_same. intros x. destruct (pr_id x =? i); reflexivity.
Qed.

Lemma find_user_after_update (i j : Z) (pw : string) (now : Z) (l : list User) :
  find (fun u => u_id u =? j)
       (map (fun u' => if u_id u' =? i then Db.set_password pw now u' else u') l)
  = option_map (fun u' => if u_id u' =? i then Db.set_password pw now u' else u')
               (find (fun u => u_id u =? j) l).
Proof.
  apply find_map_same. intros x. destruct (u_id x =? i); reflexivity.
Qed.

Section Monotone.
Context `{Platform}.

(** No effect other than un-marking can take the mark off a token. *)
Lemma perform_token_used {X : Type} (e : Eff X) (w : World) (t : string) :
  is_unmark X e = false ->
  token_used t (db w) -> token_used t (db (snd (perform e w))).
Proof.
  intros Hun (r & Hfind & Hused). unfold token_used.
  destruct e; simpl in *; try (exists r; split; assumption).
  - unfold Db.user_create.
    destruct (Db.find_user_by_email e (db w)); simpl; exists r; split; assumption.
  - unfold Db.user_update.
    destruct (Db.find_user_by_id i (db w)); simpl; exists r; split; assumption.
  - unfold Db.passwordReset_create.
    destruct (Db.find_reset_by_token t0 (db w)); simpl; [exists r; split; assumption|].
    destruct (Db.find_user_by_id uid (db w)); simpl; [|exists r; split; assumption].
    exists r. split; [|assumption].
    unfold Db.find_reset_by_token. simpl. apply find_app_some. exact Hfind.
  - unfold Db.passwordReset_update.
    destruct (Db.find_reset_by_id i (db w)); simpl; [|exists r; split; assumption].
    unfold Db.find_reset_by_token in *. simpl.
    rewrite find_token_after_mark, Hfind. simpl.
    eexists. split; [reflexivity|].
    destruct (pr_id r =? i); [|assumption].
    simpl. apply negb_false_iff in Hun. exact Hun.
Qed.


(** No route ever writes [used: false]. *)
Lemma route_never_unmarks (cfg : Config) (r : Request) : never is_unmark (route cfg r).
Proof.
  destruct r as [b|b|b|b]; simpl.
  - unfold register. destruct (RegisterSchema b) as [?|[[? ?] ?]]; simpl; [invalid_branch; exact I|].
    split; [reflexivity|]. intros h. split; [reflexivity|].
    intros [?|?]; exact I.
  - unfold login. destruct (LoginSchema b) as [?|[? ?]]; simpl; [invalid_branch; exact I|].
    split; [reflexivity|]. intros [u|]; simpl; [|exact I].
    split; [reflexivity|]. intros [|]; simpl; [|exact I].
    split; [reflexivity|]. intros ?; exact I.
  - unfold forgotPassword. destruct (ForgotSchema b) as [?|?]; simpl; [invalid_branch; exact I|].
    split; [reflexivity|]. intros [u|]; simpl; [|exact I].
    split; [reflexivity|]. intros tok. split; [reflexivity|].
    intros [?|?]; simpl; [exact I|]. destruct (buildResetLink cfg tok); exact I.
  - unfold resetPassword. destruct (ResetSchema b) as [?|[? ?]]; simpl; [invalid_branch; exact I|].
    split; [reflexivity|]. intros [r|]; simpl; [|exact I].
    destruct (pr_used r); simpl; [exact I|].
    split; [reflexivity|]. intros h. split; [reflexivity|].
    intros [?|?]; simpl; [exact I|]. split; [reflexivity|].
    intros [?|?]; exact I.
Qed.



End Monotone.

(** ** Password reset *)

Section Reset.
Context `{Platform}.

Lemma reset_invalid_input (cfg : Config) (b : json) (issues : list Zod.Issue) (w : World) :
  ResetSchema b = inl issues ->
  handle cfg (PostResetPassword b) w = (inr (validation_failed issues), w).
Proof.
  intros Hv. unfold handle. simpl route.
  rewrite (resetPassword_invalid b issues Hv). reflexivity.
Qed.

Lemma reset_unknown_token (cfg : Config) (b : json) (t p : string) (w : World) :
  ResetSchema b = inr (t, p) ->
  Db.find_reset_by_token t (db w) = None ->
  handle cfg (PostResetPassword b) w = (inr invalid_reset_token, w).
Proof.
  intros Hv Hf. unfold handle. simpl route. unfold resetPassword. rewrite Hv.
  cbn [run perform fst snd]. rewrite Hf. reflexivity.
Qed.

Lemma reset_used_token (cfg : Config) (b : json) (t p : string) (w : World)
  (r : PasswordReset) :
  ResetSchema b = inr (t, p) ->
  Db.find_reset_by_token t (db w) = Some r -> pr_used r = true ->
  handle cfg (PostResetPassword b) w = (inr invalid_reset_token, w).
Proof.
  intros Hv Hf Hu. unfold handle. simpl route. unfold resetPassword. rewrite Hv.
  cbn [run perform fst snd]. rewrite Hf, Hu. reflexivity.
Qed.

Lemma reset_orphan_token (cfg : Config) (b : json) (t p : string) (w : World)
  (r : PasswordReset) :
  ResetSchema b = inr (t, p) ->
  Db.find_reset_by_token t (db w) = Some r -> pr_used r = false ->
  Db.find_user_by_id (pr_userId r) (db w) = None ->
  handle cfg (PostResetPassword b) w = (inl (Prisma Db.P2025), draw w).
Proof.
  intros Hv Hf Hu Hn. unfold handle. simpl route. unfold resetPassword. rewrite Hv.
  cbn [run perform fst snd]. rewrite Hf, Hu.
  cbn [run perform fst snd on_db]. unfold Db.user_update. simpl. rewrite Hn.
  reflexivity.
Qed.

Lemma reset_accepted (cfg : Config) (b : json) (t p : string) (w : World)
  (r : PasswordReset) (u : User) :
  ResetSchema b = inr (t, p) ->
  Db.find_reset_by_token t (db w) = Some r -> pr_used r = false ->
  Db.find_user_by_id (pr_userId r) (db w) = Some u ->
  handle cfg (PostResetPassword b) w
    = (inr password_updated,
       after_reset r (bcrypt_hash 10 (bcrypt_salt (draws w)) p) w).
Proof.
  intros Hv Hf Hu Hs. unfold handle. simpl route. unfold resetPassword. rewrite Hv.
  cbn [run perform fst snd]. rewrite Hf, Hu.
  cbn [run perform fst snd on_db]. unfold Db.user_update. simpl. rewrite Hs.
  destruct (find_reset_by_id_of_token _ _ _ Hf) as [r' Hr'].
  cbn [run perform fst snd on_db]. unfold Db.passwordReset_update.
  unfold Db.find_reset_by_id in *. simpl. rewrite Hr'. reflexivity.
Qed.

(** What the store holds after an accepted reset. *)
Lemma after_reset_token (t : string) (r : PasswordReset) (h : string) (w : World) :
  Db.find_reset_by_token t (db w) = Some r ->
  Db.find_reset_by_token t (db (after_reset r h w)) = Some (Db.set_used true r).
Proof.
  intros Hf. unfold Db.find_reset_by_token in *. simpl.
  rewrite find_token_after_mark, Hf. simpl. rewrite Z.eqb_refl. reflexivity.
Qed.

Lemma after_reset_user (r : PasswordReset) (u : User) (h : string) (w : World) :
  Db.find_user_by_id (pr_userId r) (db w) = Some u ->
  Db.find_user_by_id (pr_userId r) (db (after_reset r h w))
    = Some (Db.set_password h (clock w) u).
Proof.
  intros Hf. unfold Db.find_user_by_id in *. simpl.
  rewrite find_user_after_update, Hf. simpl.
  apply find_some in Hf as [_ Hid]. rewrite Hid. reflexivity.
Qed.

(** A reset is answered with success only in the accepted case. *)
Lemma reset_success_inv (cfg : Config) (b : json) (t p : string) (w w1 : World) :
  ResetSchema b = inr (t, p) ->
  handle cfg (PostResetPassword b) w = (inr password_updated, w1) ->
  exists r u,
    Db.find_reset_by_token t (db w) = Some r /\ pr_used r = false /\
    Db.find_user_by_id (pr_userId r) (db w) = Some u /\
    w1 = after_reset r (bcrypt_hash 10 (bcrypt_salt (draws w)) p) w.
Proof.
  intros Hv Hrun.
  destruct (Db.find_reset_by_token t (db w)) as [r|] eqn:Hf.
  2: { rewrite (reset_unknown_token cfg b t p w Hv Hf) in Hrun. discriminate. }
  destruct (pr_used r) eqn:Hu.
  { rewrite (reset_used_token cfg b t p w r Hv Hf Hu) in Hrun. discriminate. }
  destruct (Db.find_user_by_id (pr_userId r) (db w)) as [u|] eqn:Hs.
  2: { pose proof (reset_orphan_token cfg b t p w r Hv Hf Hu Hs) as Ho.
       rewrite Hrun in Ho. discriminate. }
  rewrite (reset_accepted cfg b t p w r u Hv Hf Hu Hs) in Hrun.
  exists r, u. repeat split; congruence.
Qed.

Lemma fk_ok_owner (s : Db.Store) (t : string) (r : PasswordReset) :
  fk_ok s = true -> Db.find_reset_by_token t s = Some r ->
  exists u, Db.find_user_by_id (pr_userId r) s = Some u.
Proof.
  intros Hfk Hf. apply find_some in Hf as [Hin _].
  unfold fk_ok in Hfk. rewrite forallb_forall in Hfk. specialize (Hfk r Hin).
  destruct (Db.find_user_by_id (pr_userId r) s); [eauto | discriminate].
Qed.

Lemma find_token_with_expiry (f : Z -> option Z) (t : string) (w : World) :
  Db.find_reset_by_token t (db (with_expiry f w))
  = option_map (expire_row f) (Db.find_reset_by_token t (db w)).
Proof. unfold Db.find_reset_by_token. simpl. apply find_map_same. reflexivity. Qed.

Lemma after_reset_with_expiry (f : Z -> option Z) (r : PasswordReset) (h : string)
  (w : World) :
  after_reset (expire_row f r) h (with_expiry f w) = with_expiry f (after_reset r h w).
Proof.
  unfold after_reset, with_expiry. simpl. do 2 f_equal.
  rewrite !map_map. apply map_ext. intros x. simpl.
  destruct (pr_id x =? pr_id r); reflexivity.
Qed.

(** Rewriting the [expiresAt] column changes neither the answer nor what the
    handler does to the store. *)
Lemma reset_commutes_with_expiry (cfg : Config) (f : Z -> option Z) (b : json) (w : World) :
  handle cfg (PostResetPassword b) (with_expiry f w)
  = (fst (handle cfg (PostResetPassword b) w),
     with_expiry f (snd (handle cfg (PostResetPassword b) w))).
Proof.
  destruct (ResetSchema b) as [issues|[t p]] eqn:Hv.
  { rewrite !(reset_invalid_input cfg b issues) by assumption. reflexivity. }
  pose proof (find_token_with_expiry f t w) as Hfe.
  destruct (Db.find_reset_by_token t (db w)) as [r|] eqn:Hf; simpl in Hfe.
  2: { rewrite !(reset_unknown_token cfg b t p) by assumption. reflexivity. }
  destruct (pr_used r) eqn:Hu.
  { rewrite (reset_used_token cfg b t p _ (expire_row f r)),
            (reset_used_token cfg b t p _ r) by assumption. reflexivity. }
  destruct (Db.find_user_by_id (pr_userId r) (db w)) as [u|] eqn:Hs.
  - rewrite (reset_accepted cfg b t p _ (expire_row f r) u),
            (reset_accepted cfg b t p _ r u) by assumption.
    simpl. rewrite after_reset_with_expiry. reflexivity.
  - rewrite (reset_orphan_token cfg b t p _ (expire_row f r)),
            (reset_orphan_token cfg b t p _ r) by assumption. reflexivity.
Qed.

(** C1 (as amended): [resetPassword] changes the password hash and marks the
    token in two separately awaited store calls, the hash first. A request
    that runs alone and whose calls succeed leaves the owner's hash replaced
    and the token marked used; but once its first three awaits are through
    (lookup, hash, user update) the store holds the new hash while the token
    is still unused, and the handler is only then about to ask for the mark. *)
Theorem reset_mutations_are_two_steps (cfg : Config) (b : json) (t p : string)
  (w : World) (r : PasswordReset) (u : User) :
  ResetSchema b = inr (t, p) ->
  Db.find_reset_by_token t (db w) = Some r -> pr_used r = false ->
  Db.find_user_by_id (pr_userId r) (db w) = Some u ->
  let hashed := bcrypt_hash 10 (bcrypt_salt (draws w)) p in
  (exists w',
     handle cfg (PostResetPassword b) w = (inr password_updated, w') /\
     Db.find_user_by_id (pr_userId r) (db w') = Some (Db.set_password hashed (clock w) u) /\
     Db.find_reset_by_token t (db w') = Some (Db.set_used true r)) /\
  (let mid := exec cfg [Arrive (PostResetPassword b); Resume 0; Resume 0; Resume 0]
                   (mkSys w []) in
   Db.find_user_by_id (pr_userId r) (db (world mid))
     = Some (Db.set_password hashed (clock w) u) /\
   Db.find_reset_by_token t (db (world mid)) = Some r /\
   exists k, tasks mid = [Vis (PasswordResetUpdate (pr_id r) true) k]).
Proof.
  intros Hv Hf Hu Hs hashed. split.
  - eexists. split; [apply (reset_accepted cfg b t p w r u); assumption|].
    split; [apply after_reset_user | apply after_reset_token]; assumption.
  - unfold exec. cbn [fold_left step]. simpl route. unfold resetPassword. rewrite Hv.
    cbn [settle awaited fst snd world tasks app lookup list_lookup resume perform
         insert list_insert].
    rewrite Hf, Hu.
    cbn [settle awaited fst snd world tasks app lookup list_lookup resume perform
         insert list_insert on_db].
    unfold Db.user_update. cbn [db draw]. rewrite Hs.
    cbn [settle awaited fst snd world tasks app lookup list_lookup resume perform
         insert list_insert on_db set_db db clock draw].
    split; [|split; [exact Hf | eexists; reflexivity]].
    unfold Db.find_user_by_id in *. cbn [Db.users].
    rewrite find_user_after_update, Hs. simpl.
    apply find_some in Hs as [_ Hid]. rewrite Hid. reflexivity.
Qed.


(** C7 (as amended): [resetPassword] never reads [expiresAt]: with that
    column rewritten in any way the answer is the same and the store is
    changed in the same way. For a request that passes input validation
    (token of length at least 10, new password of length at least 6), on a
    store whose tokens all refer to a user, the request is accepted exactly
    when a row with that token exists and is not used; so it is accepted for
    every such unused row whose [expiresAt] has already passed. *)
Theorem reset_ignores_expiry (cfg : Config) (b : json) (t p : string) (w : World) :
  ResetSchema b = inr (t, p) ->
  fk_ok (db w) = true ->
  (forall f, handle cfg (PostResetPassword b) (with_expiry f w)
             = (fst (handle cfg (PostResetPassword b) w),
                with_expiry f (snd (handle cfg (PostResetPassword b) w)))) /\
  (fst (handle cfg (PostResetPassword b) w) = inr password_updated <->
   exists r, Db.find_reset_by_token t (db w) = Some r /\ pr_used r = false) /\
  (forall r x, Db.find_reset_by_token t (db w) = Some r ->
     pr_expiresAt r = Some x -> x < clock w -> pr_used r = false ->
     fst (handle cfg (PostResetPassword b) w) = inr password_updated).
Proof.
  intros Hv Hfk.
  assert (Hacc : forall r, Db.find_reset_by_token t (db w) = Some r ->
            pr_used r = false ->
            fst (handle cfg (PostResetPassword b) w) = inr password_updated).
  { intros r Hf Hu. destruct (fk_ok_owner _ _ _ Hfk Hf) as [u Hs].
    rewrite (reset_accepted cfg b t p w r u) by assumption. reflexivity. }
  split; [intros f; apply reset_commutes_with_expiry|]. split.
  - split.
    + intros Hok. destruct (handle cfg (PostResetPassword b) w) as [o w1] eqn:Hrun.
      simpl in Hok. subst o.
      destruct (reset_success_inv cfg b t p w w1 Hv Hrun) as (r & u & Hf & Hu & _).
      eauto.
    + intros (r & Hf & Hu). eauto.
  - intros r x Hf _ _ Hu. eauto.
Qed.

End Reset.

(** ** Interleaved requests *)

Section Interleaving.
Context `{Platform}.

Lemma settle_never {A : Type} (P : forall X, Eff X -> bool) (p : Prog A) (w : World) :
  never P p -> never P (fst (settle p w)).
Proof.
  revert w. induction p as [a|e|X e k IH]; intros w Hn; simpl; try exact I.
  destruct (awaited e); [exact Hn|]. apply IH, Hn.
Qed.

Lemma settle_token_used {A : Type} (p : Prog A) (w : World) (t : string) :
  never is_unmark p ->
  token_used t (db w) -> token_used t (db (snd (settle p w))).
Proof.
  revert w. induction p as [a|e|X e k IH]; intros w Hn Hu; simpl; try assumption.
  destruct (awaited e); [assumption|]. destruct Hn as [He Hk].
  apply IH; [apply Hk | apply perform_token_used; assumption].
Qed.

Lemma resume_never {A : Type} (P : forall X, Eff X -> bool) (p : Prog A) (w : World) :
  never P p -> never P (fst (resume p w)).
Proof.
  destruct p as [a|e|X e k]; simpl; try (intros; exact I).
  intros [_ Hk]. apply settle_never, Hk.
Qed.

Lemma resume_token_used {A : Type} (p : Prog A) (w : World) (t : string) :
  never is_unmark p ->
  token_used t (db w) -> token_used t (db (snd (resume p w))).
Proof.
  destruct p as [a|e|X e k]; simpl; try (intros; assumption).
  intros [He Hk] Hu.
  apply settle_token_used; [apply Hk | apply perform_token_used; assumption].
Qed.

(** Tasks in flight never un-mark, and a marked token stays marked, whatever
    happens next on the event loop. *)
Lemma step_token_used (cfg : Config) (s : Sys) (ev : Event) (t : string) :
  Forall (never is_unmark) (tasks s) -> token_used t (db (world s)) ->
  Forall (never is_unmark) (tasks (step cfg s ev)) /\
  token_used t (db (world (step cfg s ev))).
Proof.
  intros Hpool Hu. destruct ev as [r|i|dt]; simpl.
  - split.
    + apply Forall_app. split; [assumption|].
      constructor; [|constructor]. apply settle_never, route_never_unmarks.
    + apply settle_token_used; [apply route_never_unmarks | assumption].
  - destruct (tasks s !! i) as [p|] eqn:Hp; simpl; [|split; assumption].
    pose proof (Forall_lookup_1 _ _ _ _ Hpool Hp) as Hn. split.
    + apply Forall_insert; [assumption | apply resume_never, Hn].
    + apply resume_token_used; assumption.
  - split; assumption.
Qed.

Lemma settle_resetPassword (b : json) (w : World) :
  settle (resetPassword b) w = (resetPassword b, w).
Proof.
  destruct (ResetSchema b) as [issues|[t p]] eqn:Hv.
  - rewrite (resetPassword_invalid b issues Hv). reflexivity.
  - unfold resetPassword. rewrite Hv. reflexivity.
Qed.

Lemma resetPassword_not_done (b : json) : resetPassword b <> Ret password_updated.
Proof.
  destruct (ResetSchema b) as [issues|[t p]] eqn:Hv.
  - rewrite (resetPassword_invalid b issues Hv). discriminate.
  - unfold resetPassword. rewrite Hv. discriminate.
Qed.

Lemma resume_reset_on_used_token (b : json) (t : string) (w : World) :
  field "token" b = JStr t -> token_used t (db w) ->
  exists resp, resume (resetPassword b) w = (Ret resp, w) /\ status resp = 400.
Proof.
  intros Htok (r & Hf & Hu).
  destruct (ResetSchema b) as [issues|[t' p]] eqn:Hv.
  - rewrite (resetPassword_invalid b issues Hv).
    exists (validation_failed issues). split; reflexivity.
  - unfold resetPassword. rewrite Hv.
    destruct (ResetSchema_inr b t' p Hv) as (Ht' & _).
    assert (t' = t) by congruence. subst t'.
    exists invalid_reset_token. cbn [resume perform fst snd].
    rewrite Hf, Hu. split; reflexivity.
Qed.

Lemma step_waiting_or_refused (cfg : Config) (s : Sys) (ev : Event) (t : string)
  (b : json) (i : nat) (p : Prog Response) :
  field "token" b = JStr t -> token_used t (db (world s)) ->
  tasks s !! i = Some p -> waiting_or_refused b p ->
  exists p', tasks (step cfg s ev) !! i = Some p' /\ waiting_or_refused b p'.
Proof.
  intros Htok Hu Hi Hw. destruct ev as [r|j|dt]; simpl.
  - exists p. split; [|assumption].
    rewrite lookup_app_l; [assumption | eapply lookup_lt_Some; eassumption].
  - destruct (tasks s !! j) as [q|] eqn:Hq; simpl; [|eauto].
    destruct (decide (j = i)) as [->|Hne].
    + rewrite list_lookup_insert_eq by (eapply lookup_lt_Some; eassumption).
      eexists. split; [reflexivity|].
      assert (q = p) by congruence. subst q.
      destruct Hw as [->|(resp & -> & Hst)].
      * destruct (resume_reset_on_used_token b t (world s) Htok Hu)
          as (resp & -> & Hst).
        right. eauto.
      * right. eauto.
    + rewrite list_lookup_insert_ne by assumption. eauto.
  - eauto.
Qed.

(** X23: a reset request that arrives when its token is already marked used
    is never accepted, however its steps interleave with those of the other
    requests in flight: at every later moment it is still waiting for its
    lookup or has been answered 400, and the token is still marked. *)
Lemma late_reset_never_accepted (cfg : Config) (t : string) (b : json) (s : Sys)
  (evs : list Event) :
  Forall (never is_unmark) (tasks s) -> token_used t (db (world s)) ->
  field "token" b = JStr t ->
  token_used t (db (world (exec cfg (Arrive (PostResetPassword b) :: evs) s))) /\
  exists p,
    tasks (exec cfg (Arrive (PostResetPassword b) :: evs) s) !! length (tasks s) = Some p /\
    waiting_or_refused b p /\ p <> Ret password_updated.
Proof.
  intros Hpool Hu Htok.
  assert (Hgen : forall evs s' p,
    Forall (never is_unmark) (tasks s') -> token_used t (db (world s')) ->
    tasks s' !! length (tasks s) = Some p -> waiting_or_refused b p ->
    token_used t (db (world (exec cfg evs s'))) /\
    exists p', tasks (exec cfg evs s') !! length (tasks s) = Some p' /\
               waiting_or_refused b p').
  { clear evs. intros evs. induction evs as [|ev evs IH]; intros s' p Hp' Hu' Hi Hw.
    - simpl. eauto.
    - simpl.
      destruct (step_token_used cfg s' ev t Hp' Hu') as [Hp'' Hu''].
      destruct (step_waiting_or_refused cfg s' ev t b _ p Htok Hu' Hi Hw)
        as (p' & Hi' & Hw').
      apply (IH _ p'); assumption. }
  unfold exec. cbn [fold_left]. fold (exec cfg evs (step cfg s (Arrive (PostResetPassword b)))).
  destruct (step_token_used cfg s (Arrive (PostResetPassword b)) t Hpool Hu)
    as [Hpool1 Hu1].
  destruct (Hgen evs (step cfg s (Arrive (PostResetPassword b))) (resetPassword b)
              Hpool1 Hu1) as (Hfin & p & Hp & Hw).
  - simpl. rewrite settle_resetPassword. simpl.
    apply list_lookup_middle. reflexivity.
  - left. reflexivity.
  - split; [exact Hfin|]. exists p. split; [exact Hp|]. split; [exact Hw|].
    destruct Hw as [->|(resp & -> & Hst)].
    + apply resetPassword_not_done.
    + intros [= ->]. discriminate.
Qed.

End Interleaving.

(** ** Forgot password and registration *)

Section Accounts.
Context `{Platform}.

(** C2: with a front-end URL configured, [forgotPassword] answers 200 with a
    body that has the single key [message] in both cases, but the message
    differs: 'If the email exists, a reset link will be sent' when no user
    has the email, 'Reset link generated' when one has. The two answers are
    not equal, so the answer tells whether the email is registered. *)
Theorem forgot_password_reveals_registration (cfg : Config) (b : json) (e fe : string)
  (w_absent w_present : World) (u : User) :
  ForgotSchema b = inr e ->
  FE cfg = Some fe -> fe <> EmptyString ->
  Db.find_user_by_email e (db w_absent) = None ->
  Db.find_user_by_email e (db w_present) = Some u ->
  Db.find_reset_by_token (random_hex (draws w_present) 32) (db w_present) = None ->
  fst (handle cfg (PostForgotPassword b) w_absent)
    = inr (mkResponse 200
             (JObj [("message", JStr "If the email exists, a reset link will be sent")])) /\
  fst (handle cfg (PostForgotPassword b) w_present)
    = inr (mkResponse 200 (JObj [("message", JStr "Reset link generated")])) /\
  fst (handle cfg (PostForgotPassword b) w_absent)
    <> fst (handle cfg (PostForgotPassword b) w_present).
Proof.
  intros Hv Hfe Hne Habsent Hpresent Hfresh.
  assert (Ha : fst (handle cfg (PostForgotPassword b) w_absent)
    = inr (mkResponse 200
             (JObj [("message", JStr "If the email exists, a reset link will be sent")]))).
  { unfold handle. simpl route. unfold forgotPassword. rewrite Hv.
    cbn [run perform fst snd]. rewrite Habsent. reflexivity. }
  assert (Hp : fst (handle cfg (PostForgotPassword b) w_present)
    = inr (mkResponse 200 (JObj [("message", JStr "Reset link generated")]))).
  { unfold handle. simpl route. unfold forgotPassword. rewrite Hv.
    cbn [run perform fst snd]. rewrite Hpresent.
    cbn [run perform fst snd on_db]. unfold Db.passwordReset_create.
    cbn [db draw]. rewrite Hfresh.
    destruct (find_user_by_id_of_email _ _ _ Hpresent) as [u' ->].
    cbn [run fst snd]. unfold buildResetLink. rewrite Hfe.
    destruct (String.eqb_spec fe EmptyString); [contradiction | reflexivity]. }
  rewrite Ha, Hp. repeat split. discriminate.
Qed.

Lemma register_invalid_input (cfg : Config) (b : json) (issues : list Zod.Issue) (w : World) :
  RegisterSchema b = inl issues ->
  handle cfg (PostRegister b) w = (inr (validation_failed issues), w).
Proof.
  intros Hv. unfold handle. simpl route.
  rewrite (register_invalid b issues Hv). reflexivity.
Qed.

Lemma register_taken (cfg : Config) (b : json) (e p : string) (n : option string)
  (w : World) (u : User) :
  RegisterSchema b = inr (e, p, n) ->
  Db.find_user_by_email e (db w) = Some u ->
  fst (handle cfg (PostRegister b) w) = inr (mkResponse 409 (error_body "Email exists")) /\
  Db.users (db (snd (handle cfg (PostRegister b) w))) = Db.users (db w).
Proof.
  intros Hv Hf. unfold handle. simpl route. unfold register. rewrite Hv.
  cbn [run perform fst snd on_db]. unfold Db.user_create. cbn [db draw].
  rewrite Hf. split; reflexivity.
Qed.

(** C5 (as amended): for every email that is already registered, a call to
    [register] with that email that passes input validation is answered 409
    [{ error: 'Email exists' }]; whether it passes validation or not, the
    call adds no row to the users table. The duplicate is reported by the
    store's insert (the unique index on email): the handler never looks a
    user up before inserting. *)
Theorem register_duplicate_email (cfg : Config) (e : string) (w : World) (u : User) :
  Db.find_user_by_email e (db w) = Some u ->
  (forall b p n, RegisterSchema b = inr (e, p, n) ->
     fst (handle cfg (PostRegister b) w)
       = inr (mkResponse 409 (JObj [("error", JStr "Email exists")]))) /\
  (forall b, field "email" b = JStr e ->
     Db.users (db (snd (handle cfg (PostRegister b) w))) = Db.users (db w)) /\
  (forall hashed n,
     fst (Db.user_create e hashed n (clock w) (db w)) = inl Db.P2002) /\
  (forall b, never is_user_lookup (register b)).
Proof.
  intros Hf. split; [|split; [|split]].
  - intros b p n Hv. apply (register_taken cfg b e p n w u); assumption.
  - intros b Hemail. destruct (RegisterSchema b) as [issues|[[e' p] n]] eqn:Hv.
    + rewrite (register_invalid_input cfg b issues w Hv). reflexivity.
    + destruct (RegisterSchema_inr b e' p n Hv) as (He' & _).
      assert (e' = e) by congruence. subst e'.
      apply (register_taken cfg b e p n w u); assumption.
  - intros hashed n. unfold Db.user_create. rewrite Hf. reflexivity.
  - intros b. unfold register.
    destruct (RegisterSchema b) as [?|[[? ?] ?]]; simpl; [invalid_branch; exact I|].
    split; [reflexivity|]. intros h. split; [reflexivity|]. intros [?|?]; exact I.
Qed.

End Accounts.

(** ** The store keeps its constraints *)

Lemma NoDup_snoc {A : Type} (l : list A) (x : A) :
  List.NoDup l -> ~ In x l -> List.NoDup (l ++ [x]).
Proof.
  intros Hl Hx. apply List.NoDup_app; [assumption | |].
  - constructor; [intros [] | constructor].
  - intros a Ha [<-|[]]. contradiction.
Qed.

Lemma find_none_not_in {A K : Type} (p : A -> bool) (f : A -> K) (k : K) (l : list A) :
  (forall x, f x = k -> p x = true) ->
  find p l = None -> ~ In k (map f l).
Proof.
  intros Hp Hf Hin. apply in_map_iff in Hin as (x & Hx & Hin).
  pose proof (find_none p l Hf x Hin) as Hfalse.
  rewrite (Hp x Hx) in Hfalse. discriminate.
Qed.

Lemma Forall_lt_not_in {A : Type} (f : A -> Z) (n : Z) (l : list A) :
  Forall (fun x => f x < n) l -> ~ In n (map f l).
Proof.
  intros Hall Hin. apply in_map_iff in Hin as (x & Hx & Hin).
  rewrite Forall_forall in Hall. specialize (Hall x).
  assert (f x < n) by (apply Hall, Hin). lia.
Qed.

Lemma Forall_lt_succ {A : Type} (f : A -> Z) (n : Z) (l : list A) :
  Forall (fun x => f x < n) l -> Forall (fun x => f x < n + 1) l.
Proof. apply Forall_impl. intros x Hx. simpl. lia. Qed.

Lemma map_update_same {A B : Type} (f : A -> B) (c : A -> bool) (g : A -> A) (l : list A) :
  (forall x, f (g x) = f x) ->
  map f (map (fun x => if c x then g x else x) l) = map f l.
Proof.
  intros Hg. rewrite map_map. apply map_ext. intros x.
  destruct (c x); [apply Hg | reflexivity].
Qed.

Lemma Forall_update {A : Type} (P : A -> Prop) (c : A -> bool) (g : A -> A) (l : list A) :
  (forall x, P x -> P (g x)) ->
  Forall P l -> Forall P (map (fun x => if c x then g x else x) l).
Proof.
  intros Hg Hall. induction Hall as [|x l Hx Hl IH]; simpl; constructor; [|exact IH].
  destruct (c x); [apply Hg, Hx | exact Hx].
Qed.

Lemma fk_ok_more_users (us us' : list User) (rs : list PasswordReset) (a b c d : Z) :
  (forall i u, find (fun u => u_id u =? i) us = Some u ->
     exists u', find (fun u => u_id u =? i) us' = Some u') ->
  fk_ok (Db.mkStore us rs a b) = true -> fk_ok (Db.mkStore us' rs c d) = true.
Proof.
  intros Hmore. unfold fk_ok, Db.find_user_by_id. simpl.
  rewrite !forallb_forall. intros Hfk r Hin. specialize (Hfk r Hin).
  destruct (find _ us) as [u|] eqn:Hf; [|discriminate].
  destruct (Hmore _ _ Hf) as [u' ->]. reflexivity.
Qed.

Lemma user_create_wf (e pw : string) (n : option string) (now : Z) (s : Db.Store) :
  store_wf s -> store_wf (snd (Db.user_create e pw n now s)).
Proof.
  intros (He & Hi & Hlt & Ht & Hri & Hrlt & Hfk). unfold Db.user_create.
  destruct (Db.find_user_by_email e s) as [u|] eqn:Hf; simpl.
  - repeat split; simpl; try assumption.
    apply Forall_lt_succ, Hlt.
  - repeat split; simpl; try assumption.
    + rewrite map_app. apply NoDup_snoc; [assumption|].
      apply (find_none_not_in _ _ _ _ (fun x Hx => proj2 (String.eqb_eq _ _) Hx) Hf).
    + rewrite map_app. apply NoDup_snoc; [assumption|].
      apply Forall_lt_not_in, Hlt.
    + apply Forall_app. split; [apply Forall_lt_succ, Hlt|].
      constructor; [simpl; lia | constructor].
    + destruct s as [us rs a b]. simpl in *.
      eapply fk_ok_more_users; [|exact Hfk].
      intros i u Hu. exists u. apply find_app_some, Hu.
Qed.

Lemma user_update_wf (i : Z) (pw : string) (now : Z) (s : Db.Store) :
  store_wf s -> store_wf (snd (Db.user_update i pw now s)).
Proof.
  intros Hwf. unfold Db.user_update.
  destruct (Db.find_user_by_id i s) as [u|] eqn:Hf; simpl; [|exact Hwf].
  destruct Hwf as (He & Hi & Hlt & Ht & Hri & Hrlt & Hfk).
  repeat split; simpl; try assumption.
  - rewrite (map_update_same u_email); [assumption | reflexivity].
  - rewrite (map_update_same u_id); [assumption | reflexivity].
  - apply Forall_update; [intros x Hx; exact Hx | assumption].
  - destruct s as [us rs a b]. simpl in *.
    eapply fk_ok_more_users; [|exact Hfk].
    intros j u0 Hu. rewrite find_user_after_update, Hu. simpl. eauto.
Qed.

Lemma passwordReset_create_wf (t : string) (uid now : Z) (s : Db.Store) :
  store_wf s -> store_wf (snd (Db.passwordReset_create t uid now s)).
Proof.
  intros (He & Hi & Hlt & Ht & Hri & Hrlt & Hfk). unfold Db.passwordReset_create.
  assert (Hspent : store_wf (Db.mkStore (Db.users s) (Db.passwordResets s)
                                        (Db.user_seq s) (Db.reset_seq s + 1))).
  { repeat split; simpl; try assumption.
    apply Forall_lt_succ, Hrlt. }
  destruct (Db.find_reset_by_token t s) as [r|] eqn:Hf; simpl; [exact Hspent|].
  destruct (Db.find_user_by_id uid s) as [u|] eqn:Hu; simpl; [|exact Hspent].
  repeat split; simpl; try assumption.
  - rewrite map_app. apply NoDup_snoc; [assumption|].
    apply (find_none_not_in _ _ _ _ (fun x Hx => proj2 (String.eqb_eq _ _) Hx) Hf).
  - rewrite map_app. apply NoDup_snoc; [assumption|].
    apply Forall_lt_not_in, Hrlt.
  - apply Forall_app. split; [apply Forall_lt_succ, Hrlt|].
    constructor; [simpl; lia | constructor].
  - unfold fk_ok in *. simpl. rewrite forallb_app. apply andb_true_iff. split.
    + destruct s. exact Hfk.
    + simpl. unfold Db.find_user_by_id in *. simpl. rewrite Hu. reflexivity.
Qed.

Lemma passwordReset_update_wf (i : Z) (b : bool) (s : Db.Store) :
  store_wf s -> store_wf (snd (Db.passwordReset_update i b s)).
Proof.
  intros Hwf. unfold Db.passwordReset_update.
  destruct (Db.find_reset_by_id i s) as [r|] eqn:Hf; simpl; [|exact Hwf].
  destruct Hwf as (He & Hi & Hlt & Ht & Hri & Hrlt & Hfk).
  repeat split; simpl; try assumption.
  - rewrite (map_update_same pr_token); [assumption | reflexivity].
  - rewrite (map_update_same pr_id); [assumption | reflexivity].
  - apply Forall_update; [intros x Hx; exact Hx | assumption].
  - unfold fk_ok in *. simpl. rewrite forallb_forall in *. intros x Hin.
    apply in_map_iff in Hin as (y & <- & Hin). specialize (Hfk y Hin).
    unfold Db.find_user_by_id in *. simpl.
    destruct (pr_id y =? i); exact Hfk.
Qed.

Section Constraints.
Context `{Platform}.

Lemma perform_store_wf {X : Type} (e : Eff X) (w : World) :
  store_wf (db w) -> store_wf (db (snd (perform e w))).
Proof.
  intros Hwf. destruct e; simpl; try assumption.
  - apply user_create_wf, Hwf.
  - apply user_update_wf, Hwf.
  - apply passwordReset_create_wf, Hwf.
  - apply passwordReset_update_wf, Hwf.
Qed.

Lemma run_store_wf {A : Type} (p : Prog A) (w : World) :
  store_wf (db w) -> store_wf (db (snd (run p w))).
Proof.
  revert w. induction p as [a|e|X e k IH]; intros w Hwf; simpl; try assumption.
  apply IH, perform_store_wf, Hwf.
Qed.

Lemma settle_store_wf {A : Type} (p : Prog A) (w : World) :
  store_wf (db w) -> store_wf (db (snd (settle p w))).
Proof.
  revert w. induction p as [a|e|X e k IH]; intros w Hwf; simpl; try assumption.
  destruct (awaited e); [assumption|]. apply IH, perform_store_wf, Hwf.
Qed.

(** X1: the uniqueness of emails and tokens, the primary keys below their
    sequences and the foreign key from tokens to users, when they hold, go on
    holding after every request served alone, after every sequence of
    requests, and after every run of the event loop whatever requests are in
    flight. *)
Theorem store_constraints_kept (cfg : Config) (s : Sys) :
  store_wf (db (world s)) ->
  (forall r, store_wf (db (snd (handle cfg r (world s))))) /\
  (forall rs, store_wf (db (serve_all cfg rs (world s)))) /\
  (forall evs, store_wf (db (world (exec cfg evs s)))).
Proof.
  intros Hwf. split; [|split].
  - intros r. apply run_store_wf, Hwf.
  - intros rs. generalize (world s) Hwf. clear.
    induction rs as [|r rs IH]; intros w Hwf; simpl; [assumption|].
    apply IH, run_store_wf, Hwf.
  - intros evs. revert s Hwf.
    induction evs as [|ev evs IH]; intros s Hwf; simpl; [assumption|].
    apply IH. destruct ev as [r|i|dt]; simpl.
    + apply settle_store_wf, Hwf.
    + destruct (tasks s !! i) as [p|]; simpl; [|assumption].
      destruct p as [a|e|X e k]; simpl; try assumption.
      apply settle_store_wf, perform_store_wf, Hwf.
    + assumption.
Qed.

End Constraints.

(** ** Rows are never removed and their identity never rewritten *)


Section Growth.
Context `{Platform}.

Lemma perform_identity {X : Type} (e : Eff X) (w : World) :
  map user_identity (Db.users (db w))
    `prefix_of` map user_identity (Db.users (db (snd (perform e w)))) /\
  map reset_identity (Db.passwordResets (db w))
    `prefix_of` map reset_identity (Db.passwordResets (db (snd (perform e w)))).
Proof.
  destruct e; simpl; try (split; reflexivity).
  - unfold Db.user_create. destruct (Db.find_user_by_email e (db w)); simpl.
    + split; reflexivity.
    + split; [|reflexivity]. rewrite map_app. apply prefix_app_r. reflexivity.
  - unfold Db.user_update. destruct (Db.find_user_by_id i (db w)); simpl.
    + split; [|reflexivity]. rewrite (map_update_same user_identity); reflexivity.
    + split; reflexivity.
  - unfold Db.passwordReset_create.
    destruct (Db.find_reset_by_token t (db w)); simpl; [split; reflexivity|].
    destruct (Db.find_user_by_id uid (db w)); simpl; [|split; reflexivity].
    split; [reflexivity|]. rewrite map_app. apply prefix_app_r. reflexivity.
  - unfold Db.passwordReset_update. destruct (Db.find_reset_by_id i (db w)); simpl.
    + split; [reflexivity|]. rewrite (map_update_same reset_identity); reflexivity.
    + split; reflexivity.
Qed.

Lemma settle_identity {A : Type} (p : Prog A) (w : World) :
  map user_identity (Db.users (db w))
    `prefix_of` map user_identity (Db.users (db (snd (settle p w)))) /\
  map reset_identity (Db.passwordResets (db w))
    `prefix_of` map reset_identity (Db.passwordResets (db (snd (settle p w)))).
Proof.
  revert w. induction p as [a|e|X e k IH]; intros w; simpl; try (split; reflexivity).
  destruct (awaited e); [split; reflexivity|].
  destruct (perform_identity e w) as [Hu Hr].
  destruct (IH (fst (perform e w)) (snd (perform e w))) as [Hu' Hr'].
  split; etrans; eassumption.
Qed.

Lemma step_identity (cfg : Config) (s : Sys) (ev : Event) :
  map user_identity (Db.users (db (world s)))
    `prefix_of` map user_identity (Db.users (db (world (step cfg s ev)))) /\
  map reset_identity (Db.passwordResets (db (world s)))
    `prefix_of` map reset_identity (Db.passwordResets (db (world (step cfg s ev)))).
Proof.
  destruct ev as [r|i|dt]; simpl; try (split; reflexivity).
  - apply settle_identity.
  - destruct (tasks s !! i) as [p|]; simpl; [|split; reflexivity].
    destruct p as [a|e|X e k]; simpl; try (split; reflexivity).
    destruct (perform_identity e (world s)) as [Hu Hr].
    destruct (settle_identity (k (fst (perform e (world s))))
                (snd (perform e (world s)))) as [Hu' Hr'].
    split; etrans; eassumption.
Qed.

(** X2: no request and no interleaving of requests ever removes a user or a
    reset token, reorders them or rewrites their identity: the ids, emails,
    names and creation times of the users, and the ids, tokens, owners,
    expiry and creation times of the reset tokens, as listed before, are an
    initial segment of what is listed afterwards. Only hashes, update times
    and used flags change in place. *)
Theorem rows_only_accumulate (cfg : Config) (evs : list Event) (s : Sys) :
  map user_identity (Db.users (db (world s)))
    `prefix_of` map user_identity (Db.users (db (world (exec cfg evs s)))) /\
  map reset_identity (Db.passwordResets (db (world s)))
    `prefix_of` map reset_identity (Db.passwordResets (db (world (exec cfg evs s)))).
Proof.
  revert s. induction evs as [|ev evs IH]; intros s; simpl; [split; reflexivity|].
  destruct (step_identity cfg s ev) as [Hu Hr].
  destruct (IH (step cfg s ev)) as [Hu' Hr'].
  split; etrans; eassumption.
Qed.

Lemma perform_users_prefix {X : Type} (e : Eff X) (w : World) :
  is_user_update X e = false ->
  Db.users (db w) `prefix_of` Db.users (db (snd (perform e w))).
Proof.
  intros Hno. destruct e; simpl; try reflexivity; try discriminate.
  - unfold Db.user_create. destruct (Db.find_user_by_email e (db w)); simpl.
    + reflexivity.
    + apply prefix_app_r. reflexivity.
  - unfold Db.passwordReset_create.
    destruct (Db.find_reset_by_token t (db w)); simpl; [reflexivity|].
    destruct (Db.find_user_by_id uid (db w)); reflexivity.
  - unfold Db.passwordReset_update.
    destruct (Db.find_reset_by_id i (db w)); reflexivity.
Qed.

Lemma run_users_prefix {A : Type} (p : Prog A) (w : World) :
  never is_user_update p ->
  Db.users (db w) `prefix_of` Db.users (db (snd (run p w))).
Proof.
  revert w. induction p as [a|e|X e k IH]; intros w Hn; simpl; try reflexivity.
  destruct Hn as [He Hk]. etrans; [apply (perform_users_prefix e w He)|].
  apply IH, Hk.
Qed.

(** X3: a stored password hash changes only through an accepted reset, and
    then only for the owner of the token. [register], [login] and
    [forgotPassword] leave every existing user row exactly as it is (at most
    appending a new one); after [resetPassword] every user row is either
    still there unchanged, or is the owner of the request's unused token. *)
Theorem hashes_change_only_by_reset (cfg : Config) (w : World) :
  (forall b, Db.users (db w)
               `prefix_of` Db.users (db (snd (handle cfg (PostRegister b) w)))) /\
  (forall b, Db.users (db (snd (handle cfg (PostLogin b) w))) = Db.users (db w)) /\
  (forall b, Db.users (db (snd (handle cfg (PostForgotPassword b) w)))
             = Db.users (db w)) /\
  (forall b u, In u (Db.users (db w)) ->
     In u (Db.users (db (snd (handle cfg (PostResetPassword b) w)))) \/
     exists t p r,
       ResetSchema b = inr (t, p) /\
       Db.find_reset_by_token t (db w) = Some r /\ pr_used r = false /\
       u_id u = pr_userId r).
Proof.
  split; [|split; [|split]].
  - intros b. apply run_users_prefix. simpl. unfold register.
    destruct (RegisterSchema b) as [?|[[? ?] ?]]; simpl; [invalid_branch; exact I|].
    split; [reflexivity|]. intros h. split; [reflexivity|]. intros [?|?]; exact I.
  - intros b. unfold handle. simpl route. unfold login.
    destruct (LoginSchema b) as [?|[e p]]; [invalid_branch; reflexivity|].
    cbn [run perform fst snd].
    destruct (Db.find_user_by_email e (db w)) as [u|]; [|reflexivity].
    cbn [run perform fst snd]. destruct (bcrypt_compare p (u_password u)); reflexivity.
  - intros b. unfold handle. simpl route. unfold forgotPassword.
    destruct (ForgotSchema b) as [?|e]; [invalid_branch; reflexivity|].
    cbn [run perform fst snd].
    destruct (Db.find_user_by_email e (db w)) as [u|]; [|reflexivity].
    cbn [run perform fst snd on_db]. unfold Db.passwordReset_create. cbn [db draw].
    destruct (Db.find_reset_by_token _ (db w)); [reflexivity|].
    destruct (Db.find_user_by_id (u_id u) (db w)); [|reflexivity].
    cbn [run fst snd]. destruct (buildResetLink cfg _); reflexivity.
  - intros b u Hin.
    destruct (ResetSchema b) as [issues|[t p]] eqn:Hv.
    { left. rewrite (reset_invalid_input cfg b issues w Hv). exact Hin. }
    destruct (Db.find_reset_by_token t (db w)) as [r|] eqn:Hf.
    2: { left. rewrite (reset_unknown_token cfg b t p w Hv Hf). exact Hin. }
    destruct (pr_used r) eqn:Hu.
    { left. rewrite (reset_used_token cfg b t p w r Hv Hf Hu). exact Hin. }
    destruct (Db.find_user_by_id (pr_userId r) (db w)) as [o|] eqn:Hs.
    2: { left. rewrite (reset_orphan_token cfg b t p w r Hv Hf Hu Hs). exact Hin. }
    rewrite (reset_accepted cfg b t p w r o Hv Hf Hu Hs).
    destruct (u_id u =? pr_userId r) eqn:Hid.
    + right. exists t, p, r. repeat split; try assumption. apply Z.eqb_eq, Hid.
    + left. simpl. apply in_map_iff. exists u. rewrite Hid. split; [reflexivity|exact Hin].
Qed.

End Growth.

(** ** Flows across requests *)

Lemma find_unique_key {A K : Type} (p : A -> bool) (f : A -> K) (l : list A) (u : A) :
  (forall x, p x = true <-> f x = f u) ->
  List.NoDup (map f l) -> In u l -> find p l = Some u.
Proof.
  intros Hp. induction l as [|x l IH]; simpl; [intros _ []|].
  intros Hnd Hin. apply List.NoDup_cons_iff in Hnd as [Hx Hnd].
  destruct (p x) eqn:Hpx.
  - destruct Hin as [->|Hin]; [reflexivity|].
    exfalso. apply Hx. apply Hp in Hpx. rewrite Hpx. apply in_map, Hin.
  - destruct Hin as [->|Hin]; [|apply IH; assumption].
    assert (p u = true) by (apply Hp; reflexivity). congruence.
Qed.

Lemma slice_bearer (t : string) : slice 7 ("Bearer " +:+ t) = t.
Proof. reflexivity. Qed.

Lemma prefix_bearer (t : string) : String.prefix "Bearer " ("Bearer " +:+ t) = true.
Proof. destruct t; reflexivity. Qed.

Section Flows.
Context `{Platform}.

Lemma RegisterSchema_ok (b : json) (e p : string) (n : option string) :
  field "email" b = JStr e -> is_email e = true ->
  field "password" b = JStr p -> (6 <= String.length p)%nat ->
  field "name" b = match n with Some s => JStr s | None => JUndefined end ->
  RegisterSchema b = inr (e, p, n).
Proof.
  intros He Hem Hp Hlen Hn. destruct (field_JStr_obj _ _ _ He) as [fs ->].
  unfold RegisterSchema. rewrite He, Hp, Hn. unfold Zod.z_email, Zod.z_string_min.
  rewrite Hem. apply Nat.leb_le in Hlen. rewrite Hlen. destruct n; reflexivity.
Qed.

Lemma LoginSchema_ok (b : json) (e p : string) :
  field "email" b = JStr e -> is_email e = true ->
  field "password" b = JStr p -> (6 <= String.length p)%nat ->
  LoginSchema b = inr (e, p).
Proof.
  intros He Hem Hp Hlen. destruct (field_JStr_obj _ _ _ He) as [fs ->].
  unfold LoginSchema. rewrite He, Hp. unfold Zod.z_email, Zod.z_string_min.
  rewrite Hem. apply Nat.leb_le in Hlen. rewrite Hlen. reflexivity.
Qed.

Lemma ResetSchema_ok (b : json) (t p : string) :
  field "token" b = JStr t -> (10 <= String.length t)%nat ->
  field "newPassword" b = JStr p -> (6 <= String.length p)%nat ->
  ResetSchema b = inr (t, p).
Proof.
  intros Ht Hlt Hp Hlp. destruct (field_JStr_obj _ _ _ Ht) as [fs ->].
  unfold ResetSchema. rewrite Ht, Hp. unfold Zod.z_string_min.
  apply Nat.leb_le in Hlt, Hlp. rewrite Hlt, Hlp. reflexivity.
Qed.

Lemma login_accepted (cfg : Config) (b : json) (e p : string) (w : World) (u : User) :
  LoginSchema b = inr (e, p) ->
  Db.find_user_by_email e (db w) = Some u ->
  bcrypt_compare p (u_password u) = true ->
  handle cfg (PostLogin b) w
    = (inr (mkResponse 200 (JObj [("token",
             JStr (Jwt.signJwt (SECRET cfg) (mkJwtPayload (u_id u) (u_email u))
                               None (clock w)))])), w).
Proof.
  intros Hv Hf Hc. unfold handle. simpl route. unfold login. rewrite Hv.
  cbn [run perform fst snd]. rewrite Hf. cbn [run perform fst snd]. rewrite Hc.
  reflexivity.
Qed.

Lemma login_refused (cfg : Config) (b : json) (e p : string) (w : World) (u : User) :
  LoginSchema b = inr (e, p) ->
  Db.find_user_by_email e (db w) = Some u ->
  bcrypt_compare p (u_password u) = false ->
  handle cfg (PostLogin b) w = (inr invalid_credentials, w).
Proof.
  intros Hv Hf Hc. unfold handle. simpl route. unfold login. rewrite Hv.
  cbn [run perform fst snd]. rewrite Hf. cbn [run perform fst snd]. rewrite Hc.
  reflexivity.
Qed.


Section WithTokens.
Context `{!JwtPrimitives}.


(** X5: a token that [login] hands out opens the gate. When [login]
    succeeds for a user, the request that carries its token as
    [Authorization: Bearer <token>] is passed on by [auth] with that user's
    id and email as [req.user], as long as the clock in whole seconds
    ([Math.floor] of the milliseconds over 1000) is before that of the login
    plus 604800; from then on the gate answers 401 'Invalid token'. *)
Theorem login_token_opens_gate (cfg : Config) (b : json) (e p : string)
  (w w' : World) (u : User) (rb : json) (next : Req -> Prog Response) :
  LoginSchema b = inr (e, p) ->
  Db.find_user_by_email e (db w) = Some u ->
  bcrypt_compare p (u_password u) = true ->
  exists tok,
    fst (handle cfg (PostLogin b) w) = inr (mkResponse 200 (JObj [("token", JStr tok)])) /\
    (clock w' / 1000 < clock w / 1000 + 604800 ->
     exists c,
       run (auth cfg (mkReq (Some ("Bearer " +:+ tok)) rb None) next) w'
         = run (next (mkReq (Some ("Bearer " +:+ tok)) rb (Some (claims_json c)))) w' /\
       claims_payload c = mkJwtPayload (u_id u) (u_email u)) /\
    (clock w / 1000 + 604800 <= clock w' / 1000 ->
     run (auth cfg (mkReq (Some ("Bearer " +:+ tok)) rb None) next) w'
       = (inr invalid_token, w')).
Proof.
  intros Hv Hf Hc. eexists.
  rewrite (login_accepted cfg b e p w u Hv Hf Hc). cbn [fst].
  split; [reflexivity|].
  assert (Hverify : forall t1,
    Jwt.verifyJwt (SECRET cfg)
      (Jwt.signJwt (SECRET cfg) (mkJwtPayload (u_id u) (u_email u)) None (clock w)) t1
    = if clock w / 1000 + 604800 <=? t1 / 1000 then inl Jwt.TokenExpiredError
      else inr (claims_json (mkJwtClaims (u_id u) (u_email u) (clock w / 1000)
                                         (Some (clock w / 1000 + 604800))))).
  { intros t1. unfold Jwt.verifyJwt, Jwt.signJwt. rewrite verify_sign. reflexivity. }
  split.
  - intros Hlt. eexists. unfold auth. cbn [authorization].
    rewrite prefix_bearer, slice_bearer. cbn [run perform fst snd].
    rewrite Hverify.
    destruct (Z.leb_spec (clock w / 1000 + 604800) (clock w' / 1000)); [lia|].
    split; reflexivity.
  - intros Hge. unfold auth. cbn [authorization].
    rewrite prefix_bearer, slice_bearer. cbn [run perform fst snd].
    rewrite Hverify.
    destruct (Z.leb_spec (clock w / 1000 + 604800) (clock w' / 1000)); [reflexivity|lia].
Qed.

(** X6: [signJwt] lets the caller's [expiresIn] override the default of
    seven days. A token issued with [expiresIn] of [d] seconds verifies
    exactly while the clock, in whole seconds, is before the issue time plus
    [d], and is refused as expired from then on; options without
    [expiresIn] leave the seven days in place. *)
Theorem signJwt_expiresIn_override (secret : string) (p : JwtPayload) (d t0 t1 : Z) :
  Jwt.verifyJwt secret
    (Jwt.signJwt secret p (Some (Jwt.mkSignOptions (Some d))) t0) t1
  = (if t0 / 1000 + d <=? t1 / 1000 then inl Jwt.TokenExpiredError
     else inr (claims_json
                 (mkJwtClaims (userId p) (email p) (t0 / 1000) (Some (t0 / 1000 + d))))) /\
  Jwt.signJwt secret p (Some (Jwt.mkSignOptions None)) t0 = Jwt.signJwt secret p None t0.
Proof.
  split; [|reflexivity].
  unfold Jwt.verifyJwt, Jwt.signJwt. rewrite verify_sign. reflexivity.
Qed.

End WithTokens.

(** X7: after an accepted reset the new password logs in and the old one
    does not. On a store that meets its constraints, once
    [resetPassword(token, p)] is accepted for a token of user [u], a login
    with [u]'s email and [p] answers 200 with a token, and a login with any
    password that bcrypt does not match against the new hash answers 401.
    What is asked of bcrypt is that [compare] accepts the hash it made of
    [p]. *)
Theorem reset_then_login (cfg : Config) (b : json) (t p : string) (w : World)
  (r : PasswordReset) (u : User) :
  store_wf (db w) ->
  ResetSchema b = inr (t, p) ->
  Db.find_reset_by_token t (db w) = Some r -> pr_used r = false ->
  Db.find_user_by_id (pr_userId r) (db w) = Some u ->
  bcrypt_compare p (bcrypt_hash 10 (bcrypt_salt (draws w)) p) = true ->
  let w1 := snd (handle cfg (PostResetPassword b) w) in
  fst (handle cfg (PostResetPassword b) w) = inr password_updated /\
  (forall b', LoginSchema b' = inr (u_email u, p) ->
     exists tok, handle cfg (PostLogin b') w1
                 = (inr (mkResponse 200 (JObj [("token", JStr tok)])), w1)) /\
  (forall b' p', LoginSchema b' = inr (u_email u, p') ->
     bcrypt_compare p' (bcrypt_hash 10 (bcrypt_salt (draws w)) p) = false ->
     handle cfg (PostLogin b') w1 = (inr invalid_credentials, w1)).
Proof.
  intros Hwf Hv Hf Hu Hs Hc w1. subst w1.
  rewrite (reset_accepted cfg b t p w r u Hv Hf Hu Hs). cbn [fst snd].
  set (h := bcrypt_hash 10 (bcrypt_salt (draws w)) p) in *.
  assert (Hfound : Db.find_user_by_email (u_email u) (db (after_reset r h w))
                   = Some (Db.set_password h (clock w) u)).
  { destruct Hwf as (He & _).
    pose proof (find_some _ _ Hs) as [Hin Hid].
    unfold Db.find_user_by_email. simpl.
    rewrite (find_map_same (fun u0 => String.eqb (u_email u0) (u_email u))).
    2: { intros x. destruct (u_id x =? pr_userId r); reflexivity. }
    rewrite (find_unique_key _ u_email _ u (fun x => String.eqb_eq _ _) He Hin).
    simpl. unfold Db.find_user_by_id in Hs. rewrite Hid. reflexivity. }
  split; [reflexivity|]. split.
  - intros b' Hv'. eexists.
    apply (login_accepted cfg b' _ p _ _ Hv' Hfound). exact Hc.
  - intros b' p' Hv' Hc'.
    apply (login_refused cfg b' _ p' _ _ Hv' Hfound). exact Hc'.
Qed.


Lemma login_outcome (cfg : Config) (b : json) (w : World) :
  exists resp,
    handle cfg (PostLogin b) w = (inr resp, w) /\
    (status resp = 200 \/ status resp = 400 \/ status resp = 401).
Proof.
  unfold handle. simpl route. unfold login.
  destruct (LoginSchema b) as [issues|[e p]] eqn:Hv.
  { rewrite (invalid_files issues (LoginSchema_files b issues Hv)).
    eexists. split; [reflexivity|]. right. left. reflexivity. }
  cbn [run perform fst snd].
  destruct (Db.find_user_by_email e (db w)) as [u|].
  2: { eexists. split; [reflexivity|]. right. right. reflexivity. }
  cbn [run perform fst snd]. destruct (bcrypt_compare p (u_password u)).
  - eexists. split; [reflexivity|]. left. reflexivity.
  - eexists. split; [reflexivity|]. right. right. reflexivity.
Qed.

(** X9: [login] never writes. Whatever the body and the store, it leaves
    the store, the clock and the random source exactly as they were, and it
    always answers, with status 200, 400 or 401. *)
Theorem login_read_only (cfg : Config) (b : json) (w : World) :
  exists resp,
    handle cfg (PostLogin b) w = (inr resp, w) /\
    (status resp = 200 \/ status resp = 400 \/ status resp = 401).
Proof. apply login_outcome. Qed.

(** X10: which constraint errors leave a handler. Prisma raises P2002 for a
    unique index, P2003 for a foreign key and P2025 for a row that is not
    there. On a store that meets its constraints the promise of a handler is
    rejected with one of them, or with the [TypeError] of
    [zodToFieldErrors], in one case only: [forgotPassword], for a valid body
    and a registered email, when the random token it draws is already stored.
    The rejection is then the P2002 of its insert, which is outside any
    [try], and no row has been added or changed. So [register] turns its P2002 into the
    409, the two updates of [resetPassword] always find their rows, and
    [zodToFieldErrors] never throws on the issues of the four schemas. *)
Theorem rejection_only_on_token_collision (cfg : Config) (r : Request) (w : World) :
  store_wf (db w) ->
  (forall e, fst (handle cfg r w) = inl e ->
     e = Prisma Db.P2002 /\
     Db.users (db (snd (handle cfg r w))) = Db.users (db w) /\
     Db.passwordResets (db (snd (handle cfg r w))) = Db.passwordResets (db w) /\
     exists b email u row,
       r = PostForgotPassword b /\ ForgotSchema b = inr email /\
       Db.find_user_by_email email (db w) = Some u /\
       Db.find_reset_by_token (random_hex (draws w) 32) (db w) = Some row) /\
  (forall b email u row,
     r = PostForgotPassword b -> ForgotSchema b = inr email ->
     Db.find_user_by_email email (db w) = Some u ->
     Db.find_reset_by_token (random_hex (draws w) 32) (db w) = Some row ->
     fst (handle cfg r w) = inl (Prisma Db.P2002)).
Proof.
  intros Hwf. split.
  - intros err. destruct r as [b|b|b|b].
    + unfold handle. simpl route.
      destruct (RegisterSchema b) as [issues|[[e p] n]] eqn:Hv.
      { rewrite (register_invalid b issues Hv). discriminate. }
      unfold register. rewrite Hv.
      cbn [run perform fst snd on_db]. unfold Db.user_create. cbn [db draw].
      destruct (Db.find_user_by_email e (db w)); discriminate.
    + destruct (login_outcome cfg b w) as (resp & -> & _). discriminate.
    + unfold handle. simpl route.
      destruct (ForgotSchema b) as [issues|e] eqn:Hv.
      { rewrite (forgotPassword_invalid cfg b issues Hv). discriminate. }
      unfold forgotPassword. rewrite Hv. cbn [run perform fst snd].
      destruct (Db.find_user_by_email e (db w)) as [u|] eqn:Hf; [|discriminate].
      cbn [run perform fst snd on_db]. unfold Db.passwordReset_create. cbn [db draw].
      destruct (Db.find_reset_by_token _ (db w)) as [row|] eqn:Hrow.
      { intros [= <-]. split; [reflexivity|]. split; [reflexivity|].
        split; [reflexivity|]. exists b, e, u, row. auto. }
      destruct (find_user_by_id_of_email _ _ _ Hf) as [u' ->].
      cbn [run fst snd]. destruct (buildResetLink cfg _); discriminate.
    + destruct (ResetSchema b) as [issues|[t p]] eqn:Hv.
      { rewrite (reset_invalid_input cfg b issues w Hv). discriminate. }
      destruct (Db.find_reset_by_token t (db w)) as [row|] eqn:Hf.
      2: { rewrite (reset_unknown_token cfg b t p w Hv Hf). discriminate. }
      destruct (pr_used row) eqn:Hu.
      { rewrite (reset_used_token cfg b t p w row Hv Hf Hu). discriminate. }
      destruct Hwf as (_ & _ & _ & _ & _ & _ & Hfk).
      destruct (fk_ok_owner _ _ _ Hfk Hf) as [u Hs].
      rewrite (reset_accepted cfg b t p w row u Hv Hf Hu Hs). discriminate.
  - intros b e u row -> Hv Hf Hrow. unfold handle. simpl route.
    unfold forgotPassword. rewrite Hv. cbn [run perform fst snd]. rewrite Hf.
    cbn [run perform fst snd on_db]. unfold Db.passwordReset_create. cbn [db draw].
    rewrite Hrow. reflexivity.
Qed.

(** X11: [resetPassword] does not tell an unknown token from a used one.
    For a request that passes input validation, the answer when no row has
    the token and the answer when the row is marked used are the same 400
    [{ error: 'Invalid or already used token' }], and in both cases nothing
    is written. *)
Theorem reset_unknown_and_used_alike (cfg : Config) (b : json) (t p : string)
  (w_unknown w_used : World) (r : PasswordReset) :
  ResetSchema b = inr (t, p) ->
  Db.find_reset_by_token t (db w_unknown) = None ->
  Db.find_reset_by_token t (db w_used) = Some r -> pr_used r = true ->
  handle cfg (PostResetPassword b) w_unknown
    = (inr (mkResponse 400 (JObj [("error", JStr "Invalid or already used token")])),
       w_unknown) /\
  handle cfg (PostResetPassword b) w_used
    = (inr (mkResponse 400 (JObj [("error", JStr "Invalid or already used token")])),
       w_used).
Proof.
  intros Hv Hn Hf Hu. split.
  - apply (reset_unknown_token cfg b t p); assumption.
  - apply (reset_used_token cfg b t p _ r); assumption.
Qed.

End Flows.

(** ** One request alone on the event loop *)

Section Alone.
Context `{Platform}.

Lemma settle_run {A : Type} (p : Prog A) (w : World) :
  run (fst (settle p w)) (snd (settle p w)) = run p w.
Proof.
  revert w. induction p as [a|e|X e k IH]; intros w; simpl; try reflexivity.
  destruct (awaited e); [reflexivity | apply IH].
Qed.

Lemma settle_finishes {A : Type} (p : Prog A) (w : World) (n : nat) :
  finishes_within p n -> finishes_within (fst (settle p w)) n.
Proof.
  revert w. induction p as [a|e|X e k IH]; intros w Hn; simpl; try exact I.
  simpl in Hn. destruct (awaited e) eqn:Ha.
  - simpl. rewrite Ha. exact Hn.
  - apply IH, Hn.
Qed.

Lemma settle_waits {A : Type} (p : Prog A) (w : World) :
  match fst (settle p w) with
  | Vis e _ => awaited e = true
  | _ => True
  end.
Proof.
  revert w. induction p as [a|e|X e k IH]; intros w; simpl; try exact I.
  destruct (awaited e) eqn:Ha; [simpl; exact Ha | apply IH].
Qed.

Lemma exec_cons (cfg : Config) (ev : Event) (evs : list Event) (s : Sys) :
  exec cfg (ev :: evs) s = exec cfg evs (step cfg s ev).
Proof. reflexivity. Qed.

Lemma exec_alone_settled (cfg : Config) (n : nat) (q : Prog Response) (w : World) :
  match q with Vis e _ => awaited e = true | _ => True end ->
  finishes_within q n ->
  exec cfg (repeat (Resume 0) n) (mkSys w [q])
  = mkSys (snd (run q w)) [done_task (fst (run q w))].
Proof.
  revert q w. induction n as [|n IH]; intros q w Hq Hn.
  - destruct q as [a|e|X e k]; try reflexivity.
    simpl in Hn. rewrite Hq in Hn. contradiction.
  - cbn [repeat]. rewrite exec_cons.
    destruct q as [a|e|X e k].
    + apply (IH (Ret a) w I I).
    + apply (IH (Throw e) w I I).
    + simpl in Hn. rewrite Hq in Hn.
      change (step cfg (mkSys w [Vis e k]) (Resume 0))
        with (mkSys (snd (resume (Vis e k) w)) [fst (resume (Vis e k) w)]).
      cbn [resume]. rewrite IH.
      * rewrite settle_run. reflexivity.
      * apply settle_waits.
      * apply settle_finishes, Hn.
Qed.

Lemma route_finishes_within_4 (cfg : Config) (r : Request) :
  finishes_within (route cfg r) 4.
Proof.
  destruct r as [b|b|b|b]; simpl.
  - unfold register. destruct (RegisterSchema b) as [?|[[? ?] ?]]; simpl; [invalid_branch; exact I|].
    intros h [?|?]; exact I.
  - unfold login. destruct (LoginSchema b) as [?|[? ?]]; simpl; [invalid_branch; exact I|].
    intros [u|]; simpl; [|exact I]. intros [|]; simpl; [|exact I]. intros ?; exact I.
  - unfold forgotPassword. destruct (ForgotSchema b) as [?|?]; simpl; [invalid_branch; exact I|].
    intros [u|]; simpl; [|exact I]. intros tok [?|?]; simpl; [exact I|].
    destruct (buildResetLink cfg tok); exact I.
  - unfold resetPassword. destruct (ResetSchema b) as [?|[? ?]]; simpl; [invalid_branch; exact I|].
    intros [r|]; simpl; [|exact I]. destruct (pr_used r); simpl; [exact I|].
    intros h [?|?]; simpl; [exact I|]. intros [?|?]; exact I.
Qed.

(** X12: every handler of [routes/auth.ts] is through after at most four
    awaited calls, and a request that has the event loop to itself ends
    exactly as when it is served in one go: after its arrival and four
    completions the store, clock and random source are those of [handle],
    and the task holds the same answer (or the same rejection). *)
Theorem alone_on_the_event_loop (cfg : Config) (r : Request) (w : World) :
  finishes_within (route cfg r) 4 /\
  exec cfg (Arrive r :: repeat (Resume 0) 4) (mkSys w [])
  = mkSys (snd (handle cfg r w)) [done_task (fst (handle cfg r w))].
Proof.
  split; [apply route_finishes_within_4|].
  rewrite exec_cons.
  change (step cfg (mkSys w []) (Arrive r))
    with (mkSys (snd (settle (route cfg r) w)) [fst (settle (route cfg r) w)]).
  rewrite exec_alone_settled.
  - unfold handle. rewrite settle_run. reflexivity.
  - apply settle_waits.
  - apply settle_finishes, route_finishes_within_4.
Qed.

End Alone.

(** ** [zodToFieldErrors] *)

Lemma assoc_push_own (k k' m : string) (fe : list (string * list string)) :
  assoc k (Zod.push_own k' m fe)
  = if String.eqb k k' then option_map (fun ms => ms ++ [m]) (assoc k fe)
    else assoc k fe.
Proof.
  induction fe as [|[k0 ms] fe IH]; simpl.
  - destruct (String.eqb k k'); reflexivity.
  - destruct (String.eqb_spec k' k0) as [->|Hne]; simpl.
    + destruct (String.eqb k k0); reflexivity.
    + destruct (String.eqb_spec k k0) as [->|Hne2].
      * destruct (String.eqb_spec k0 k') as [<-|_]; [contradiction | reflexivity].
      * exact IH.
Qed.

Lemma assoc_define {A : Type} (k k' : string) (v : A) (o : list (string * A)) :
  assoc k' o = None ->
  assoc k (Zod.define k' v o) = if String.eqb k k' then Some v else assoc k o.
Proof.
  induction o as [|[k0 v0] o IH]; simpl; [reflexivity|].
  destruct (String.eqb_spec k' k0) as [->|Hne]; [discriminate|]. intros Hnone.
  assert (Hhere : assoc k ((k', v) :: (k0, v0) :: o)
                  = if String.eqb k k' then Some v else assoc k ((k0, v0) :: o))
    by reflexivity.
  assert (Hlater : assoc k ((k0, v0) :: Zod.define k' v o)
                   = if String.eqb k k' then Some v else assoc k ((k0, v0) :: o)).
  { simpl. rewrite (IH Hnone).
    destruct (String.eqb_spec k k0) as [->|_]; [|reflexivity].
    destruct (String.eqb_spec k0 k') as [<-|_]; [contradiction | reflexivity]. }
  destruct (Zod.array_index k') as [n|]; [|exact Hlater].
  destruct (Zod.array_index k0) as [n0|]; [|exact Hhere].
  destruct (n <? n0)%N; [exact Hhere | exact Hlater].
Qed.

Lemma assoc_push_field (k k' m : string) (fe fe' : list (string * list string)) :
  Zod.push_field k' m fe = Some fe' ->
  assoc k fe'
  = if String.eqb k k' then
      Some (match assoc k fe with Some ms => ms ++ [m] | None => [m] end)
    else assoc k fe.
Proof.
  unfold Zod.push_field. destruct (assoc k' fe) as [ms|] eqn:Hown.
  - intros [= <-]. rewrite assoc_push_own.
    destruct (String.eqb_spec k k') as [->|_]; [rewrite Hown|]; reflexivity.
  - destruct (Zod.inherited k'); [discriminate|]. intros [= <-].
    rewrite (assoc_define _ _ _ _ Hown).
    destruct (String.eqb_spec k k') as [->|_]; [rewrite Hown|]; reflexivity.
Qed.

Lemma assoc_map_values {A B : Type} (g : A -> B) (k : string) (l : list (string * A)) :
  assoc k (map (fun kv => (fst kv, g (snd kv))) l) = option_map g (assoc k l).
Proof.
  induction l as [|[k0 v] l IH]; simpl; [reflexivity|].
  destruct (String.eqb k k0); [reflexivity | exact IH].
Qed.

(** The two ways the loop of [zodToFieldErrors] takes an issue. *)
Lemma collect_cons (i : Zod.Issue) (issues : list Zod.Issue) (form : list string)
  (fe : list (string * list string)) :
  (issue_key i = None /\
   Zod.collect (i :: issues) form fe
   = Zod.collect issues (form ++ [Zod.message i]) fe) \/
  (exists k0, issue_key i = Some k0 /\
   Zod.collect (i :: issues) form fe
   = match Zod.push_field k0 (Zod.message i) fe with
     | Some fe' => Zod.collect issues form fe'
     | None => None
     end).
Proof.
  unfold issue_key. simpl. destruct (Zod.path i) as [|k0 ?]; [left; auto|].
  destruct (String.eqb k0 EmptyString); [left; auto | right; eauto].
Qed.

Lemma collect_spec (issues : list Zod.Issue) (form form' : list string)
  (fe fe' : list (string * list string)) :
  Zod.collect issues form fe = Some (form', fe') ->
  form' = form ++ map Zod.message (List.filter (filed_under None) issues) /\
  forall k,
    assoc k fe'
    = match assoc k fe, List.filter (filed_under (Some k)) issues with
      | None, [] => None
      | None, l => Some (map Zod.message l)
      | Some ms, l => Some (ms ++ map Zod.message l)
      end.
Proof.
  revert form fe. induction issues as [|i issues IH]; intros form fe.
  - simpl. intros [= <- <-]. split; [rewrite app_nil_r; reflexivity|].
    intros k. destruct (assoc k fe); [rewrite app_nil_r|]; reflexivity.
  - destruct (collect_cons i issues form fe) as [[Hk ->]|(k0 & Hk & ->)].
    + assert (Hnone : filed_under None i = true) by (unfold filed_under; rewrite Hk; reflexivity).
      assert (Hsome : forall k, filed_under (Some k) i = false)
        by (intros k; unfold filed_under; rewrite Hk; reflexivity).
      intros Hc. destruct (IH _ _ Hc) as [Hf Hfe]. split.
      * rewrite Hf. cbn [List.filter]. rewrite Hnone. simpl.
        rewrite <- app_assoc. reflexivity.
      * intros k. rewrite Hfe. cbn [List.filter]. rewrite Hsome. reflexivity.
    + assert (Hnone : filed_under None i = false) by (unfold filed_under; rewrite Hk; reflexivity).
      assert (Hsome : forall k, filed_under (Some k) i = String.eqb k0 k)
        by (intros k; unfold filed_under; rewrite Hk; reflexivity).
      destruct (Zod.push_field k0 (Zod.message i) fe) as [fe1|] eqn:Hpush; [|discriminate].
      intros Hc. destruct (IH _ _ Hc) as [Hf Hfe]. split.
      * rewrite Hf. cbn [List.filter]. rewrite Hnone. reflexivity.
      * intros k. rewrite Hfe, (assoc_push_field k k0 _ fe fe1 Hpush). cbn [List.filter].
        rewrite Hsome, (String.eqb_sym k0 k).
        destruct (String.eqb k k0).
        -- destruct (assoc k fe) as [ms|]; simpl.
           ++ rewrite <- app_assoc. reflexivity.
           ++ reflexivity.
        -- reflexivity.
Qed.

(** As long as [fieldErrors] has no key of its own that it would also
    inherit, the loop throws exactly when it meets such a key. *)
Lemma collect_throws (issues : list Zod.Issue) (form : list string)
  (fe : list (string * list string)) :
  (forall k, Zod.inherited k = true -> assoc k fe = None) ->
  forallb files issues = false -> Zod.collect issues form fe = None.
Proof.
  revert form fe. induction issues as [|i issues IH]; intros form fe Hfe; simpl;
    [discriminate|].
  intros Hall. unfold files at 1, issue_key in Hall.
  destruct (Zod.path i) as [|k ?]; [apply IH; assumption|].
  destruct (String.eqb k EmptyString); [apply IH; assumption|].
  destruct (Zod.inherited k) eqn:Hk.
  - unfold Zod.push_field. rewrite (Hfe k Hk), Hk. reflexivity.
  - destruct (Zod.push_field k (Zod.message i) fe) as [fe1|] eqn:Hpush; [|reflexivity].
    apply IH; [|exact Hall].
    intros k' Hk'. rewrite (assoc_push_field k' k _ fe fe1 Hpush).
    destruct (String.eqb_spec k' k) as [->|_]; [congruence | apply Hfe, Hk'].
Qed.

Lemma forallb_files_false (issues : list Zod.Issue) :
  forallb files issues = false <->
  exists i k, In i issues /\ issue_key i = Some k /\ Zod.inherited k = true.
Proof.
  split.
  - induction issues as [|i issues IH]; simpl; [discriminate|].
    destruct (files i) eqn:Hi; simpl.
    + intros Hall. destruct (IH Hall) as (j & k & Hin & Hk). exists j, k. auto.
    + intros _. unfold files in Hi. destruct (issue_key i) as [k|] eqn:Hk; [|discriminate].
      exists i, k. apply negb_false_iff in Hi. auto.
  - intros (i & k & Hin & Hk & Hinh).
    destruct (forallb files issues) eqn:Hall; [|reflexivity].
    rewrite forallb_forall in Hall. specialize (Hall i Hin).
    unfold files in Hall. rewrite Hk, Hinh in Hall. discriminate.
Qed.

(** The keys of [fieldErrors] as the loop goes on. *)
Lemma define_name {A : Type} (k : string) (v : A) (o : list (string * A)) :
  Zod.array_index k = None -> Zod.define k v o = o ++ [(k, v)].
Proof.
  intros Hk. induction o as [|[k0 v0] o IH]; simpl; [reflexivity|].
  rewrite Hk, IH. reflexivity.
Qed.

Lemma forallb_define {A : Type} (P : string -> bool) (k : string) (v : A)
  (o : list (string * A)) :
  forallb P (map fst (Zod.define k v o)) = P k && forallb P (map fst o).
Proof.
  induction o as [|[k0 v0] o IH]; simpl; [reflexivity|].
  assert (Hlater : forallb P (map fst ((k0, v0) :: Zod.define k v o))
                   = P k && (P k0 && forallb P (map fst o))).
  { simpl. rewrite IH. destruct (P k), (P k0); reflexivity. }
  destruct (Zod.array_index k) as [n|]; [|exact Hlater].
  destruct (Zod.array_index k0) as [n0|]; [|reflexivity].
  destruct (n <? n0)%N; [reflexivity | exact Hlater].
Qed.

Lemma existsb_define {A : Type} (P : string -> bool) (k : string) (v : A)
  (o : list (string * A)) :
  existsb P (map fst (Zod.define k v o)) = P k || existsb P (map fst o).
Proof.
  induction o as [|[k0 v0] o IH]; simpl; [reflexivity|].
  assert (Hlater : existsb P (map fst ((k0, v0) :: Zod.define k v o))
                   = P k || (P k0 || existsb P (map fst o))).
  { simpl. rewrite IH. destruct (P k), (P k0); reflexivity. }
  destruct (Zod.array_index k) as [n|]; [|exact Hlater].
  destruct (Zod.array_index k0) as [n0|]; [|reflexivity].
  destruct (n <? n0)%N; [reflexivity | exact Hlater].
Qed.

Lemma lists_before_trans (k k' k'' : string) (n : N) :
  Zod.array_index k = Some n ->
  lists_before k k' = true -> lists_before k' k'' = true -> lists_before k k'' = true.
Proof.
  unfold lists_before. intros ->.
  destruct (Zod.array_index k') as [n'|], (Zod.array_index k'') as [n''|];
    try reflexivity; try discriminate.
  intros H1 H2. apply N.leb_le in H1, H2. apply N.leb_le. lia.
Qed.

Lemma indices_first_define {A : Type} (k : string) (v : A) (o : list (string * A)) :
  indices_first (map fst o) = true ->
  indices_first (map fst (Zod.define k v o)) = true.
Proof.
  induction o as [|[k0 v0] o IH]; [reflexivity|].
  cbn [map fst indices_first]. intros Ho. apply andb_prop in Ho as [Hk0 Ho].
  assert (Hlater : lists_before k0 k = true ->
    indices_first (map fst ((k0, v0) :: Zod.define k v o)) = true).
  { intros Hb. cbn [map fst indices_first]. rewrite forallb_define, Hb, Hk0, (IH Ho).
    reflexivity. }
  assert (Hhere : forall n, Zod.array_index k = Some n -> lists_before k k0 = true ->
    indices_first (map fst ((k, v) :: (k0, v0) :: o)) = true).
  { intros n Hn Hb. cbn [map fst indices_first forallb]. rewrite Hb, Hk0, Ho. simpl.
    rewrite andb_true_r. apply forallb_forall. intros k' Hin.
    rewrite forallb_forall in Hk0.
    apply (lists_before_trans k k0 k' n Hn Hb), Hk0, Hin. }
  simpl Zod.define. unfold lists_before in Hlater, Hhere.
  destruct (Zod.array_index k) as [n|] eqn:Hn.
  - destruct (Zod.array_index k0) as [n0|] eqn:Hn0.
    + destruct (N.ltb_spec n n0).
      * apply (Hhere n eq_refl). apply N.leb_le. lia.
      * apply Hlater. apply N.leb_le. lia.
    + apply (Hhere n eq_refl). reflexivity.
  - apply Hlater. destruct (Zod.array_index k0); reflexivity.
Qed.

Lemma keys_push_own (k m : string) (fe : list (string * list string)) :
  map fst (Zod.push_own k m fe) = map fst fe.
Proof.
  induction fe as [|[k0 ms] fe IH]; simpl; [reflexivity|].
  destruct (String.eqb k k0); simpl; [reflexivity | rewrite IH; reflexivity].
Qed.

Lemma names_define_index {A : Type} (k : string) (v : A) (o : list (string * A)) :
  is_name k = false ->
  List.filter is_name (map fst (Zod.define k v o)) = List.filter is_name (map fst o).
Proof.
  intros Hk. induction o as [|[k0 v0] o IH]; simpl; [rewrite Hk; reflexivity|].
  assert (Hhere : List.filter is_name (map fst ((k, v) :: (k0, v0) :: o))
                  = List.filter is_name (map fst ((k0, v0) :: o)))
    by (simpl; rewrite Hk; reflexivity).
  assert (Hlater : List.filter is_name (map fst ((k0, v0) :: Zod.define k v o))
                   = List.filter is_name (map fst ((k0, v0) :: o)))
    by (simpl; rewrite IH; reflexivity).
  destruct (Zod.array_index k) as [n|]; [|exact Hlater].
  destruct (Zod.array_index k0) as [n0|]; [|exact Hhere].
  destruct (n <? n0)%N; [exact Hhere | exact Hlater].
Qed.

Lemma existsb_keys {A : Type} (k : string) (o : list (string * A)) :
  existsb (String.eqb k) (map fst o) = match assoc k o with Some _ => true | None => false end.
Proof.
  induction o as [|[k0 v0] o IH]; simpl; [reflexivity|].
  destruct (String.eqb k k0); [reflexivity | exact IH].
Qed.

Lemma distinct_ext (s1 s2 ks : list string) :
  (forall k, In k ks -> existsb (String.eqb k) s1 = existsb (String.eqb k) s2) ->
  distinct s1 ks = distinct s2 ks.
Proof.
  revert s1 s2. induction ks as [|k ks IH]; intros s1 s2 Hs; simpl; [reflexivity|].
  rewrite <- (Hs k (or_introl eq_refl)).
  destruct (existsb (String.eqb k) s1).
  - apply IH. intros k' Hin. apply Hs. right. exact Hin.
  - f_equal. apply IH. intros k' Hin. simpl. rewrite (Hs k' (or_intror Hin)). reflexivity.
Qed.

Lemma collect_keys (issues : list Zod.Issue) (form form' : list string)
  (fe fe' : list (string * list string)) :
  Zod.collect issues form fe = Some (form', fe') ->
  indices_first (map fst fe) = true ->
  indices_first (map fst fe') = true /\
  List.filter is_name (map fst fe')
  = List.filter is_name (map fst fe)
    ++ distinct (map fst fe) (List.filter is_name (issue_keys issues)).
Proof.
  revert form fe. induction issues as [|i issues IH]; intros form fe.
  - simpl. intros [= <- <-] Hfe. rewrite app_nil_r. auto.
  - destruct (collect_cons i issues form fe) as [[Hk ->]|(k0 & Hk & ->)].
    + intros Hc Hfe. unfold issue_keys. cbn [flat_map]. rewrite Hk. apply (IH _ _ Hc Hfe).
    + destruct (Zod.push_field k0 (Zod.message i) fe) as [fe1|] eqn:Hpush; [|discriminate].
      intros Hc Hfe. unfold issue_keys. cbn [flat_map]. rewrite Hk.
      fold (issue_keys issues). cbn [app List.filter].
      unfold Zod.push_field in Hpush.
      destruct (assoc k0 fe) as [ms|] eqn:Hown.
      * injection Hpush as <-.
        destruct (IH _ _ Hc) as [Hord Hnames]; [rewrite keys_push_own; exact Hfe|].
        split; [exact Hord|]. rewrite Hnames, keys_push_own.
        destruct (is_name k0); [|reflexivity].
        cbn [distinct]. rewrite existsb_keys, Hown. reflexivity.
      * destruct (Zod.inherited k0); [discriminate|]. injection Hpush as <-.
        destruct (IH _ _ Hc) as [Hord Hnames]; [apply indices_first_define, Hfe|].
        split; [exact Hord|]. rewrite Hnames.
        destruct (is_name k0) eqn:Hname.
        -- assert (Hidx : Zod.array_index k0 = None)
             by (unfold is_name in Hname; destruct (Zod.array_index k0);
                 [discriminate | reflexivity]).
           rewrite (define_name _ _ _ Hidx), map_app, filter_app. cbn [map fst List.filter].
           rewrite Hname, <- app_assoc. cbn [app distinct].
           rewrite existsb_keys, Hown. f_equal. f_equal.
           apply distinct_ext. intros k _. rewrite existsb_app. simpl.
           rewrite orb_false_r, orb_comm. reflexivity.
        -- rewrite (names_define_index _ _ _ Hname). f_equal.
           apply distinct_ext. intros k Hin. rewrite existsb_define.
           apply filter_In in Hin as [_ Hkname].
           destruct (String.eqb_spec k k0) as [->|_]; [congruence | reflexivity].
Qed.

(** X13: [zodToFieldErrors] throws a [TypeError] exactly when the path of
    some issue starts with a name that every object inherits
    ([constructor], [toString], [__proto__], ...). Otherwise it drops no
    issue and files each one once: in its result [message] is 'Validation
    failed'; [formErrors] lists, in order, the messages of the issues whose
    path is empty or starts with an empty key; for every key [k],
    [fieldErrors[k]] is absent when no issue's path starts with [k], and
    otherwise lists, in order, the messages of exactly the issues whose path
    starts with [k]; and the keys of [fieldErrors] are listed with the array
    indices first, in ascending order, and then the other keys in the order
    in which the issues first name them. *)
Theorem zodToFieldErrors_files_every_issue (issues : list Zod.Issue) :
  (Zod.zodToFieldErrors issues = None <->
   exists i k, In i issues /\ issue_key i = Some k /\ Zod.inherited k = true) /\
  (forall o, Zod.zodToFieldErrors issues = Some o ->
     field "message" o = JStr "Validation failed" /\
     field "formErrors" o
       = JArr (map JStr (map Zod.message (List.filter (filed_under None) issues))) /\
     (forall k,
        field k (field "fieldErrors" o)
        = match List.filter (filed_under (Some k)) issues with
          | [] => JUndefined
          | l => JArr (map JStr (map Zod.message l))
          end) /\
     exists fs,
       field "fieldErrors" o = JObj fs /\
       indices_first (map fst fs) = true /\
       List.filter is_name (map fst fs)
       = distinct [] (List.filter is_name (issue_keys issues))).
Proof.
  unfold Zod.zodToFieldErrors. split.
  - rewrite <- forallb_files_false. split.
    + intros Hnone. destruct (forallb files issues) eqn:Hall; [|reflexivity].
      destruct (collect_files issues [] [] Hall) as [[form fe] Hc].
      rewrite Hc in Hnone. discriminate.
    + intros Hall. rewrite (collect_throws issues [] []); [reflexivity | | exact Hall].
      reflexivity.
  - intros o. destruct (Zod.collect issues [] []) as [[form fe]|] eqn:Hc; [|discriminate].
    intros [= <-]. destruct (collect_spec _ _ _ _ _ Hc) as [Hf Hfe]. simpl in Hf, Hfe.
    destruct (collect_keys _ _ _ _ _ Hc eq_refl) as [Hord Hnames]. simpl in Hnames.
    assert (Hform : forall m f g,
      field "formErrors" (JObj [("message", m); ("formErrors", f); ("fieldErrors", g)]) = f)
      by reflexivity.
    assert (Hfield : forall m f g,
      field "fieldErrors" (JObj [("message", m); ("formErrors", f); ("fieldErrors", g)]) = g)
      by reflexivity.
    split; [reflexivity|]. split; [rewrite Hform, Hf; reflexivity|]. split.
    + intros k. rewrite Hfield. cbn [field].
      rewrite (assoc_map_values (fun l => JArr (map JStr l))), Hfe.
      destruct (List.filter (filed_under (Some k)) issues); reflexivity.
    + rewrite Hfield. eexists. split; [reflexivity|].
      rewrite map_map. cbn [fst]. split; assumption.
Qed.

(** ** The front-end URL *)

Lemma strip_trailing_slash_app (s : string) : strip_trailing_slash (s +:+ "/") = s.
Proof.
  induction s as [|c s IH]; [reflexivity|].
  rewrite append_cons. simpl. rewrite IH.
  destruct s; simpl; rewrite andb_false_r; reflexivity.
Qed.

Lemma strip_trailing_slash_cases (s : string) :
  s = strip_trailing_slash s +:+ "/" \/
  (strip_trailing_slash s = s /\ forall s', s <> s' +:+ "/").
Proof.
  induction s as [|c s IH].
  - right. split; [reflexivity|]. intros [|? ?]; discriminate.
  - simpl. destruct (Ascii.eqb_spec c "/"%char) as [->|Hc]; simpl.
    + destruct (String.eqb_spec s EmptyString) as [->|Hs].
      * left. reflexivity.
      * destruct IH as [IH|[IH Hno]].
        -- left. rewrite append_cons. f_equal. exact IH.
        -- right. rewrite IH. split; [reflexivity|].
           intros [|c' s'] Heq; [inversion Heq; contradiction|].
           rewrite append_cons in Heq. inversion Heq. eapply Hno. eassumption.
    + destruct IH as [IH|[IH Hno]].
      * left. rewrite append_cons. f_equal. exact IH.
      * right. rewrite IH. split; [reflexivity|].
        intros [|c' s'] Heq; [inversion Heq; contradiction|].
        rewrite append_cons in Heq. inversion Heq. eapply Hno. eassumption.
Qed.

Lemma strip_trailing_slash_empty (s : string) :
  strip_trailing_slash s = EmptyString <-> s = EmptyString \/ s = "/".
Proof.
  split.
  - destruct s as [|c s]; [auto|]. simpl.
    destruct (Ascii.eqb_spec c "/"%char) as [->|Hc]; simpl; [|discriminate].
    destruct (String.eqb_spec s EmptyString) as [->|Hs]; [auto | discriminate].
  - intros [->| ->]; reflexivity.
Qed.

(** X14: how [FRONTEND_URL] decides the forgot-password mode. Once the
    routes are loaded, [buildResetLink] yields no link (testing mode, the
    token is put into the response) exactly when the variable is absent,
    empty or the single character '/'; otherwise the link is the variable's
    value with one trailing '/' removed, if it has one, followed by
    '/reset-password?token=' and the token, so that a value and the same
    value with one more '/' at its end give the same link. *)
Theorem frontend_url_modes (env : gmap string string) (cfg : Config) (tok : string) :
  Server.load_auth_routes env = inr cfg ->
  (buildResetLink cfg tok = None <->
   env !! "FRONTEND_URL" = None \/ env !! "FRONTEND_URL" = Some EmptyString \/
   env !! "FRONTEND_URL" = Some "/") /\
  (forall u, env !! "FRONTEND_URL" = Some u -> u <> EmptyString -> u <> "/" ->
     buildResetLink cfg tok
       = Some (strip_trailing_slash u +:+ "/reset-password?token=" +:+ tok)) /\
  (forall u, strip_trailing_slash (u +:+ "/") = u) /\
  (forall u, (forall u', u <> u' +:+ "/") -> strip_trailing_slash u = u).
Proof.
  intros Hload. unfold Server.load_auth_routes in Hload.
  destruct (Jwt.load env) as [?|secret]; [discriminate|].
  injection Hload as <-. unfold buildResetLink. cbn [FE].
  split; [|split; [|split]].
  - destruct (env !! "FRONTEND_URL") as [u|]; simpl.
    + destruct (String.eqb_spec (strip_trailing_slash u) EmptyString) as [He|Hne].
      * apply strip_trailing_slash_empty in He.
        split; [intros _|reflexivity]. destruct He as [->| ->]; auto.
      * split; [discriminate|]. intros [Hn|[Hu|Hu]]; [discriminate| |];
          injection Hu as ->; exfalso; apply Hne; reflexivity.
    + split; auto.
  - intros u -> Hne Hne'. simpl.
    destruct (String.eqb_spec (strip_trailing_slash u) EmptyString) as [He|_];
      [|reflexivity].
    apply strip_trailing_slash_empty in He. destruct He; contradiction.
  - apply strip_trailing_slash_app.
  - intros u Hno. destruct (strip_trailing_slash_cases u) as [Heq|[Heq _]];
      [|exact Heq]. exfalso. eapply Hno. exact Heq.
Qed.

(** ** The facilities column: [toCsv] and [fromCsv] *)

Lemma trim_start_clean (s : string) : clean_start (Iklan.trim_start s).
Proof.
  induction s as [|c s IH]; simpl; [exact I|].
  destruct (Iklan.is_space c) eqn:Hc; [exact IH | simpl; exact Hc].
Qed.

Lemma trim_start_id (s : string) : clean_start s -> Iklan.trim_start s = s.
Proof. destruct s as [|c s]; simpl; [reflexivity|]. intros ->. reflexivity. Qed.

Lemma trim_end_clean (s : string) : clean_start s -> clean_start (Iklan.trim_end s).
Proof.
  destruct s as [|c s]; simpl; [exact (fun H => H)|]. intros Hc.
  destruct (Iklan.trim_end s); [rewrite Hc|]; simpl; exact Hc.
Qed.

Lemma trim_end_idem (s : string) : Iklan.trim_end (Iklan.trim_end s) = Iklan.trim_end s.
Proof.
  induction s as [|c s IH]; simpl; [reflexivity|].
  destruct (Iklan.trim_end s) as [|d r] eqn:Hr.
  - destruct (Iklan.is_space c) eqn:Hc; simpl; [reflexivity|]. rewrite Hc. reflexivity.
  - cbn [Iklan.trim_end]. cbn [Iklan.trim_end] in IH. rewrite IH. reflexivity.
Qed.

Lemma trim_idem (s : string) : Iklan.trim (Iklan.trim s) = Iklan.trim s.
Proof.
  unfold Iklan.trim.
  rewrite (trim_start_id (Iklan.trim_end (Iklan.trim_start s))).
  - apply trim_end_idem.
  - apply trim_end_clean, trim_start_clean.
Qed.

Lemma no_comma_trim_start (s : string) :
  no_comma s = true -> no_comma (Iklan.trim_start s) = true.
Proof.
  induction s as [|c s IH]; simpl; [reflexivity|]. intros Hn.
  destruct (Iklan.is_space c); [|exact Hn].
  apply andb_prop in Hn as [_ Hn]. apply IH, Hn.
Qed.

Lemma no_comma_trim_end (s : string) :
  no_comma s = true -> no_comma (Iklan.trim_end s) = true.
Proof.
  induction s as [|c s IH]; simpl; [reflexivity|]. intros Hn.
  apply andb_prop in Hn as [Hc Hn]. specialize (IH Hn).
  destruct (Iklan.trim_end s) as [|d r].
  - destruct (Iklan.is_space c); simpl; [reflexivity|]. rewrite Hc. reflexivity.
  - cbn [no_comma]. rewrite Hc. exact IH.
Qed.

Lemma no_comma_trim (s : string) : no_comma s = true -> no_comma (Iklan.trim s) = true.
Proof. intros Hn. apply no_comma_trim_end, no_comma_trim_start, Hn. Qed.

Lemma split_comma_no_comma (s : string) :
  no_comma s = true -> Iklan.split_comma s = [s].
Proof.
  induction s as [|c s IH]; simpl; [reflexivity|].
  intros Hnd. apply andb_prop in Hnd as [Hc Hs].
  apply negb_true_iff in Hc. rewrite Hc, (IH Hs). reflexivity.
Qed.

Lemma split_comma_segment (a b : string) :
  no_comma a = true ->
  Iklan.split_comma (a +:+ "," +:+ b) = a :: Iklan.split_comma b.
Proof.
  induction a as [|c a IH]; [reflexivity|].
  intros Hnd. simpl in Hnd. apply andb_prop in Hnd as [Hc Ha].
  apply negb_true_iff in Hc. rewrite append_cons. simpl.
  rewrite Hc, (IH Ha). reflexivity.
Qed.

Lemma split_comma_pieces (s : string) :
  Forall (fun x => no_comma x = true) (Iklan.split_comma s).
Proof.
  induction s as [|c s IH]; simpl; [repeat constructor|].
  destruct (Ascii.eqb c ","%char) eqn:Hc; [constructor; [reflexivity | exact IH]|].
  destruct (Iklan.split_comma s) as [|x xs]; [repeat constructor; simpl; now rewrite Hc|].
  inversion IH as [|? ? Hx Hxs]; subst.
  constructor; [simpl; rewrite Hc; exact Hx | exact Hxs].
Qed.

Lemma split_join_comma (l : list string) :
  l <> [] -> Forall (fun x => no_comma x = true) l ->
  Iklan.split_comma (Iklan.join_comma l) = l.
Proof.
  unfold Iklan.join_comma.
  induction l as [|x l IH]; [contradiction|]. intros _ Hall.
  inversion Hall as [|? ? Hx Hl]; subst.
  destruct l as [|y l]; [apply split_comma_no_comma, Hx|].
  change (String.concat "," (x :: y :: l))
    with (x +:+ "," +:+ String.concat "," (y :: l)).
  rewrite (split_comma_segment _ _ Hx), IH; [reflexivity | discriminate | exact Hl].
Qed.

(** What [map(trim).filter(Boolean)] leaves: trimmed, non-empty strings. *)
Lemma cleaned_fixed (l : list string) :
  List.filter Iklan.truthy (map Iklan.trim (List.filter Iklan.truthy (map Iklan.trim l)))
  = List.filter Iklan.truthy (map Iklan.trim l).
Proof.
  induction l as [|x l IH]; simpl; [reflexivity|].
  destruct (Iklan.truthy (Iklan.trim x)) eqn:Hx; [|exact IH].
  simpl. rewrite trim_idem, Hx, IH. reflexivity.
Qed.

Lemma cleaned_no_comma (l : list string) :
  Forall (fun x => no_comma x = true) l ->
  Forall (fun x => no_comma x = true) (List.filter Iklan.truthy (map Iklan.trim l)).
Proof.
  induction 1 as [|x l Hx Hl IH]; simpl; [constructor|].
  destruct (Iklan.truthy (Iklan.trim x)); [|exact IH].
  constructor; [apply no_comma_trim, Hx | exact IH].
Qed.

Lemma join_comma_nonempty (x : string) (l : list string) :
  Iklan.truthy x = true -> Iklan.join_comma (x :: l) <> EmptyString.
Proof.
  unfold Iklan.truthy, Iklan.join_comma. intros Hx.
  destruct x as [|c x]; [discriminate|].
  destruct l; simpl; discriminate.
Qed.

Lemma fromCsv_toCsv_aux (l : list string) :
  Forall (fun x => no_comma x = true) l ->
  Iklan.fromCsv (Iklan.toCsv (Some l)) = List.filter Iklan.truthy (map Iklan.trim l) /\
  (l <> [] -> Forall (fun x => Iklan.trim x = EmptyString) l ->
   Iklan.toCsv (Some l) = Some EmptyString).
Proof.
  intros Hall. destruct l as [|x l].
  - split; [reflexivity | intros Hne; contradiction].
  - assert (Hto : Iklan.toCsv (Some (x :: l))
      = Some (Iklan.join_comma (List.filter Iklan.truthy (map Iklan.trim (x :: l)))))
      by reflexivity.
    rewrite Hto. clear Hto. split.
    + pose proof (cleaned_fixed (x :: l)) as Hfix.
      pose proof (cleaned_no_comma (x :: l) Hall) as Hnc.
      destruct (List.filter Iklan.truthy (map Iklan.trim (x :: l))) as [|y ys] eqn:Hc.
      * reflexivity.
      * assert (Hy : Iklan.truthy y = true).
        { assert (Hin : In y (List.filter Iklan.truthy (map Iklan.trim (x :: l))))
            by (rewrite Hc; left; reflexivity).
          apply filter_In in Hin. apply Hin. }
        pose proof (join_comma_nonempty y ys Hy) as Hne.
        unfold Iklan.fromCsv.
        destruct (Iklan.join_comma (y :: ys)) as [|c s] eqn:Hj; [contradiction|].
        rewrite <- Hj, split_join_comma; [exact Hfix | discriminate | exact Hnc].
    + intros _ Hblank.
      assert (Hnil : List.filter Iklan.truthy (map Iklan.trim (x :: l)) = []).
      { clear Hall. induction Hblank as [|y ys Hy Hys IH]; simpl; [reflexivity|].
        rewrite Hy. simpl. exact IH. }
      rewrite Hnil. reflexivity.
Qed.

(** X15: what is written by [toCsv] is read back by [fromCsv]. For every
    list of facilities none of which contains a comma (and for no list at
    all), [fromCsv(toCsv(a))] is the list with every entry trimmed and the
    entries that are empty after trimming left out. A non-empty list whose
    entries are all blank is stored as the empty string, not as null, and
    reads back as the empty list. *)
Theorem fromCsv_toCsv (a : option (list string)) :
  Forall (fun x => no_comma x = true) (given a) ->
  Iklan.fromCsv (Iklan.toCsv a)
    = List.filter Iklan.truthy (map Iklan.trim (given a)) /\
  (given a <> [] -> Forall (fun x => Iklan.trim x = EmptyString) (given a) ->
   Iklan.toCsv a = Some EmptyString).
Proof.
  intros Hall. destruct a as [l|]; simpl given in *.
  - apply fromCsv_toCsv_aux, Hall.
  - split; [reflexivity | intros Hne; contradiction].
Qed.

(** X16: [fromCsv] returns only clean entries, and rewriting them changes
    nothing. Whatever the column holds (null, the empty string or any text),
    every entry of [fromCsv(s)] is non-empty, is its own trim and contains no
    comma; and writing the list back with [toCsv] and reading it again gives
    the same list. *)
Theorem fromCsv_clean (s : option string) :
  Forall (fun x => x <> EmptyString /\ Iklan.trim x = x /\ no_comma x = true)
         (Iklan.fromCsv s) /\
  Iklan.fromCsv (Iklan.toCsv (Some (Iklan.fromCsv s))) = Iklan.fromCsv s /\
  Iklan.fromCsv None = [] /\ Iklan.fromCsv (Some EmptyString) = [].
Proof.
  assert (Hclean : forall l, Forall (fun x => no_comma x = true) l ->
    Forall (fun x => x <> EmptyString /\ Iklan.trim x = x /\ no_comma x = true)
           (List.filter Iklan.truthy (map Iklan.trim l))).
  { induction 1 as [|x l Hx Hl IH]; simpl; [constructor|].
    destruct (Iklan.truthy (Iklan.trim x)) eqn:Ht; [|exact IH].
    constructor; [|exact IH]. split; [|split].
    - intros He. rewrite He in Ht. discriminate.
    - apply trim_idem.
    - apply no_comma_trim, Hx. }
  assert (H1 : Forall (fun x => x <> EmptyString /\ Iklan.trim x = x /\ no_comma x = true)
                      (Iklan.fromCsv s)).
  { destruct s as [[|c s]|]; simpl; try constructor.
    apply (Hclean (Iklan.split_comma (String c s))), split_comma_pieces. }
  split; [exact H1|]. split; [|split; reflexivity].
  destruct (fromCsv_toCsv_aux (Iklan.fromCsv s)) as [Hrt _].
  - eapply Forall_impl; [|exact H1]. intros x (_ & _ & Hx). exact Hx.
  - rewrite Hrt. clear Hrt.
    induction H1 as [|x l (Hne & Htrim & _) Hl IH]; simpl; [reflexivity|].
    rewrite Htrim. unfold Iklan.truthy at 1.
    destruct (String.eqb_spec x EmptyString); [contradiction|]. simpl.
    f_equal. exact IH.
Qed.

(** ** Listings: detail and deletion *)

Lemma find_filter_other (i j : Z) (tbl : list Iklan.Row) :
  j <> i ->
  Iklan.findUnique j (Iklan.delete i tbl) = Iklan.findUnique j tbl.
Proof.
  intros Hne. unfold Iklan.findUnique, Iklan.delete.
  induction tbl as [|a tbl IH]; simpl; [reflexivity|].
  destruct (Z.eqb_spec (Iklan.id a) i) as [Hi|Hi]; simpl.
  - destruct (Z.eqb_spec (Iklan.id a) j) as [Hj|Hj]; [congruence | exact IH].
  - destruct (Iklan.id a =? j); [reflexivity | exact IH].
Qed.

Lemma find_filter_same (i : Z) (tbl : list Iklan.Row) :
  Iklan.findUnique i (Iklan.delete i tbl) = None.
Proof.
  unfold Iklan.findUnique, Iklan.delete.
  induction tbl as [|a tbl IH]; simpl; [reflexivity|].
  destruct (Z.eqb_spec (Iklan.id a) i) as [Hi|Hi]; simpl; [exact IH|].
  destruct (Z.eqb_spec (Iklan.id a) i); [contradiction | exact IH].
Qed.

Lemma is_number_true (n : Z) (v : json) : Iklan.is_number n v = true <-> v = JNum n.
Proof.
  unfold Iklan.is_number. split.
  - destruct v; try discriminate. intros Heq. apply Z.eqb_eq in Heq. congruence.
  - intros ->. apply Z.eqb_refl.
Qed.

Section Listings.
Variable toISOString : Z -> string.

(** X17: the detail of a listing is shown only when it is published. For an
    id with no row and for an id whose row is not published the answer is the
    same 404 [{ error: 'Not found' }]; for a published row it is 200 with
    that row's id, with [facilities] read from the column by [fromCsv], and
    without the owner's id. *)
Theorem detail_only_when_published (i : Z) (tbl : list Iklan.Row) :
  (status (Iklan.get_by_id toISOString i tbl) = 200 <->
   exists ad, Iklan.findUnique i tbl = Some ad /\ Iklan.published ad = true) /\
  (status (Iklan.get_by_id toISOString i tbl) <> 200 ->
   Iklan.get_by_id toISOString i tbl
     = mkResponse 404 (JObj [("error", JStr "Not found")])) /\
  (forall ad, Iklan.findUnique i tbl = Some ad -> Iklan.published ad = true ->
     field "id" (body (Iklan.get_by_id toISOString i tbl)) = JNum i /\
     field "facilities" (field "property" (body (Iklan.get_by_id toISOString i tbl)))
       = JArr (map JStr (Iklan.fromCsv (Iklan.facilitiesCsv ad))) /\
     field "ownerId" (body (Iklan.get_by_id toISOString i tbl)) = JUndefined).
Proof.
  unfold Iklan.get_by_id.
  destruct (Iklan.findUnique i tbl) as [ad|] eqn:Hf.
  - destruct (Iklan.published ad) eqn:Hp.
    + split; [|split].
      * split; [eauto | reflexivity].
      * intros Hne. exfalso. apply Hne. reflexivity.
      * intros ad' [= <-] _. apply find_some in Hf as [_ Hid].
        apply Z.eqb_eq in Hid. rewrite Hid. repeat split.
    + split; [|split].
      * split; [discriminate|]. intros (ad' & [= <-] & Hp'). congruence.
      * reflexivity.
      * intros ad' [= <-] Hp'. congruence.
  - split; [|split].
    + split; [discriminate|]. intros (ad' & Hx & _). discriminate.
    + reflexivity.
    + intros ad' Hx. discriminate.
Qed.

(** X19: a listing that its owner has deleted is gone and the others are
    untouched. When the caller owns the row with the given id, the handler
    answers 204, the detail of that id is 'Not found' afterwards, and the
    detail of every other id is what it was. *)
Theorem delete_then_detail (req : Req) (u : json) (i : Z) (tbl : list Iklan.Row)
  (own : Iklan.Row) :
  Iklan.findUnique i tbl = Some own ->
  user req = Some u ->
  field "userId" u = JNum (Iklan.ownerId own) ->
  fst (Iklan.delete_by_id req i tbl) = Iklan.Answered (mkResponse 204 JUndefined) /\
  Iklan.get_by_id toISOString i (snd (Iklan.delete_by_id req i tbl))
    = mkResponse 404 (JObj [("error", JStr "Not found")]) /\
  forall j, j <> i ->
    Iklan.get_by_id toISOString j (snd (Iklan.delete_by_id req i tbl))
    = Iklan.get_by_id toISOString j tbl.
Proof.
  intros Hf Hu Ho.
  assert (Hrun : Iklan.delete_by_id req i tbl
                 = (Iklan.Answered (mkResponse 204 JUndefined), Iklan.delete i tbl)).
  { unfold Iklan.delete_by_id. rewrite Hf, Hu.
    rewrite (proj2 (is_number_true _ _) Ho). destruct u; try discriminate Ho. reflexivity. }
  rewrite Hrun. simpl. split; [reflexivity|]. split.
  - unfold Iklan.get_by_id. rewrite find_filter_same. reflexivity.
  - intros j Hne. unfold Iklan.get_by_id. rewrite find_filter_other by assumption.
    reflexivity.
Qed.

End Listings.

Lemma delete_by_id_cases (req : Req) (i : Z) (tbl : list Iklan.Row) :
  snd (Iklan.delete_by_id req i tbl) = tbl \/
  exists own u,
    Iklan.findUnique i tbl = Some own /\ user req = Some u /\
    field "userId" u = JNum (Iklan.ownerId own) /\
    Iklan.delete_by_id req i tbl
    = (Iklan.Answered (mkResponse 204 JUndefined), Iklan.delete i tbl).
Proof.
  unfold Iklan.delete_by_id.
  destruct (Iklan.findUnique i tbl) as [own|]; [|left; reflexivity].
  destruct (user req) as [u|]; [|left; reflexivity].
  assert (Hcases :
    (if negb (Iklan.is_number (Iklan.ownerId own) (field "userId" u))
     then (Iklan.Answered Iklan.not_found, tbl)
     else (Iklan.Answered (mkResponse 204 JUndefined), Iklan.delete i tbl)).2 = tbl \/
    exists own0 u0,
      Some own = Some own0 /\ Some u = Some u0 /\
      field "userId" u0 = JNum (Iklan.ownerId own0) /\
      (if negb (Iklan.is_number (Iklan.ownerId own) (field "userId" u))
       then (Iklan.Answered Iklan.not_found, tbl)
       else (Iklan.Answered (mkResponse 204 JUndefined), Iklan.delete i tbl))
      = (Iklan.Answered (mkResponse 204 JUndefined), Iklan.delete i tbl)).
  { destruct (Iklan.is_number (Iklan.ownerId own) (field "userId" u)) eqn:Hnum;
      [|left; reflexivity].
    apply is_number_true in Hnum. right. exists own, u. auto. }
  destruct u; try exact Hcases; left; reflexivity.
Qed.

(** X18: only its owner can delete a listing. On a table with distinct ids,
    whatever the request, every row is still there afterwards unless it is
    the row with the given id, the request carries a user and the [userId]
    of that user is the row's owner (and then the answer is 204); nothing is
    ever added. A caller whose [userId] is not the owner gets the same 404 as
    for an id with no row, and the table is left as it was. *)
Theorem delete_only_by_owner (req : Req) (i : Z) (tbl : list Iklan.Row) :
  List.NoDup (map Iklan.id tbl) ->
  (forall a, In a tbl ->
     In a (snd (Iklan.delete_by_id req i tbl)) \/
     (Iklan.id a = i /\
      exists u, user req = Some u /\ field "userId" u = JNum (Iklan.ownerId a) /\
                fst (Iklan.delete_by_id req i tbl)
                = Iklan.Answered (mkResponse 204 JUndefined))) /\
  (forall a, In a (snd (Iklan.delete_by_id req i tbl)) -> In a tbl) /\
  (forall own u, Iklan.findUnique i tbl = Some own -> user req = Some u ->
     u <> JUndefined -> u <> JNull ->
     field "userId" u <> JNum (Iklan.ownerId own) ->
     Iklan.delete_by_id req i tbl
       = (Iklan.Answered (mkResponse 404 (JObj [("error", JStr "Not found")])), tbl)) /\
  (Iklan.findUnique i tbl = None ->
   Iklan.delete_by_id req i tbl
     = (Iklan.Answered (mkResponse 404 (JObj [("error", JStr "Not found")])), tbl)).
Proof.
  intros Hnd. split; [|split; [|split]].
  - intros a Hin.
    destruct (delete_by_id_cases req i tbl) as [->|(own & u & Hf & Hu & Ho & Hrun)];
      [left; exact Hin|].
    rewrite Hrun. cbn [fst snd].
    destruct (Z.eqb_spec (Iklan.id a) i) as [Hi|Hi].
    + right. split; [exact Hi|]. exists u. split; [exact Hu|]. split; [|reflexivity].
      assert (a = own); [|subst; exact Ho].
      unfold Iklan.findUnique in Hf.
      assert (Hfa : find (fun x => Iklan.id x =? i) tbl = Some a).
      { rewrite <- Hi. apply (find_unique_key _ Iklan.id); [|assumption|assumption].
        intros x. apply Z.eqb_eq. }
      congruence.
    + left. unfold Iklan.delete. apply filter_In. split; [exact Hin|].
      apply negb_true_iff, Z.eqb_neq, Hi.
  - intros a.
    destruct (delete_by_id_cases req i tbl) as [->|(own & u & _ & _ & _ & ->)];
      [trivial|].
    cbn [snd]. unfold Iklan.delete. intros Hin. apply filter_In in Hin. apply Hin.
  - intros own u Hf Hu Hundef Hnull Ho. unfold Iklan.delete_by_id. rewrite Hf, Hu.
    assert (Hno : Iklan.is_number (Iklan.ownerId own) (field "userId" u) = false).
    { destruct (Iklan.is_number _ _) eqn:Hnum; [|reflexivity].
      apply is_number_true in Hnum. contradiction. }
    rewrite Hno. destruct u; try reflexivity; congruence.
  - intros Hf. unfold Iklan.delete_by_id. rewrite Hf. reflexivity.
Qed.

(** ** What the four schemas accept *)

Section Schemas.
Context `{Platform}.

Lemma z_string_optional_inr (v : json) (n : option string) :
  Zod.z_string_optional v = inr n <->
  v = match n with Some s => JStr s | None => JUndefined end.
Proof.
  unfold Zod.z_string_optional. split.
  - destruct v; try discriminate; intros [= <-]; reflexivity.
  - intros ->. destruct n; reflexivity.
Qed.

(** X20: the bodies each schema lets through, exactly. [RegisterSchema]
    accepts a body, with parsed data [(e, p, n)], precisely when its [email]
    is the string [e] and an email for zod, its [password] is the string [p]
    of length at least 6, and its [name] is absent ([n] none) or a string;
    [LoginSchema] the same without the name; [ForgotSchema] the email alone;
    [ResetSchema] a [token] string of length at least 10 and a
    [newPassword] string of length at least 6. Other properties of the body
    play no part. *)
Theorem schemas_accept_exactly (b : json) :
  (forall e p n, RegisterSchema b = inr (e, p, n) <->
     field "email" b = JStr e /\ is_email e = true /\
     field "password" b = JStr p /\ (6 <= String.length p)%nat /\
     field "name" b = match n with Some s => JStr s | None => JUndefined end) /\
  (forall e p, LoginSchema b = inr (e, p) <->
     field "email" b = JStr e /\ is_email e = true /\
     field "password" b = JStr p /\ (6 <= String.length p)%nat) /\
  (forall e, ForgotSchema b = inr e <->
     field "email" b = JStr e /\ is_email e = true) /\
  (forall t p, ResetSchema b = inr (t, p) <->
     field "token" b = JStr t /\ (10 <= String.length t)%nat /\
     field "newPassword" b = JStr p /\ (6 <= String.length p)%nat).
Proof.
  split; [|split; [|split]].
  - intros e p n. split.
    + intros Hv. destruct (RegisterSchema_inr b e p n Hv) as (He & Hp & Hem & Hlen).
      repeat split; try assumption.
      unfold RegisterSchema in Hv. destruct b; try discriminate.
      destruct (Zod.z_email _) as [?|?]; destruct (Zod.z_string_min _ _) as [?|?];
        destruct (Zod.z_string_optional _) as [?|n'] eqn:Hn; try discriminate.
      injection Hv as _ _ <-. apply z_string_optional_inr, Hn.
    + intros (He & Hem & Hp & Hlen & Hn). apply RegisterSchema_ok; assumption.
  - intros e p. split.
    + intros Hv. destruct (LoginSchema_inr b e p Hv) as (He & Hp & Hem & Hlen). auto.
    + intros (He & Hem & Hp & Hlen). apply LoginSchema_ok; assumption.
  - intros e. split.
    + unfold ForgotSchema. destruct b; try discriminate.
      destruct (Zod.z_email _) as [?|e'] eqn:He; [discriminate|].
      intros [= ->]. apply z_email_inr in He. exact He.
    + intros (He & Hem). destruct (field_JStr_obj _ _ _ He) as [fs ->].
      unfold ForgotSchema. rewrite He. unfold Zod.z_email. rewrite Hem. reflexivity.
  - intros t p. split.
    + intros Hv. destruct (ResetSchema_inr b t p Hv) as (Ht & Hp & Hlt & Hlp). auto.
    + intros (Ht & Hlt & Hp & Hlp). apply ResetSchema_ok; assumption.
Qed.

End Schemas.

(** ** The token in the forgot-password answer, and a start-up that succeeds *)

Section Leaks.
Context `{Platform}.

(** X21: with a front-end URL configured, no answer of [forgotPassword]
    carries the reset token: whatever the body and the store, when the
    request is answered the response has no [token] property (and no [hint]).
    The token is put into the response only in testing mode. *)
Theorem forgot_token_only_in_testing_mode (cfg : Config) (fe : string) (b : json)
  (w : World) (resp : Response) :
  FE cfg = Some fe -> fe <> EmptyString ->
  fst (handle cfg (PostForgotPassword b) w) = inr resp ->
  field "token" (body resp) = JUndefined /\ field "hint" (body resp) = JUndefined.
Proof.
  intros Hfe Hne Hrun. revert Hrun.
  unfold handle. simpl route. unfold forgotPassword.
  destruct (ForgotSchema b) as [issues|e] eqn:Hv.
  { rewrite (invalid_files issues (ForgotSchema_files b issues Hv)).
    intros [= <-]. unfold validation_failed, Zod.zodToFieldErrors. cbn [body].
    destruct (Zod.collect issues [] []) as [[? ?]|]; split; reflexivity. }
  cbn [run perform fst snd].
  destruct (Db.find_user_by_email e (db w)) as [u|].
  2: { intros [= <-]. split; reflexivity. }
  cbn [run perform fst snd on_db]. unfold Db.passwordReset_create. cbn [db draw].
  destruct (Db.find_reset_by_token _ (db w)); [discriminate|].
  destruct (Db.find_user_by_id (u_id u) (db w)); [|discriminate].
  cbn [run fst snd]. unfold buildResetLink. rewrite Hfe.
  destruct (String.eqb_spec fe EmptyString); [contradiction|].
  intros [= <-]. split; reflexivity.
Qed.

End Leaks.

(** X22: the process reaches [app.listen] exactly when [JWT_SECRET] is set
    to a non-empty string, and then the routes hold that secret and, as
    [FE], the value of [FRONTEND_URL] with one trailing '/' removed. *)
Theorem server_listens_iff_secret (env : gmap string string) (cfg : Config) :
  Server.main env = Server.Listening cfg <->
  exists s, env !! "JWT_SECRET" = Some s /\ s <> EmptyString /\
            cfg = mkConfig (option_map strip_trailing_slash (env !! "FRONTEND_URL")) s.
Proof.
  unfold Server.main, Server.load_auth_routes, Jwt.load. split.
  - destruct (env !! "JWT_SECRET") as [s|]; [|discriminate].
    destruct (String.eqb_spec s EmptyString); [discriminate|].
    intros [= <-]. eauto.
  - intros (s & -> & Hne & ->).
    destruct (String.eqb_spec s EmptyString); [contradiction | reflexivity].
Qed.

(** ** Which tokens a request can mark *)

Section Marks.
Context `{Platform}.

(** X24: a reset token is marked used only by an accepted reset that
    presents it. [register] and [login] leave the token table as it is,
    [forgotPassword] at most appends a row, and after [resetPassword] every
    row is still there unchanged unless it is the unused row that the
    lookup of the request's token found; no request changes more than that
    one row. *)
Theorem tokens_marked_only_by_their_reset (cfg : Config) (w : World) :
  (forall b, Db.passwordResets (db (snd (handle cfg (PostRegister b) w)))
             = Db.passwordResets (db w)) /\
  (forall b, Db.passwordResets (db (snd (handle cfg (PostLogin b) w)))
             = Db.passwordResets (db w)) /\
  (forall b, Db.passwordResets (db w)
               `prefix_of`
             Db.passwordResets (db (snd (handle cfg (PostForgotPassword b) w)))) /\
  (forall b r', In r' (Db.passwordResets (db w)) ->
     In r' (Db.passwordResets (db (snd (handle cfg (PostResetPassword b) w)))) \/
     exists t p r,
       ResetSchema b = inr (t, p) /\
       Db.find_reset_by_token t (db w) = Some r /\ pr_used r = false /\
       pr_id r' = pr_id r).
Proof.
  split; [|split; [|split]].
  - intros b. unfold handle. simpl route. unfold register.
    destruct (RegisterSchema b) as [?|[[e p] n]]; [invalid_branch; reflexivity|].
    cbn [run perform fst snd on_db]. unfold Db.user_create. cbn [db draw].
    destruct (Db.find_user_by_email e (db w)); reflexivity.
  - intros b. destruct (login_outcome cfg b w) as (resp & -> & _). reflexivity.
  - intros b. unfold handle. simpl route. unfold forgotPassword.
    destruct (ForgotSchema b) as [?|e]; [invalid_branch; reflexivity|].
    cbn [run perform fst snd].
    destruct (Db.find_user_by_email e (db w)) as [u|]; [|reflexivity].
    cbn [run perform fst snd on_db]. unfold Db.passwordReset_create. cbn [db draw].
    destruct (Db.find_reset_by_token _ (db w)); [reflexivity|].
    destruct (Db.find_user_by_id (u_id u) (db w)); [|reflexivity].
    cbn [run fst snd]. destruct (buildResetLink cfg _); simpl;
      apply prefix_app_r; reflexivity.
  - intros b r' Hin.
    destruct (ResetSchema b) as [issues|[t p]] eqn:Hv.
    { left. rewrite (reset_invalid_input cfg b issues w Hv). exact Hin. }
    destruct (Db.find_reset_by_token t (db w)) as [r|] eqn:Hf.
    2: { left. rewrite (reset_unknown_token cfg b t p w Hv Hf). exact Hin. }
    destruct (pr_used r) eqn:Hu.
    { left. rewrite (reset_used_token cfg b t p w r Hv Hf Hu). exact Hin. }
    destruct (Db.find_user_by_id (pr_userId r) (db w)) as [o|] eqn:Hs.
    2: { left. rewrite (reset_orphan_token cfg b t p w r Hv Hf Hu Hs). exact Hin. }
    rewrite (reset_accepted cfg b t p w r o Hv Hf Hu Hs).
    destruct (pr_id r' =? pr_id r) eqn:Hid.
    + right. exists t, p, r. repeat split; try assumption. apply Z.eqb_eq, Hid.
    + left. simpl. apply in_map_iff. exists r'. rewrite Hid.
      split; [reflexivity | exact Hin].
Qed.

End Marks.

(** ** The sample platform satisfies what the token format needs *)

Lemma sample_bits_pos_bits (p : positive) : Sample.bits_pos (Sample.pos_bits p) = Some p.
Proof. induction p as [p IH|p IH|]; simpl; [rewrite IH| rewrite IH|]; reflexivity. Qed.

Lemma sample_b64url_pos_bits (p : positive) : Jwt.b64url (Sample.pos_bits p) = true.
Proof. induction p as [p IH|p IH|]; simpl; [exact IH | exact IH | reflexivity]. Qed.

Lemma sample_b64url_hex_digit (n : nat) : Jwt.b64url_char (Sample.hex_digit n) = true.
Proof.
  unfold Sample.hex_digit. generalize (n mod 16)%nat. intros m.
  do 16 (destruct m as [|m]; [reflexivity|]). reflexivity.
Qed.

Lemma sample_b64url_hex (s : string) : Jwt.b64url (Sample.hex s) = true.
Proof.
  induction s as [|c s IH]; [reflexivity|].
  cbn [Sample.hex Jwt.b64url]. rewrite !sample_b64url_hex_digit, IH. reflexivity.
Qed.

Lemma sample_as_claims (c : JwtClaims) : Sample.as_claims (claims_json c) = Some c.
Proof. destruct c as [u e i [x|]]; reflexivity. Qed.

#[export] Instance sample_primitives : @JwtPrimitives Sample.platform.
Proof.
  split.
  - reflexivity.
  - intros c. cbn [json_parse b64_utf8 b64json_encode Sample.platform].
    unfold Sample.sample_encode. rewrite sample_as_claims.
    unfold Sample.sample_parse. simpl String.eqb. cbv iota.
    rewrite sample_bits_pos_bits, decode_encode.
    destruct c; reflexivity.
  - intros c. cbn [b64json_encode Sample.platform].
    unfold Sample.sample_encode. rewrite sample_as_claims.
    cbn [Jwt.segment Jwt.b64url]. rewrite sample_b64url_pos_bits. reflexivity.
  - intros k m. cbn [hmac_sha256_b64 Sample.platform Jwt.segment Jwt.b64url].
    rewrite sample_b64url_hex. reflexivity.
Qed.

(** ** The properties on the sample platform *)

Import Sample.

(** C1, counterexample: a first reset request is three awaits in (its user
    update done, its mark not yet asked for): the store holds the new hash
    and the token is still unused. A second request with the same token
    arriving now is accepted and overwrites the password; both requests are
    answered with success. *)
Lemma reset_not_atomic :
  let token := "0123456789abcdef" in
  let first := PostResetPassword (reset_body token "newpass1") in
  let second := PostResetPassword (reset_body token "newpass2") in
  let mid := exec cfg_fe [Arrive first; Resume 0; Resume 0; Resume 0]
                  (mkSys world1 []) in
  let fin := exec cfg_fe [Arrive second; Resume 1; Resume 1; Resume 1; Resume 1;
                          Resume 0] mid in
  option_map u_password (Db.find_user_by_email "a@x.com" (db (world mid)))
    = Some "newpass1$s" /\
  option_map pr_used (Db.find_reset_by_token token (db (world mid))) = Some false /\
  tasks fin = [Ret password_updated; Ret password_updated] /\
  option_map u_password (Db.find_user_by_email "a@x.com" (db (world fin)))
    = Some "newpass2$ss".
Proof. vm_compute. repeat split. Qed.

Lemma reset_mutations_are_two_steps_witness :
  ResetSchema (reset_body "0123456789abcdef" "newpass1")
    = inr ("0123456789abcdef", "newpass1") /\
  Db.find_reset_by_token "0123456789abcdef" (db world1)
    = Some (mkPasswordReset 1 "0123456789abcdef" 1 None false 0) /\
  Db.find_user_by_id 1 (db world1) = Some alice /\
  exists w',
    handle cfg_fe (PostResetPassword (reset_body "0123456789abcdef" "newpass1")) world1
      = (inr password_updated, w') /\
    Db.find_user_by_id 1 (db w')
      = Some (Db.set_password "newpass1$s" 1000 alice) /\
    Db.find_reset_by_token "0123456789abcdef" (db w')
      = Some (mkPasswordReset 1 "0123456789abcdef" 1 None true 0).
Proof.
  split; [reflexivity|]. split; [reflexivity|]. split; [reflexivity|].
  exact (proj1 (reset_mutations_are_two_steps cfg_fe
           (reset_body "0123456789abcdef" "newpass1") "0123456789abcdef" "newpass1"
           world1 (mkPasswordReset 1 "0123456789abcdef" 1 None false 0) alice
           eq_refl eq_refl eq_refl eq_refl)).
Defined.



(** C7, counterexample: two unused tokens whose [expiresAt] has passed. The
    one of length 6 is refused by input validation whatever the new password
    is; the one of length 16 is refused when the new password is shorter
    than 6. Neither reset succeeds. *)
Lemma reset_expired_token_not_accepted :
  option_map (fun r => (pr_expiresAt r, pr_used r))
             (Db.find_reset_by_token "short1" (db world_expired))
    = Some (Some 5, false) /\
  5 < clock world_expired /\
  fst (handle cfg_fe (PostResetPassword (reset_body "short1" "secret2")) world_expired)
    = inr (validation_failed [Zod.mkIssue ["token"] "Too small"]) /\
  option_map (fun r => (pr_expiresAt r, pr_used r))
             (Db.find_reset_by_token "0123456789abcdef" (db world_expired))
    = Some (Some 5, false) /\
  fst (handle cfg_fe (PostResetPassword (reset_body "0123456789abcdef" "abc"))
              world_expired)
    = inr (validation_failed [Zod.mkIssue ["newPassword"] "Too small"]) /\
  validation_failed [Zod.mkIssue ["token"] "Too small"] <> password_updated /\
  validation_failed [Zod.mkIssue ["newPassword"] "Too small"] <> password_updated.
Proof. vm_compute. repeat split; discriminate. Qed.

Lemma reset_ignores_expiry_witness :
  ResetSchema (reset_body "0123456789abcdef" "secret2")
    = inr ("0123456789abcdef", "secret2") /\
  fk_ok (db world_expired) = true /\
  fst (handle cfg_fe (PostResetPassword (reset_body "0123456789abcdef" "secret2"))
              world_expired)
    = inr password_updated.
Proof.
  split; [reflexivity|]. split; [reflexivity|].
  refine (proj2 (proj2 (reset_ignores_expiry cfg_fe
            (reset_body "0123456789abcdef" "secret2") "0123456789abcdef" "secret2"
            world_expired eq_refl eq_refl))
          (mkPasswordReset 2 "0123456789abcdef" 1 (Some 5) false 0) 5
          eq_refl eq_refl _ eq_refl).
  reflexivity.
Defined.

(** C5, counterexample: the email is registered, and a call to [register]
    with it and a password shorter than 6 is answered 400 with the validation
    body, not 409. *)
Lemma register_duplicate_short_password :
  Db.find_user_by_email "a@x.com" (db world1) = Some alice /\
  fst (handle cfg_fe (PostRegister (credentials "a@x.com" "abc")) world1)
    = inr (mkResponse 400
             (JObj [ ("message", JStr "Validation failed");
                     ("formErrors", JArr []);
                     ("fieldErrors", JObj [("password", JArr [JStr "Too small"])]) ])).
Proof. vm_compute. split; reflexivity. Qed.

Lemma register_duplicate_email_witness :
  Db.find_user_by_email "a@x.com" (db world1) = Some alice /\
  RegisterSchema (credentials "a@x.com" "secret1") = inr ("a@x.com", "secret1", None) /\
  fst (handle cfg_fe (PostRegister (credentials "a@x.com" "secret1")) world1)
    = inr (mkResponse 409 (JObj [("error", JStr "Email exists")])) /\
  Db.users (db (snd (handle cfg_fe (PostRegister (credentials "a@x.com" "secret1")) world1)))
    = [alice].
Proof.
  split; [reflexivity|]. split; [reflexivity|].
  destruct (register_duplicate_email cfg_fe "a@x.com" world1 alice eq_refl)
    as (H409 & Hrows & _).
  split.
  - exact (H409 (credentials "a@x.com" "secret1") "secret1" None eq_refl).
  - exact (Hrows (credentials "a@x.com" "secret1") eq_refl).
Defined.

Lemma forgot_password_reveals_registration_witness :
  ForgotSchema (email_body "a@x.com") = inr "a@x.com" /\
  FE cfg_fe = Some "https://kost.example" /\
  Db.find_user_by_email "a@x.com" (db (mkWorld (Db.mkStore [] [] 1 1) 1000 0)) = None /\
  Db.find_user_by_email "a@x.com" (db world1) = Some alice /\
  fst (handle cfg_fe (PostForgotPassword (email_body "a@x.com"))
              (mkWorld (Db.mkStore [] [] 1 1) 1000 0))
    <> fst (handle cfg_fe (PostForgotPassword (email_body "a@x.com")) world1).
Proof.
  split; [reflexivity|]. split; [reflexivity|]. split; [reflexivity|].
  split; [reflexivity|].
  refine (proj2 (proj2 (forgot_password_reveals_registration cfg_fe
            (email_body "a@x.com") "a@x.com" "https://kost.example"
            (mkWorld (Db.mkStore [] [] 1 1) 1000 0) world1 alice
            eq_refl eq_refl _ eq_refl eq_refl eq_refl))).
  discriminate.
Defined.

Lemma login_failures_indistinguishable_witness :
  LoginSchema (credentials "a@x.com" "secret2") = inr ("a@x.com", "secret2") /\
  Db.find_user_by_email "a@x.com" (db (mkWorld (Db.mkStore [] [] 1 1) 1000 0)) = None /\
  Db.find_user_by_email "a@x.com" (db world1) = Some alice /\
  bcrypt_compare "secret2" (u_password alice) = false /\
  fst (handle cfg_fe (PostLogin (credentials "a@x.com" "secret2"))
              (mkWorld (Db.mkStore [] [] 1 1) 1000 0))
    = fst (handle cfg_fe (PostLogin (credentials "a@x.com" "secret2")) world1).
Proof.
  split; [reflexivity|]. split; [reflexivity|]. split; [reflexivity|].
  split; [reflexivity|].
  exact (proj1 (login_failures_indistinguishable cfg_fe
           (credentials "a@x.com" "secret2") "a@x.com" "secret2"
           (mkWorld (Db.mkStore [] [] 1 1) 1000 0) world1 alice
           eq_refl eq_refl eq_refl eq_refl)).
Defined.

Lemma login_short_password_rejected_by_validation_witness :
  field "password" (credentials "a@x.com" "abc") = JStr "abc" /\
  (String.length "abc" < 6)%nat /\
  exists issues,
    login cfg_fe (credentials "a@x.com" "abc") = Ret (validation_failed issues) /\
    status (validation_failed issues) = 400.
Proof.
  split; [reflexivity|]. split; [simpl; lia|].
  destruct (login_short_password_rejected_by_validation cfg_fe
              (credentials "a@x.com" "abc") "abc" eq_refl ltac:(simpl; lia))
    as (issues & Hprog & _ & Hst & _).
  exists issues. split; assumption.
Defined.

Lemma verifyJwt_signJwt_roundtrip_and_rejection_witness :
  exists c,
    Jwt.verifyJwt "s3cr3t" (Jwt.signJwt "s3cr3t" (mkJwtPayload 1 "a@x.com") None 5000) 6000
      = inr (claims_json c) /\
    claims_payload c = mkJwtPayload 1 "a@x.com".
Proof.
  destruct (proj1 (proj2 (verifyJwt_signJwt_roundtrip_and_rejection
              "s3cr3t" (mkJwtPayload 1 "a@x.com") 5000)) 6000 ltac:(reflexivity))
    as (c & Hv & Hp & _).
  exists c. split; assumption.
Defined.

Lemma missing_secret_is_fatal_witness :
  (∅ : gmap string string) !! "JWT_SECRET" = None /\
  Server.main ∅ = Server.Crashed "JWT_SECRET missing" /\
  Server.serve (Server.main ∅) (PostLogin (credentials "a@x.com" "secret1")) world1
    = None.
Proof.
  split; [reflexivity|].
  destruct (missing_secret_is_fatal ∅ ltac:(left; reflexivity)) as (_ & Hmain & Hserve).
  split; [exact Hmain | apply Hserve].
Defined.

Lemma auth_gate_witness :
  auth cfg_fe (mkReq None JNull None) whoami = Ret no_token /\
  auth cfg_fe (mkReq (Some "Basic abc") JNull None) whoami = Ret no_token /\
  run (auth cfg_fe (bearer "abc.def") whoami) world1 = (inr invalid_token, world1) /\
  run (auth cfg_fe
         (bearer (Jwt.signJwt "s3cr3t" (mkJwtPayload 1 "a@x.com") None 1000)) whoami)
      world1
    = (inr (res_json (JNum 1)), world1).
Proof.
  split; [exact (proj1 (auth_gate cfg_fe (mkReq None JNull None) whoami world1) eq_refl)|].
  split; [exact (proj1 (proj2 (auth_gate cfg_fe (mkReq (Some "Basic abc") JNull None)
                                 whoami world1)) "Basic abc" eq_refl eq_refl)|].
  split.
  - exact (proj1 (proj1 (proj2 (proj2 (auth_gate cfg_fe (bearer "abc.def") whoami world1)))
             "Bearer abc.def" (Jwt.JsonWebTokenError "jwt malformed")
             eq_refl eq_refl eq_refl)).
  - assert (Hv : Jwt.verifyJwt (SECRET cfg_fe)
             (slice 7 ("Bearer " +:+
                Jwt.signJwt "s3cr3t" (mkJwtPayload 1 "a@x.com") None 1000))
             (clock world1)
           = inr (claims_json (mkJwtClaims 1 "a@x.com" 1 (Some 604801))))
      by (vm_compute; reflexivity).
    rewrite (proj1 (proj1 (proj2 (proj2 (proj2 (auth_gate cfg_fe
               (bearer (Jwt.signJwt "s3cr3t" (mkJwtPayload 1 "a@x.com") None 1000))
               whoami world1))))
               _ _ eq_refl eq_refl Hv)).
    reflexivity.
Defined.

(** ** The further properties on sample data *)

Ltac solve_store_wf :=
  unfold store_wf; simpl;
  repeat (split; [repeat constructor; simpl; intuition (discriminate || lia)|]);
  reflexivity.

Lemma world1_wf : store_wf (db world1).
Proof. solve_store_wf. Defined.

Lemma world2_wf : store_wf (db Cases.world2).
Proof. solve_store_wf. Defined.

Lemma store_constraints_kept_witness :
  store_wf (db Cases.world2) /\
  store_wf (db (snd (handle cfg_fe
     (PostRegister (Cases.register_body "c@x.com" "secret3" "Cici")) Cases.world2))) /\
  store_wf (db (world (exec cfg_fe
     [Arrive (PostRegister (Cases.register_body "c@x.com" "secret3" "Cici"));
      Arrive (PostRegister (Cases.register_body "c@x.com" "secret4" "Caca"));
      Resume 0; Resume 1; Resume 1; Resume 0]
     (mkSys Cases.world2 [])))).
Proof.
  split; [exact world2_wf|].
  destruct (store_constraints_kept cfg_fe (mkSys Cases.world2 []) world2_wf)
    as (Hone & _ & Hloop).
  split; [apply Hone | apply Hloop].
Defined.

Lemma hashes_change_only_by_reset_witness :
  In alice (Db.users (db Cases.world2)) /\
  In alice (Db.users (db (snd (handle cfg_fe
     (PostResetPassword (reset_body "fedcba9876543210" "newpass9")) Cases.world2)))).
Proof.
  split; [left; reflexivity|].
  destruct (proj2 (proj2 (proj2 (hashes_change_only_by_reset cfg_fe Cases.world2)))
              (reset_body "fedcba9876543210" "newpass9") alice
              ltac:(left; reflexivity))
    as [Hin|(t & p & r & Hv & Hf & _ & Hid)]; [exact Hin|].
  exfalso.
  assert (Hv0 : ResetSchema (reset_body "fedcba9876543210" "newpass9")
                = inr ("fedcba9876543210", "newpass9")) by reflexivity.
  rewrite Hv0 in Hv. injection Hv as <- _. vm_compute in Hf. injection Hf as <-.
  discriminate Hid.
Defined.


Lemma login_token_opens_gate_witness :
  LoginSchema (credentials "a@x.com" "secret1") = inr ("a@x.com", "secret1") /\
  Db.find_user_by_email "a@x.com" (db world1) = Some alice /\
  bcrypt_compare "secret1" (u_password alice) = true /\
  exists tok c,
    run (auth cfg_fe (mkReq (Some ("Bearer " +:+ tok)) JNull None) Cases.whoami_id)
        Cases.world2
      = run (Cases.whoami_id
               (mkReq (Some ("Bearer " +:+ tok)) JNull (Some (claims_json c))))
            Cases.world2 /\
    claims_payload c = mkJwtPayload 1 "a@x.com".
Proof.
  assert (Hl : LoginSchema (credentials "a@x.com" "secret1") = inr ("a@x.com", "secret1"))
    by reflexivity.
  assert (Hc0 : bcrypt_compare "secret1" (u_password alice) = true) by reflexivity.
  split; [exact Hl|]. split; [reflexivity|]. split; [exact Hc0|].
  destruct (login_token_opens_gate cfg_fe (credentials "a@x.com" "secret1")
              "a@x.com" "secret1" world1 Cases.world2 alice JNull Cases.whoami_id
              Hl eq_refl Hc0)
    as (tok & _ & Hopen & _).
  destruct (Hopen ltac:(vm_compute; reflexivity)) as (c & Hrun & Hc).
  exists tok, c. split; assumption.
Defined.

Lemma signJwt_expiresIn_override_witness :
  Jwt.verifyJwt "s3cr3t"
    (Jwt.signJwt "s3cr3t" (mkJwtPayload 1 "a@x.com")
                 (Some (Jwt.mkSignOptions (Some 60))) 5000) 64000
    = inr (claims_json (mkJwtClaims 1 "a@x.com" 5 (Some 65))) /\
  Jwt.verifyJwt "s3cr3t"
    (Jwt.signJwt "s3cr3t" (mkJwtPayload 1 "a@x.com")
                 (Some (Jwt.mkSignOptions (Some 60))) 5000) 65000
    = inl Jwt.TokenExpiredError.
Proof.
  split.
  - rewrite (proj1 (signJwt_expiresIn_override "s3cr3t" (mkJwtPayload 1 "a@x.com")
                      60 5000 64000)). reflexivity.
  - rewrite (proj1 (signJwt_expiresIn_override "s3cr3t" (mkJwtPayload 1 "a@x.com")
                      60 5000 65000)). reflexivity.
Defined.

Lemma reset_then_login_witness :
  store_wf (db world1) /\
  ResetSchema (reset_body "0123456789abcdef" "newpass1")
    = inr ("0123456789abcdef", "newpass1") /\
  fst (handle cfg_fe (PostLogin (credentials "a@x.com" "secret1"))
         (snd (handle cfg_fe
                 (PostResetPassword (reset_body "0123456789abcdef" "newpass1")) world1)))
    = inr invalid_credentials /\
  exists tok,
    fst (handle cfg_fe (PostLogin (credentials "a@x.com" "newpass1"))
           (snd (handle cfg_fe
                   (PostResetPassword (reset_body "0123456789abcdef" "newpass1"))
                   world1)))
      = inr (mkResponse 200 (JObj [("token", JStr tok)])).
Proof.
  assert (Hv : ResetSchema (reset_body "0123456789abcdef" "newpass1")
               = inr ("0123456789abcdef", "newpass1")) by reflexivity.
  assert (Hc0 : bcrypt_compare "newpass1"
                  (bcrypt_hash 10 (bcrypt_salt (draws world1)) "newpass1") = true)
    by reflexivity.
  assert (Hold0 : LoginSchema (credentials "a@x.com" "secret1")
                  = inr (u_email alice, "secret1")) by reflexivity.
  assert (Hnew0 : LoginSchema (credentials "a@x.com" "newpass1")
                  = inr (u_email alice, "newpass1")) by reflexivity.
  assert (Hc1 : bcrypt_compare "secret1"
                  (bcrypt_hash 10 (bcrypt_salt (draws world1)) "newpass1") = false)
    by reflexivity.
  split; [exact world1_wf|]. split; [exact Hv|].
  destruct (reset_then_login cfg_fe (reset_body "0123456789abcdef" "newpass1")
              "0123456789abcdef" "newpass1" world1
              (mkPasswordReset 1 "0123456789abcdef" 1 None false 0) alice
              world1_wf Hv eq_refl eq_refl eq_refl Hc0)
    as (_ & Hnew & Hold).
  split.
  - rewrite (Hold (credentials "a@x.com" "secret1") "secret1" Hold0 Hc1).
    reflexivity.
  - destruct (Hnew (credentials "a@x.com" "newpass1") Hnew0) as [tok Htok].
    exists tok. rewrite Htok. reflexivity.
Defined.


Lemma rejection_only_on_token_collision_witness :
  store_wf (db Cases.world_collision) /\
  ForgotSchema (email_body "a@x.com") = inr "a@x.com" /\
  Db.find_user_by_email "a@x.com" (db Cases.world_collision) = Some alice /\
  option_map pr_id
    (Db.find_reset_by_token (random_hex (draws Cases.world_collision) 32)
                            (db Cases.world_collision)) = Some 1 /\
  fst (handle cfg_fe (PostForgotPassword (email_body "a@x.com")) Cases.world_collision)
    = inl (Prisma Db.P2002).
Proof.
  assert (Hwf : store_wf (db Cases.world_collision)) by solve_store_wf.
  assert (Hv : ForgotSchema (email_body "a@x.com") = inr "a@x.com") by reflexivity.
  assert (Hf : Db.find_user_by_email "a@x.com" (db Cases.world_collision) = Some alice)
    by reflexivity.
  assert (Hrow : Db.find_reset_by_token (random_hex (draws Cases.world_collision) 32)
                   (db Cases.world_collision)
                 = Some (mkPasswordReset 1 (random_hex 0 32) 1 None true 0))
    by reflexivity.
  split; [exact Hwf|]. split; [exact Hv|]. split; [exact Hf|].
  split; [rewrite Hrow; reflexivity|].
  exact (proj2 (rejection_only_on_token_collision cfg_fe
                  (PostForgotPassword (email_body "a@x.com")) Cases.world_collision Hwf)
           (email_body "a@x.com") "a@x.com" alice _ eq_refl Hv Hf Hrow).
Defined.

Lemma reset_unknown_and_used_alike_witness :
  ResetSchema (reset_body "0123456789abcdef" "newpass1")
    = inr ("0123456789abcdef", "newpass1") /\
  Db.find_reset_by_token "0123456789abcdef" (db (mkWorld (Db.mkStore [] [] 1 1) 0 0))
    = None /\
  option_map pr_used (Db.find_reset_by_token "0123456789abcdef" (db Cases.world2))
    = Some true /\
  fst (handle cfg_fe (PostResetPassword (reset_body "0123456789abcdef" "newpass1"))
              (mkWorld (Db.mkStore [] [] 1 1) 0 0))
    = fst (handle cfg_fe (PostResetPassword (reset_body "0123456789abcdef" "newpass1"))
              Cases.world2).
Proof.
  assert (Hv : ResetSchema (reset_body "0123456789abcdef" "newpass1")
               = inr ("0123456789abcdef", "newpass1")) by reflexivity.
  split; [exact Hv|]. split; [reflexivity|]. split; [reflexivity|].
  destruct (reset_unknown_and_used_alike cfg_fe
              (reset_body "0123456789abcdef" "newpass1") "0123456789abcdef" "newpass1"
              (mkWorld (Db.mkStore [] [] 1 1) 0 0) Cases.world2
              (mkPasswordReset 1 "0123456789abcdef" 1 None true 0)
              Hv eq_refl eq_refl eq_refl) as [-> ->].
  reflexivity.
Defined.

Lemma frontend_url_modes_witness :
  Server.load_auth_routes
    (<["FRONTEND_URL" := "https://kost.example/"]> (<["JWT_SECRET" := "s3cr3t"]> ∅))
    = inr cfg_fe /\
  buildResetLink cfg_fe "abc" = Some "https://kost.example/reset-password?token=abc".
Proof.
  assert (Hload : Server.load_auth_routes
    (<["FRONTEND_URL" := "https://kost.example/"]> (<["JWT_SECRET" := "s3cr3t"]> ∅))
    = inr cfg_fe) by reflexivity.
  split; [exact Hload|].
  rewrite (proj1 (proj2 (frontend_url_modes _ cfg_fe "abc" Hload))
             "https://kost.example/" eq_refl
             ltac:(discriminate) ltac:(discriminate)).
  reflexivity.
Defined.

Lemma fromCsv_toCsv_witness :
  Forall (fun x => no_comma x = true) [" wifi "; "  "; "ac"] /\
  Iklan.fromCsv (Iklan.toCsv (Some [" wifi "; "  "; "ac"])) = ["wifi"; "ac"].
Proof.
  assert (Hall : Forall (fun x => no_comma x = true) (given (Some [" wifi "; "  "; "ac"])))
    by (repeat constructor).
  split; [exact Hall|].
  rewrite (proj1 (fromCsv_toCsv (Some [" wifi "; "  "; "ac"]) Hall)). reflexivity.
Defined.

Lemma delete_only_by_owner_witness :
  List.NoDup (map Iklan.id Cases.ads) /\
  Iklan.delete_by_id (Cases.as_user 1) 3 Cases.ads
    = (Iklan.Answered (mkResponse 404 (JObj [("error", JStr "Not found")])), Cases.ads).
Proof.
  assert (Hnd : List.NoDup (map Iklan.id Cases.ads))
    by (repeat constructor; simpl; intuition discriminate).
  split; [exact Hnd|].
  exact (proj1 (proj2 (proj2 (delete_only_by_owner (Cases.as_user 1) 3 Cases.ads Hnd)))
           (Cases.kost 3 2 true None)
           (claims_json (mkJwtClaims 1 "a@x.com" 1 (Some 604801)))
           eq_refl eq_refl ltac:(discriminate) ltac:(discriminate) ltac:(discriminate)).
Defined.

Lemma delete_then_detail_witness :
  Iklan.findUnique 3 Cases.ads = Some (Cases.kost 3 2 true None) /\
  fst (Iklan.delete_by_id (Cases.as_user 2) 3 Cases.ads)
    = Iklan.Answered (mkResponse 204 JUndefined) /\
  Iklan.get_by_id (fun _ => "1970-01-01T00:00:00.010Z") 3
      (snd (Iklan.delete_by_id (Cases.as_user 2) 3 Cases.ads))
    = mkResponse 404 (JObj [("error", JStr "Not found")]).
Proof.
  split; [reflexivity|].
  destruct (delete_then_detail (fun _ => "1970-01-01T00:00:00.010Z")
              (Cases.as_user 2) (claims_json (mkJwtClaims 2 "a@x.com" 1 (Some 604801)))
              3 Cases.ads
              (Cases.kost 3 2 true None) eq_refl eq_refl eq_refl)
    as (H204 & Hgone & _).
  split; assumption.
Defined.

Lemma forgot_token_only_in_testing_mode_witness :
  FE cfg_fe = Some "https://kost.example" /\
  field "token"
    (body (mkResponse 200 (JObj [("message", JStr "Reset link generated")])))
    = JUndefined.
Proof.
  assert (Hrun : fst (handle cfg_fe (PostForgotPassword (email_body "a@x.com")) world1)
                 = inr (mkResponse 200 (JObj [("message", JStr "Reset link generated")])))
    by reflexivity.
  split; [reflexivity|].
  exact (proj1 (forgot_token_only_in_testing_mode cfg_fe "https://kost.example"
           (email_body "a@x.com") world1
           (mkResponse 200 (JObj [("message", JStr "Reset link generated")]))
           eq_refl ltac:(discriminate) Hrun)).
Defined.

Lemma late_reset_never_accepted_witness :
  token_used "0123456789abcdef" (db Cases.world2) /\
  exists p,
    tasks (exec cfg_fe
             [Arrive (PostResetPassword (reset_body "0123456789abcdef" "newpass1"));
              Arrive (PostLogin (credentials "a@x.com" "secret1")); Resume 1; Resume 0]
             (mkSys Cases.world2 [])) !! 0%nat = Some p /\
    p <> Ret password_updated.
Proof.
  assert (Hused : token_used "0123456789abcdef" (db Cases.world2))
    by (eexists; split; reflexivity).
  split; [exact Hused|].
  destruct (late_reset_never_accepted cfg_fe "0123456789abcdef"
              (reset_body "0123456789abcdef" "newpass1") (mkSys Cases.world2 [])
              [Arrive (PostLogin (credentials "a@x.com" "secret1")); Resume 1; Resume 0]
              (Forall_nil _) Hused eq_refl)
    as (_ & p & Hp & _ & Hne).
  exists p. split; assumption.
Defined.
